(** * ApplicationVolumeReplication controller: a shallow embedding

    The controller of [controllers/applicationvolumereplication_controller.go]
    is embedded function by function.  Go maps are [gmap]s (a nil map is
    [None] where the code tests for nil), slices are lists, pointers that
    may be nil are options, and the API server reached through
    [r.Client] is an explicit [World] threaded through a small state
    monad together with the trace of the calls issued. *)

From Stdlib Require Import ZArith Ascii String.
From stdpp Require Import gmap strings list fin_maps sorting.

Local Open Scope Z_scope.
Local Open Scope string_scope.
Local Open Scope list_scope.

(** ** metav1.Time

    A [metav1.Time] wraps a [time.Time], a struct of clock readings, which
    fix the instant the value denotes, and of a pointer to a location.
    [t.Before(u)] compares the two instants.  Go's [==] compares the two
    structs field by field, the location pointer included: two values of
    one instant in different locations are neither [Before] the other and
    are not [==].  A [Time] keeps the instant, in seconds, and the
    location pointer; equality of two [Time]s is Go's [==].  The monotonic
    reading that [time.Now] adds to a value is not modelled. *)

Record Time := mkTime {
  instant : Z;
  location : Z
}.

#[global] Instance Time_eq_dec : EqDecision Time.
Proof. solve_decision. Defined.

(** [t.Before(u)] *)
Definition Before (t u : Time) : bool := bool_decide (instant t < instant u).

(** ** Conditions of a ManifestWork (metav1.Condition) *)

Record Condition := mkCondition {
  cond_Type : string;
  cond_Status : string;
  cond_LastTransitionTime : Time
}.

#[global] Instance Condition_eq_dec : EqDecision Condition.
Proof. solve_decision. Defined.

Definition ConditionTrue : string := "True".
Definition WorkApplied : string := "Applied".
Definition WorkDegraded : string := "Degraded".

(** ** sort.Slice

    [sort.Slice(s, less)] reorders [s] in place; the library promises a
    permutation ordered by [less] and no stability.  [sortSlice] runs the
    insertion sort the library applies to slices of at most twelve
    elements: each element in turn moves left while it is [less] than its
    left neighbour.  The prefix already sorted is kept reversed, its last
    element first.  On longer slices the library may leave elements
    that tie in another order; what is proved of the answer of the
    evaluator on lists of any length rests on [sortSlice_perm] and
    [sortSlice_sorted] alone, or on the slice being ordered already. *)

Fixpoint insertLeft {A} (less : A -> A -> bool) (x : A) (rprefix : list A) : list A :=
  match rprefix with
  | [] => [x]
  | y :: r => if less x y then y :: insertLeft less x r else x :: rprefix
  end.

Definition sortSlice {A} (less : A -> A -> bool) (s : list A) : list A :=
  rev (fold_left (fun rprefix x => insertLeft less x rprefix) s []).

(** The comparison handed to sort.Slice by getMostRecentConditions:
    [conditions[b].LastTransitionTime.Before(&conditions[a].LastTransitionTime)]. *)
Definition moreRecent (a b : Condition) : bool :=
  Before (cond_LastTransitionTime b) (cond_LastTransitionTime a).

(** The loop of getMostRecentConditions: keep while the timestamp is
    [==] to the most recent one, break at the first other. *)
Fixpoint keepMostRecent (mostRecentTimestamp : Time) (conditions : list Condition)
  : list Condition :=
  match conditions with
  | [] => []
  | c :: rest =>
      if decide (cond_LastTransitionTime c = mostRecentTimestamp)
      then c :: keepMostRecent mostRecentTimestamp rest
      else []
  end.

(** getMostRecentConditions sorts its argument in place and returns the
    leading run of the sorted slice.  The result is the pair of the slice
    as the caller sees it afterwards and the returned conditions; [None]
    is the index-out-of-range panic of [conditions[0]] on an empty slice. *)
Definition getMostRecentConditions (conditions : list Condition)
  : option (list Condition * list Condition) :=
  let conditions := sortSlice moreRecent conditions in
  match conditions with
  | [] => None
  | c0 :: _ =>
      Some (conditions, keepMostRecent (cond_LastTransitionTime c0) conditions)
  end.

Definition filterByConditionStatus (conditions : list Condition) (status : string)
  : list Condition :=
  fold_left (fun filtered condition =>
               if decide (cond_Status condition = status)
               then filtered ++ [condition] else filtered)
            conditions [].

(** ** ManifestWork *)

Record ManifestWorkSpec := mkManifestWorkSpec {
  Manifests : list string
}.

#[global] Instance ManifestWorkSpec_eq_dec : EqDecision ManifestWorkSpec.
Proof. solve_decision. Defined.

Record ManifestWork := mkManifestWork {
  mw_Name : string;
  mw_Namespace : string;
  mw_Labels : gmap string string;
  mw_Spec : ManifestWorkSpec;
  mw_Conditions : list Condition
}.

#[global] Instance ManifestWork_eq_dec : EqDecision ManifestWork.
Proof. solve_decision. Defined.

Definition setConditions (mw : ManifestWork) (cs : list Condition) : ManifestWork :=
  {| mw_Name := mw_Name mw; mw_Namespace := mw_Namespace mw;
     mw_Labels := mw_Labels mw; mw_Spec := mw_Spec mw; mw_Conditions := cs |}.

Definition setSpec (mw : ManifestWork) (s : ManifestWorkSpec) : ManifestWork :=
  {| mw_Name := mw_Name mw; mw_Namespace := mw_Namespace mw;
     mw_Labels := mw_Labels mw; mw_Spec := s; mw_Conditions := mw_Conditions mw |}.

(** The body of the [for _, condition := range recentConditions] loop,
    on the pair [(applied, degraded)]. *)
Definition markCondition (flags : bool * bool) (condition : Condition) : bool * bool :=
  if decide (cond_Type condition = WorkApplied) then (true, flags.2)
  else if decide (cond_Type condition = WorkDegraded) then (flags.1, true)
  else flags.

(** IsManifestInAppliedState takes a pointer: the result carries the
    ManifestWork as it is after the call, since the slice
    [mw.Status.Conditions] is sorted in place. *)
Definition IsManifestInAppliedState (mw : ManifestWork) : bool * ManifestWork :=
  let conditions := mw_Conditions mw in
  if decide (0 < length conditions)%nat then
    match getMostRecentConditions conditions with
    | Some (conditions', recent) =>
        let recentConditions := filterByConditionStatus recent ConditionTrue in
        let '(applied, degraded) := fold_left markCondition recentConditions (false, false) in
        ((if degraded then false else applied), setConditions mw conditions')
    | None => (false, mw) (* not reached, see [getMostRecentConditions_nonempty] *)
    end
  else (false, mw).

(** ** The other API objects the controller handles *)

(** spokeClusterV1.ManagedCluster: only [Name] is read. *)
Record ManagedCluster := mkManagedCluster {
  mc_Name : string
}.

(** plrv1.PlacementRule; [Spec.ClusterReplicas] is a [*int32]. *)
Record PlacementRule := mkPlacementRule {
  plr_Name : string;
  plr_Namespace : string;
  plr_ClusterReplicas : option Z
}.

Record ObjectReference := mkObjectReference {
  ref_Name : string;
  ref_Namespace : string
}.

(** plrv1.Placement: [Local] is a [*bool], [PlacementRef] a pointer. *)
Record Placement := mkPlacement {
  pl_Local : option bool;
  pl_PlacementRef : option ObjectReference
}.

(** subv1.Subscription.  [sub_Labels] is [None] for a nil label map;
    [sub_Statuses] is [Status.Statuses], a map from cluster name to a
    pointer to the per-cluster status ([None] for nil, inside and
    outside), whose content the controller never reads. *)
Record Subscription := mkSubscription {
  sub_Name : string;
  sub_Namespace : string;
  sub_Labels : option (gmap string string);
  sub_Placement : option Placement;
  sub_Phase : string;
  sub_Statuses : option (gmap string (option string))
}.

Definition SubscriptionSubscribed : string := "Subscribed".
Definition SubscriptionPropagated : string := "Propagated".
Definition LabelSubscriptionPause : string := "subscription-pause".

Record SubscriptionPlacementDecision := mkDecision {
  HomeCluster : string;
  PeerCluster : string
}.

#[global] Instance SubscriptionPlacementDecision_eq_dec :
  EqDecision SubscriptionPlacementDecision.
Proof. solve_decision. Defined.

(** ramendrv1alpha1.ApplicationVolumeReplication.  [avr_Decisions] is
    [Status.Decisions], [None] when the map is nil. *)
Record ApplicationVolumeReplication := mkAVR {
  avr_Name : string;
  avr_Namespace : string;
  avr_FailoverClusters : gmap string string;
  avr_S3Endpoint : string;
  avr_S3SecretName : string;
  avr_Decisions : option (gmap string SubscriptionPlacementDecision)
}.

Definition setDecisions (avr : ApplicationVolumeReplication)
    (d : option (gmap string SubscriptionPlacementDecision)) : ApplicationVolumeReplication :=
  {| avr_Name := avr_Name avr; avr_Namespace := avr_Namespace avr;
     avr_FailoverClusters := avr_FailoverClusters avr;
     avr_S3Endpoint := avr_S3Endpoint avr; avr_S3SecretName := avr_S3SecretName avr;
     avr_Decisions := d |}.

Definition setLabels (sub : Subscription) (labels : option (gmap string string)) : Subscription :=
  {| sub_Name := sub_Name sub; sub_Namespace := sub_Namespace sub; sub_Labels := labels;
     sub_Placement := sub_Placement sub; sub_Phase := sub_Phase sub;
     sub_Statuses := sub_Statuses sub |}.

(** A persistent volume as it comes back from the S3 store. *)
Definition PersistentVolume : Type := string.

(** What generateManifest is asked to serialise. *)
Inductive Object :=
| ClusterRole
| ClusterRoleBinding
| VolumeReplicationGroup (name namespace s3Endpoint s3SecretName : string)
| PV (pv : PersistentVolume).

(** ** Errors and results *)

Inductive error :=
| NotFound
| AlreadyExists
| IOError
| Panic
| Failure (msg : string).

Inductive Result (A : Type) :=
| Ok (a : A)
| Err (e : error).
Arguments Ok {A} a.
Arguments Err {A} e.

Definition IsNotFound (e : error) : bool :=
  match e with NotFound => true | _ => false end.

Definition isErr {A} (r : Result A) : bool :=
  match r with Ok _ => false | Err _ => true end.

(** ** The API server and the calls issued to it

    Objects are stored under (namespace, name).  [trace] lists every call
    made through [r.Client] and [r.S3], oldest first; what the placement
    library does with the client it is handed is listed as one call,
    [PlaceClusters]. *)

Inductive Call :=
| GetAVR (namespace name : string)
| ListSubscriptions (namespace : string)
| GetPlacementRule (namespace name : string)
| GetManifestWork (namespace name : string)
| CreateManifestWork (mw : ManifestWork)
| UpdateManifestWork (mw : ManifestWork)
| DeleteManifestWork (mw : ManifestWork)
| UpdateSubscription (sub : Subscription)
| StatusUpdateAVR (avr : ApplicationVolumeReplication)
| DownloadPVs (s3Endpoint : string) (s3SecretName : string * string)
              (callerTag s3Bucket : string)
| PlaceClusters (placementRule : PlacementRule).

Record World := mkWorld {
  avrs : gmap (string * string) ApplicationVolumeReplication;
  subscriptions : gmap (string * string) Subscription;
  placementRules : gmap (string * string) PlacementRule;
  manifestWorks : gmap (string * string) ManifestWork;
  trace : list Call
}.

(** What the controller depends on and does not define: which calls fail
    with an I/O error ([fault n] for the call that is the [n]-th of the
    trace), what the placement library answers when its call through the
    client does not fail, the order in which [range] walks the cluster
    map (any order, fixed by the runtime), the S3 store behind
    [S3StoreInterface], [json.Marshal], and the bucket naming of the
    sibling file of this package. *)
Record Env := mkEnv {
  fault : nat -> bool;
  PlaceByGenericPlacmentFields : PlacementRule -> Result (gmap string ManagedCluster);
  rangeOrder : gmap string ManagedCluster -> list (string * ManagedCluster);
  rangeOrder_perm : forall m, rangeOrder m ≡ₚ map_to_list m;
  S3_DownloadPVs : string -> string * string -> string -> string ->
                   Result (list PersistentVolume);
  jsonMarshal : Object -> Result string;
  constructBucketName : string -> string -> string
}.

(** ** The state monad of a reconcile pass *)

Definition M (A : Type) : Type := World -> A * World.

Definition ret {A} (a : A) : M A := fun w => (a, w).

Definition bind {A B} (m : M A) (k : A -> M B) : M B :=
  fun w => let '(a, w') := m w in k a w'.

Notation "'do' x <- m ; k" := (bind m (fun x => k))
  (at level 10, x name, m at level 100, k at level 200).
Notation "'do' ' pat <- m ; k" := (bind m (fun x => match x with pat => k end))
  (at level 10, pat pattern, m at level 100, k at level 200).

Definition getWorld : M World := fun w => (w, w).
Definition putWorld (w : World) : M unit := fun _ => (tt, w).

Definition setAvrs (w : World) m : World :=
  mkWorld m (subscriptions w) (placementRules w) (manifestWorks w) (trace w).
Definition setSubscriptions (w : World) m : World :=
  mkWorld (avrs w) m (placementRules w) (manifestWorks w) (trace w).
Definition setManifestWorks (w : World) m : World :=
  mkWorld (avrs w) (subscriptions w) (placementRules w) m (trace w).
Definition setTrace (w : World) t : World :=
  mkWorld (avrs w) (subscriptions w) (placementRules w) (manifestWorks w) t.

(** The world once call [c] is recorded. *)
Definition called (w : World) (c : Call) : World := setTrace w (trace w ++ [c]).

(** The calls issued between world [w] and a later world [w']. *)
Definition newCalls (w w' : World) : list Call := drop (length (trace w)) (trace w').

Definition isCreate (c : Call) : bool :=
  match c with CreateManifestWork _ => true | _ => false end.
Definition isUpdate (c : Call) : bool :=
  match c with UpdateManifestWork _ => true | _ => false end.
Definition isUnpause (c : Call) : bool :=
  match c with UpdateSubscription _ => true | _ => false end.
Definition isStatusWrite (c : Call) : bool :=
  match c with StatusUpdateAVR _ => true | _ => false end.

(** An object read from the server carries the namespace and name it was
    asked by. *)
Definition avrAt (key : string * string) (a : ApplicationVolumeReplication) :=
  mkAVR key.2 key.1 (avr_FailoverClusters a) (avr_S3Endpoint a) (avr_S3SecretName a)
        (avr_Decisions a).
Definition subAt (key : string * string) (s : Subscription) :=
  mkSubscription key.2 key.1 (sub_Labels s) (sub_Placement s) (sub_Phase s) (sub_Statuses s).
Definition plrAt (key : string * string) (p : PlacementRule) :=
  mkPlacementRule key.2 key.1 (plr_ClusterReplicas p).
Definition mwAt (key : string * string) (mw : ManifestWork) :=
  mkManifestWork key.2 key.1 (mw_Labels mw) (mw_Spec mw) (mw_Conditions mw).

Definition mwKey (mw : ManifestWork) : string * string := (mw_Namespace mw, mw_Name mw).
Definition subKey (s : Subscription) : string * string := (sub_Namespace s, sub_Name s).
Definition avrKey (a : ApplicationVolumeReplication) : string * string :=
  (avr_Namespace a, avr_Name a).

(** Reading a Go [map[string]string]: a missing key (and any key of a
    nil map) gives the empty string. *)
Definition index (m : gmap string string) (k : string) : string := default "" (m !! k).

(** [strings.EqualFold] on the bytes of the two strings.  The controller
    compares label values with the literals protected and true, whose
    letters fold only within ASCII. *)
Definition foldAscii (a : ascii) : ascii :=
  let n := nat_of_ascii a in
  if ((65 <=? n) && (n <=? 90))%nat then ascii_of_nat (n + 32) else a.

Fixpoint EqualFold (s t : string) : bool :=
  match s, t with
  | EmptyString, EmptyString => true
  | String a s', String b t' => Ascii.eqb (foldAscii a) (foldAscii b) && EqualFold s' t'
  | _, _ => false
  end.

Definition RamenDRLabelName : string := "ramendr".
Definition MWTypeVRG : string := "vrg".
Definition MWTypePV : string := "pv".

(** [fmt.Sprintf(ManifestWorkNameFormat, name, namespace, mwType)] with
    the format [%s-%s-%s-mw]. *)
Definition ManifestWorkName (name namespace mwType : string) : string :=
  name +:+ "-" +:+ namespace +:+ "-" +:+ mwType +:+ "-mw".

(** [ctrl.Result], of which only [Requeue] is set. *)
Record ctrlResult := mkResult { Requeue : bool }.

Section Controller.
Context (env : Env).

(** Every call is appended to the trace; the answer tells whether it
    fails with an I/O error, in which case the server is left as it was. *)
Definition call (c : Call) : M bool :=
  fun w => (fault env (length (trace w)), setTrace w (trace w ++ [c])).

Definition Client_Get_AVR (key : string * string) : M (Result ApplicationVolumeReplication) :=
  do failed <- call (GetAVR key.1 key.2);
  if failed then ret (Err IOError) else
  do w <- getWorld;
  match avrs w !! key with
  | Some a => ret (Ok (avrAt key a))
  | None => ret (Err NotFound)
  end.

Definition Client_List_Subscriptions (namespace : string) : M (Result (list Subscription)) :=
  do failed <- call (ListSubscriptions namespace);
  if failed then ret (Err IOError) else
  do w <- getWorld;
  ret (Ok (omap (fun kv => if decide (kv.1.1 = namespace) then Some (subAt kv.1 kv.2) else None)
                (map_to_list (subscriptions w)))).

Definition Client_Get_PlacementRule (key : string * string) : M (Result PlacementRule) :=
  do failed <- call (GetPlacementRule key.1 key.2);
  if failed then ret (Err IOError) else
  do w <- getWorld;
  match placementRules w !! key with
  | Some p => ret (Ok (plrAt key p))
  | None => ret (Err NotFound)
  end.

Definition Client_Get_ManifestWork (key : string * string) : M (Result ManifestWork) :=
  do failed <- call (GetManifestWork key.1 key.2);
  if failed then ret (Err IOError) else
  do w <- getWorld;
  match manifestWorks w !! key with
  | Some mw => ret (Ok (mwAt key mw))
  | None => ret (Err NotFound)
  end.

Definition Client_Create_ManifestWork (mw : ManifestWork) : M (option error) :=
  do failed <- call (CreateManifestWork mw);
  if failed then ret (Some IOError) else
  do w <- getWorld;
  match manifestWorks w !! mwKey mw with
  | Some _ => ret (Some AlreadyExists)
  | None => do _ <- putWorld (setManifestWorks w (<[mwKey mw := mw]> (manifestWorks w)));
            ret None
  end.

Definition Client_Update_ManifestWork (mw : ManifestWork) : M (option error) :=
  do failed <- call (UpdateManifestWork mw);
  if failed then ret (Some IOError) else
  do w <- getWorld;
  match manifestWorks w !! mwKey mw with
  | None => ret (Some NotFound)
  | Some _ => do _ <- putWorld (setManifestWorks w (<[mwKey mw := mw]> (manifestWorks w)));
              ret None
  end.

Definition Client_Delete_ManifestWork (mw : ManifestWork) : M (option error) :=
  do failed <- call (DeleteManifestWork mw);
  if failed then ret (Some IOError) else
  do w <- getWorld;
  match manifestWorks w !! mwKey mw with
  | None => ret (Some NotFound)
  | Some _ => do _ <- putWorld (setManifestWorks w (delete (mwKey mw) (manifestWorks w)));
              ret None
  end.

Definition Client_Update_Subscription (sub : Subscription) : M (option error) :=
  do failed <- call (UpdateSubscription sub);
  if failed then ret (Some IOError) else
  do w <- getWorld;
  match subscriptions w !! subKey sub with
  | None => ret (Some NotFound)
  | Some _ => do _ <- putWorld (setSubscriptions w (<[subKey sub := sub]> (subscriptions w)));
              ret None
  end.

(** [r.Client.Status().Update]: only the status of the stored object is
    replaced. *)
Definition Client_Status_Update (avr : ApplicationVolumeReplication) : M (option error) :=
  do failed <- call (StatusUpdateAVR avr);
  if failed then ret (Some IOError) else
  do w <- getWorld;
  match avrs w !! avrKey avr with
  | None => ret (Some NotFound)
  | Some stored =>
      do _ <- putWorld (setAvrs w (<[avrKey avr := setDecisions stored (avr_Decisions avr)]> (avrs w)));
      ret None
  end.

(** [r.S3.DownloadPVs] *)
Definition S3_Download (s3Endpoint : string) (s3SecretName : string * string)
    (callerTag s3Bucket : string) : M (Result (list PersistentVolume)) :=
  do failed <- call (DownloadPVs s3Endpoint s3SecretName callerTag s3Bucket);
  if failed then ret (Err IOError)
  else ret (S3_DownloadPVs env s3Endpoint s3SecretName callerTag s3Bucket).

(** [utils.PlaceByGenericPlacmentFields(r.Client, ...)]: the library
    resolves the clusters of a placement rule through the client. *)
Definition Utils_PlaceByGenericPlacmentFields (placementRule : PlacementRule)
  : M (Result (gmap string ManagedCluster)) :=
  do failed <- call (PlaceClusters placementRule);
  if failed then ret (Err IOError)
  else ret (PlaceByGenericPlacmentFields env placementRule).

(** ** The controller, function by function *)

Definition isSubsriptionPausedForDR (labels : option (gmap string string)) : bool :=
  match labels with
  | None => false
  | Some labels =>
      negb (String.eqb (index labels RamenDRLabelName) "") &&
      EqualFold (index labels RamenDRLabelName) "protected" &&
      negb (String.eqb (index labels LabelSubscriptionPause) "") &&
      EqualFold (index labels LabelSubscriptionPause) "true"
  end.

Definition findNextHomeCluster (avr : ApplicationVolumeReplication)
    (subscription : Subscription) : string :=
  index (avr_FailoverClusters avr) (sub_Name subscription).

(** The result is the pair (pointer or nil, error) of the source. *)
Definition findManifestWork (subscription : Subscription) (homeCluster mwType : string)
  : M (Result (option ManifestWork)) :=
  if decide (homeCluster <> "") then
    let mwName := ManifestWorkName (sub_Name subscription) (sub_Namespace subscription) mwType in
    do r <- Client_Get_ManifestWork (homeCluster, mwName);
    match r with
    | Err e =>
        if IsNotFound e then ret (Ok None)
        else ret (Err (Failure "failed to retrieve manifestwork"))
    | Ok mw => ret (Ok (Some mw))
    end
  else ret (Ok None).

(** [avr.Status.Decisions[name]] with its found flag; a nil map has no
    entry. *)
Definition lookupDecision (avr : ApplicationVolumeReplication) (name : string)
  : option SubscriptionPlacementDecision :=
  match avr_Decisions avr with
  | None => None
  | Some decisions => decisions !! name
  end.

Definition deleteExistingManfiestWork (avr : ApplicationVolumeReplication)
    (subscription : Subscription) : M (option error) :=
  match lookupDecision avr (sub_Name subscription) with
  | Some d =>
      let vrgMWName :=
        ManifestWorkName (sub_Name subscription) (sub_Namespace subscription) MWTypeVRG in
      do r <- Client_Get_ManifestWork (HomeCluster d, vrgMWName);
      match r with
      | Err e =>
          if IsNotFound e then ret None
          else ret (Some (Failure "failed to retrieve manifestWork"))
      | Ok mw => Client_Delete_ManifestWork mw
      end
  | None => ret None
  end.

Definition generateManifest (obj : Object) : Result string :=
  match jsonMarshal env obj with
  | Err e => Err (Failure "failed to marshal to JSON")
  | Ok objJSON => Ok objJSON
  end.

Definition newManifestWork (name mcNamespace : string) (labels : gmap string string)
    (manifests : list string) : ManifestWork :=
  mkManifestWork name mcNamespace labels (mkManifestWorkSpec manifests) [].

(** The loop of generatePVManifest: either all succeed or none. *)
Fixpoint generatePVManifestFrom (manifests : list string) (pvList : list PersistentVolume)
  : Result (list string) :=
  match pvList with
  | [] => Ok manifests
  | pv :: rest =>
      match generateManifest (PV pv) with
      | Err e => Err e
      | Ok pvClientManifest => generatePVManifestFrom (manifests ++ [pvClientManifest]) rest
      end
  end.

Definition generatePVManifest (pvList : list PersistentVolume) : Result (list string) :=
  generatePVManifestFrom [] pvList.

Definition generatePVManifestWork (name namespace homeClusterName : string)
    (pvList : list PersistentVolume) : Result ManifestWork :=
  match generatePVManifest pvList with
  | Err e => Err e
  | Ok manifests =>
      Ok (newManifestWork (ManifestWorkName name namespace MWTypePV) homeClusterName
            {["app" := "PV"]} manifests)
  end.

Definition generateVRGManifest (name namespace s3Endpoint s3SecretName : string)
  : Result string :=
  generateManifest (VolumeReplicationGroup name namespace s3Endpoint s3SecretName).

Definition generateVRGManifestWork (name namespace homeCluster s3Endpoint s3SecretName : string)
  : Result ManifestWork :=
  match generateVRGManifest name namespace s3Endpoint s3SecretName with
  | Err e => Err e
  | Ok vrgClientManifest =>
      Ok (newManifestWork (ManifestWorkName name namespace MWTypeVRG) homeCluster
            {["app" := "VRG"]} [vrgClientManifest])
  end.

Definition generateVRGRolesManifestWork (namespace : string) : Result ManifestWork :=
  match generateManifest ClusterRole with
  | Err e => Err e
  | Ok vrgClusterRole =>
      match generateManifest ClusterRoleBinding with
      | Err e => Err e
      | Ok vrgClusterRoleBinding =>
          Ok (newManifestWork "ramendr-vrg-roles" namespace ∅
                [vrgClusterRole; vrgClusterRoleBinding])
      end
  end.

(** [reflect.DeepEqual] on the two specs is equality of the manifests. *)
Definition createOrUpdateManifestWork (mw : ManifestWork) (managedClusternamespace : string)
  : M (option error) :=
  do r <- Client_Get_ManifestWork (managedClusternamespace, mw_Name mw);
  match r with
  | Err e =>
      if negb (IsNotFound e) then ret (Some (Failure "failed to fetch ManifestWork"))
      else Client_Create_ManifestWork mw
  | Ok foundMW =>
      if decide (mw_Spec foundMW <> mw_Spec mw)
      then Client_Update_ManifestWork (setSpec foundMW (mw_Spec mw))
      else ret None
  end.

Definition createOrUpdateVRGRolesManifestWork (namespace : string) : M (option error) :=
  match generateVRGRolesManifestWork namespace with
  | Err e => ret (Some e)
  | Ok manifestWork => createOrUpdateManifestWork manifestWork namespace
  end.

Definition createOrUpdateVRGManifestWork
    (name namespace homeCluster s3Endpoint s3SecretName : string) : M (option error) :=
  match generateVRGManifestWork name namespace homeCluster s3Endpoint s3SecretName with
  | Err e => ret (Some e)
  | Ok manifestWork => createOrUpdateManifestWork manifestWork homeCluster
  end.

Definition createOrUpdatePVsManifestWork (name namespace homeClusterName : string)
    (pvList : list PersistentVolume) : M (option error) :=
  match generatePVManifestWork name namespace homeClusterName pvList with
  | Err e => ret (Some e)
  | Ok manifestWork => createOrUpdateManifestWork manifestWork homeClusterName
  end.

Definition listPVsFromS3Store (avr : ApplicationVolumeReplication)
    (subscription : Subscription) : M (Result (list PersistentVolume)) :=
  let s3SecretLookupKey := (avr_Namespace avr, avr_S3SecretName avr) in
  let s3Bucket :=
    constructBucketName env (sub_Namespace subscription) (sub_Name subscription) in
  S3_Download (avr_S3Endpoint avr) s3SecretLookupKey (avr_Name avr) s3Bucket.

Definition restorePVFromBackup (avr : ApplicationVolumeReplication)
    (subscription : Subscription) (homeCluster : string) : M (option error) :=
  do r <- listPVsFromS3Store avr subscription;
  match r with
  | Err e => ret (Some (Failure "failed to retrieve PVs from S3 store"))
  | Ok pvList =>
      if decide (length pvList = 0%nat) then ret None
      else createOrUpdatePVsManifestWork (sub_Name subscription) (sub_Namespace subscription)
             homeCluster pvList
  end.

Definition processPausedSubscription (avr : ApplicationVolumeReplication)
    (subscription : Subscription) : M (Result (string * option ManifestWork)) :=
  let newHomeCluster := findNextHomeCluster avr subscription in
  if decide (newHomeCluster = "") then ret (Err (Failure "failed to find new home cluster"))
  else
    do r <- findManifestWork subscription newHomeCluster MWTypePV;
    match r with
    | Err e => ret (Err (Failure "failed to get PV ManifestWork"))
    | Ok (Some pvMW) => ret (Ok (newHomeCluster, Some pvMW))
    | Ok None =>
        do e <- deleteExistingManfiestWork avr subscription;
        match e with
        | Some _ => ret (Err (Failure "failed to delete existing ManifestWork"))
        | None =>
            do e <- restorePVFromBackup avr subscription newHomeCluster;
            match e with
            | Some _ => ret (Err (Failure "failed to restore PVs from Backups"))
            | None => ret (Ok (newHomeCluster, None))
            end
        end
    end.

(** The ManifestWork handed to IsManifestInAppliedState is the copy the
    lookup returned; its reordering stays in that copy. *)
Definition waitForManifest (subscription : Subscription) (clusterName : string)
    (pvMW : option ManifestWork) : M bool :=
  do r <- match pvMW with
          | None => findManifestWork subscription clusterName MWTypePV
          | Some mw => ret (Ok (Some mw))
          end;
  match r with
  | Err e => ret true
  | Ok pvMW =>
      match pvMW with
      | Some mw => if negb (IsManifestInAppliedState mw).1 then ret true else ret false
      | None => ret false
      end
  end.

(** unpauseSubscription works on a pointer: the result carries the
    subscription as it is in memory afterwards. *)
Definition unpauseSubscription (subscription : Subscription)
  : M (option error * Subscription) :=
  match sub_Labels subscription with
  | None => ret (Some (Failure "failed to find labels for subscription"), subscription)
  | Some labels =>
      let labels := <[LabelSubscriptionPause := "false"]> labels in
      let subscription := setLabels subscription (Some labels) in
      do e <- Client_Update_Subscription subscription;
      ret (e, subscription)
  end.

Definition vrgManifestWorkAlreadyExists (avr : ApplicationVolumeReplication)
    (subscription : Subscription) : M (bool * option error) :=
  match avr_Decisions avr with
  | None => ret (false, None)
  | Some decisions =>
      match decisions !! sub_Name subscription with
      | Some d =>
          do r <- findManifestWork subscription (HomeCluster d) MWTypeVRG;
          match r with
          | Err e => ret (false, Some e)
          | Ok (Some mw) => ret (true, None)
          | Ok None => ret (false, None)
          end
      | None => ret (false, None)
      end
  end.

Definition filterClusters (placementRule : PlacementRule)
    (clmap : gmap string ManagedCluster) : option error :=
  if decide (size clmap = 0%nat) then Some (Failure "no clusters found for placementRule")
  else None.

Definition getManagedClustersUsingPlacementRule (placementRule : PlacementRule)
    (maxClusterCount : nat) : M (Result (gmap string ManagedCluster)) :=
  let requiredClusterReplicas := 1 in
  do r <- Utils_PlaceByGenericPlacmentFields placementRule;
  match r with
  | Err e => ret (Err (Failure "failed to get cluster map for placement"))
  | Ok clmap =>
      if match plr_ClusterReplicas placementRule with
         | Some replicas => bool_decide (replicas <> requiredClusterReplicas)
         | None => false
         end
      then ret (Err (Failure "Required cluster replicas mismatch"))
      else
        match filterClusters placementRule clmap with
        | Some e => ret (Err (Failure "failed to filter clusters"))
        | None =>
            if decide (size clmap <> maxClusterCount)
            then ret (Err (Failure "PlacementRule should have made 2 decisions"))
            else ret (Ok clmap)
        end
  end.

(** [for _, c := range clmap { clusters[idx] = *c; idx++ }]; [None] is
    the panic of an index past the end of [clusters]. *)
Fixpoint fillClusters (clusters : list ManagedCluster) (idx : nat)
    (order : list (string * ManagedCluster)) : option (list ManagedCluster) :=
  match order with
  | [] => Some clusters
  | (_, c) :: rest =>
      if decide (idx < length clusters)%nat
      then fillClusters (<[idx := c]> clusters) (S idx) rest
      else None
  end.

(** [subStatuses[name] != nil] *)
Definition hasStatus (subStatuses : gmap string (option string)) (name : string) : bool :=
  match subStatuses !! name with
  | Some (Some _) => true
  | _ => false
  end.

Definition extractHomeClusterAndPeerCluster (subscription : Subscription)
    (placementRule : PlacementRule) : M (Result (string * string)) :=
  match sub_Statuses subscription with
  | None => ret (Err (Failure "invalid subscription Status.Statuses"))
  | Some subStatuses =>
      let maxClusterCount := 2%nat in
      do r <- getManagedClustersUsingPlacementRule placementRule maxClusterCount;
      match r with
      | Err e => ret (Err e)
      | Ok clmap =>
          match fillClusters (replicate maxClusterCount (mkManagedCluster ""))
                             0 (rangeOrder env clmap) with
          | None => ret (Err Panic)
          | Some clusters =>
              match clusters !! 0%nat, clusters !! 1%nat with
              | Some d1, Some d2 =>
                  if hasStatus subStatuses (mc_Name d1)
                  then ret (Ok (mc_Name d1, mc_Name d2))
                  else if hasStatus subStatuses (mc_Name d2)
                  then ret (Ok (mc_Name d2, mc_Name d1))
                  else ret (Err (Failure "mismatch between placementRule decisions and subscription statuses"))
              | _, _ => ret (Err Panic)
              end
          end
      end
  end.

(** The assignment [plRef.Namespace = subscription.Namespace] also
    changes the subscription in memory; nothing reads it afterwards. *)
Definition selectPlacementDecision (subscription : Subscription)
  : M (Result (string * string)) :=
  if bool_decide (sub_Phase subscription <> SubscriptionPropagated) ||
     bool_decide (sub_Statuses subscription = None)
  then ret (Err (Failure "subscription not ready"))
  else
    match sub_Placement subscription with
    | None => ret (Err (Failure "placement not set for subscription"))
    | Some pl =>
        match pl_PlacementRef pl with
        | None => ret (Err (Failure "placement not set for subscription"))
        | Some plRef =>
            let plRefNamespace :=
              if decide (ref_Namespace plRef = "") then sub_Namespace subscription
              else ref_Namespace plRef in
            do r <- Client_Get_PlacementRule (plRefNamespace, ref_Name plRef);
            match r with
            | Err e => ret (Err (Failure "failed to retrieve placementRule using placementRef"))
            | Ok placementRule =>
                extractHomeClusterAndPeerCluster subscription placementRule
            end
        end
    end.

Definition processUnpausedSubscription (avr : ApplicationVolumeReplication)
    (subscription : Subscription) : M (Result SubscriptionPlacementDecision) :=
  do r <- selectPlacementDecision subscription;
  match r with
  | Err e => ret (Err e)
  | Ok (homeCluster, peerCluster) =>
      do e <- createOrUpdateVRGRolesManifestWork homeCluster;
      match e with
      | Some e => ret (Err e)
      | None =>
          do e <- createOrUpdateVRGManifestWork (sub_Name subscription)
                    (sub_Namespace subscription) homeCluster
                    (avr_S3Endpoint avr) (avr_S3SecretName avr);
          match e with
          | Some e => ret (Err e)
          | None => ret (Ok (mkDecision homeCluster peerCluster))
          end
      end
  end.

(** The result is (placement decision or nil, requeue). *)
Definition processSubscription (avr : ApplicationVolumeReplication)
    (subscription : Subscription) : M (option SubscriptionPlacementDecision * bool) :=
  let requeue := true in
  if isSubsriptionPausedForDR (sub_Labels subscription) then
    do r <- processPausedSubscription avr subscription;
    match r with
    | Err e => ret (None, requeue)
    | Ok (newHomeCluster, pvMW) =>
        do wait <- waitForManifest subscription newHomeCluster pvMW;
        if wait then ret (None, requeue)
        else
          do '(e, _) <- unpauseSubscription subscription;
          match e with
          | Some _ => ret (None, requeue)
          | None => ret (None, requeue)
          end
    end
  else
    do '(exists_, e) <- vrgManifestWorkAlreadyExists avr subscription;
    match e with
    | Some _ => ret (None, requeue)
    | None =>
        if exists_ then ret (None, negb requeue)
        else
          do r <- processUnpausedSubscription avr subscription;
          match r with
          | Err e => ret (None, requeue)
          | Ok placementDecision => ret (Some placementDecision, negb requeue)
          end
    end.

(** The test at the head of the loop of processSubscriptions. *)
Definition isLocalSubscription (subscription : Subscription) : bool :=
  bool_decide (sub_Phase subscription = SubscriptionSubscribed) ||
  match sub_Placement subscription with
  | Some pl => match pl_Local pl with Some l => l | None => false end
  | None => false
  end.

(** The loop of processSubscriptions on the pair
    [(placementDecisions, requeue)]. *)
Fixpoint processSubscriptionsFrom (avr : ApplicationVolumeReplication)
    (items : list Subscription)
    (acc : gmap string SubscriptionPlacementDecision * bool)
  : M (gmap string SubscriptionPlacementDecision * bool) :=
  match items with
  | [] => ret acc
  | subscription :: rest =>
      if isLocalSubscription subscription then processSubscriptionsFrom avr rest acc
      else
        do '(placementDecision, needRequeue) <- processSubscription avr subscription;
        if needRequeue then processSubscriptionsFrom avr rest (acc.1, true)
        else
          match placementDecision with
          | Some d => processSubscriptionsFrom avr rest (<[sub_Name subscription := d]> acc.1, acc.2)
          | None => processSubscriptionsFrom avr rest acc
          end
  end.

Definition processSubscriptions (avr : ApplicationVolumeReplication)
    (subscriptionList : list Subscription)
  : M (gmap string SubscriptionPlacementDecision * bool) :=
  processSubscriptionsFrom avr subscriptionList (∅, false).

(** updateAVRStatus assigns [avr.Status] before the call; the result
    carries the object as it is in memory afterwards. *)
Definition updateAVRStatus (avr : ApplicationVolumeReplication)
    (placementDecisions : gmap string SubscriptionPlacementDecision)
  : M (option error * ApplicationVolumeReplication) :=
  let avr := setDecisions avr (Some placementDecisions) in
  do e <- Client_Status_Update avr;
  match e with
  | Some _ => ret (Some (Failure "failed to update AVR status"), avr)
  | None => ret (None, avr)
  end.

Definition Reconcile (req : string * string) : M (ctrlResult * option error) :=
  do r <- Client_Get_AVR req;
  match r with
  | Err e =>
      if IsNotFound e then ret (mkResult false, None)
      else ret (mkResult false, Some (Failure "failed to get AVR object"))
  | Ok avr =>
      do l <- Client_List_Subscriptions (avr_Namespace avr);
      match l with
      | Err e =>
          if negb (IsNotFound e) then ret (mkResult true, None)
          else ret (mkResult false, Some (Failure "failed to list subscriptions"))
      | Ok subscriptionList =>
          do '(placementDecisions, requeue) <- processSubscriptions avr subscriptionList;
          if decide (size placementDecisions = 0%nat) then ret (mkResult requeue, None)
          else
            do '(e, _) <- updateAVRStatus avr placementDecisions;
            match e with
            | Some _ => ret (mkResult true, None)
            | None => ret (mkResult requeue, None)
            end
      end
  end.

End Controller.

(** ** Words of the specification of the condition evaluator

    The specification speaks of timestamps that are ordered and compared
    as one kind of value: the instants. *)

(** The instant of the last transition of a condition. *)
Definition condInstant (c : Condition) : Z := instant (cond_LastTransitionTime c).

(** [T] is the maximum timestamp present in the list. *)
Definition isMaxTimestamp (T : Z) (conditions : list Condition) : Prop :=
  (exists c, c ∈ conditions /\ condInstant c = T) /\
  (forall c, c ∈ conditions -> condInstant c <= T).

(** The list holds a condition of type [type] with status true at
    timestamp [T]. *)
Definition trueAt (type : string) (T : Z) (conditions : list Condition) : Prop :=
  exists c, c ∈ conditions /\ condInstant c = T /\
            cond_Type c = type /\ cond_Status c = ConditionTrue.



(** Timestamps never increase along the slice sorted by [moreRecent]. *)
Definition descending (conditions : list Condition) : Prop :=
  StronglySorted (fun a b => condInstant b <= condInstant a) conditions.

(** Conditions of one instant carry timestamps that are [==]: one
    location for each instant of the list, as when every timestamp of the
    list is in the same location. *)
Definition tiesIdentical (conditions : list Condition) : Prop :=
  forall c d, c ∈ conditions -> d ∈ conditions -> condInstant c = condInstant d ->
              cond_LastTransitionTime c = cond_LastTransitionTime d.

(** The list holds a condition of type [type] with status true. *)
Definition holdsTrue (type : string) (conditions : list Condition) : Prop :=
  exists c, c ∈ conditions /\ cond_Type c = type /\ cond_Status c = ConditionTrue.

#[global] Instance holdsTrue_dec type conditions : Decision (holdsTrue type conditions).
Proof.
  refine (cast_if (decide (Exists (fun c => cond_Type c = type /\
                                            cond_Status c = ConditionTrue) conditions)));
    unfold holdsTrue; rewrite Exists_exists in *; done.
Defined.

(** ** Words of the specification of the pass over the subscriptions *)

(** The outcome of one subscription in one pass. *)
Inductive Outcome :=
| Skip
| RequeueOutcome
| Decided (d : SubscriptionPlacementDecision).

#[global] Instance Outcome_eq_dec : EqDecision Outcome.
Proof. solve_decision. Defined.

Definition isRequeue (o : Outcome) : bool :=
  match o with RequeueOutcome => true | _ => false end.

(** The outcome read off the pair processSubscription returns. *)
Definition outcomeOf (r : option SubscriptionPlacementDecision * bool) : Outcome :=
  if r.2 then RequeueOutcome
  else match r.1 with Some d => Decided d | None => Skip end.

(** Every subscription of the list is classified and dispatched in turn,
    whatever the outcomes of those before it: a local subscription is
    skipped, any other is handed to processSubscription. *)
Fixpoint passOutcomes (env : Env) (avr : ApplicationVolumeReplication)
    (items : list Subscription) : M (list (string * Outcome)) :=
  match items with
  | [] => ret []
  | subscription :: rest =>
      do o <- (if isLocalSubscription subscription then ret Skip
               else do r <- processSubscription env avr subscription; ret (outcomeOf r));
      do os <- passOutcomes env avr rest;
      ret ((sub_Name subscription, o) :: os)
  end.

(** The decision outcomes folded into a map, later entries over
    earlier ones of the same name. *)
Definition foldDecisions (os : list (string * Outcome))
    (acc : gmap string SubscriptionPlacementDecision)
  : gmap string SubscriptionPlacementDecision :=
  fold_left (fun m no => match no.2 with Decided d => <[no.1 := d]> m | _ => m end) os acc.

(** A step that writes no status of the DR intent: the stored intents
    are the same and no status update is among the calls issued. *)
Definition keepsStatus (w w' : World) : Prop :=
  avrs w' = avrs w /\
  exists cs, trace w' = trace w ++ cs /\ filter isStatusWrite cs = [].

Definition Frame {A} (m : M A) : Prop := forall w, keepsStatus w (m w).2.

(** ** Scenarios *)

(** An environment whose placement library resolves every rule to the
    clusters east and west, whose S3 store holds [pvs] for every bucket,
    and whose calls fail where [faults] says. *)
Definition envOf (faults : nat -> bool) (pvs : list PersistentVolume) : Env :=
  mkEnv faults
        (fun _ => Ok {["east" := mkManagedCluster "east"; "west" := mkManagedCluster "west"]})
        map_to_list (fun m => reflexivity (map_to_list m))
        (fun _ _ _ _ => Ok pvs)
        (fun _ => Ok "{}")
        (fun namespace name => namespace +:+ "-" +:+ name).

Definition noFault : nat -> bool := fun _ => false.
Definition faultAt (n : nat) : nat -> bool := fun i => bool_decide (i = n).

Definition placementOf (rule : string) : option Placement :=
  Some (mkPlacement None (Some (mkObjectReference rule ""))).

(** A hub subscription deployed on the clusters of [statuses]. *)
Definition subOn (name : string) (statuses : gmap string (option string)) : Subscription :=
  mkSubscription name "ns" None (placementOf "rule") SubscriptionPropagated (Some statuses).

Definition subEast : Subscription := subOn "app1" {["east" := Some "ok"]}.
Definition subBoth : Subscription :=
  subOn "app1" {["east" := Some "ok"; "west" := Some "ok"]}.

Definition ruleOnePerPair : PlacementRule := mkPlacementRule "rule" "ns" (Some 1).
Definition ruleTwoReplicas : PlacementRule := mkPlacementRule "rule" "ns" (Some 2).

(** A subscription protected and paused, and the intent that names west
    as its failover cluster. *)
Definition subPaused : Subscription :=
  mkSubscription "app1" "ns"
    (Some {["ramendr" := "protected"; "subscription-pause" := "true"; "app" := "busybox"]})
    (placementOf "rule") SubscriptionPropagated (Some {["east" := Some "ok"]}).

Definition avrWest : ApplicationVolumeReplication :=
  mkAVR "avr" "ns" {["app1" := "west"]} "s3.example" "secret" None.

Definition worldOf (subs : list Subscription) (works : list ManifestWork) : World :=
  mkWorld {[("ns", "avr") := avrWest]}
          (list_to_map (map (fun s => (subKey s, s)) subs))
          {[("ns", "rule") := ruleOnePerPair]}
          (list_to_map (map (fun mw => (mwKey mw, mw)) works))
          [].

(** The restore bundle of app1 on west, not applied yet. *)
Definition pvWorkPending : ManifestWork :=
  mkManifestWork "app1-ns-pv-mw" "west" {["app" := "PV"]} (mkManifestWorkSpec ["{}"]) [].

(** A bundle to converge on east. *)
Definition workEast : ManifestWork :=
  mkManifestWork "app1-ns-vrg-mw" "east" {["app" := "VRG"]} (mkManifestWorkSpec ["{}"]) [].

(** Three hub subscriptions; the first takes six calls of a pass, so
    that the placement rule of the second cannot be read when the seventh
    call fails. *)
Definition threeSubs : list Subscription :=
  [subOn "app1" {["east" := Some "ok"]};
   subOn "app2" {["east" := Some "ok"]};
   subOn "app3" {["west" := Some "ok"]}].

(** ** Scenarios of the condition evaluator

    The two lists of the condition tie-break of the specification, and a
    list whose older condition comes first. *)

Definition mwOfConditions (conditions : list Condition) : ManifestWork :=
  mkManifestWork "app1-ns-pv-mw" "west" {["app" := "PV"]} (mkManifestWorkSpec ["pv1"])
                 conditions.

(** A timestamp in the location of the server, and the same instant in
    another location. *)
Definition atServer (seconds : Z) : Time := mkTime seconds 0.
Definition elsewhere (seconds : Z) : Time := mkTime seconds 1.

Definition conditionsTie : list Condition :=
  [mkCondition "Applied" "True" (atServer 5); mkCondition "Degraded" "True" (atServer 5)].

Definition conditionsOlderDegraded : list Condition :=
  [mkCondition "Applied" "True" (atServer 5); mkCondition "Degraded" "True" (atServer 3)].

Definition conditionsOlderFirst : list Condition :=
  [mkCondition "Degraded" "True" (atServer 3); mkCondition "Applied" "True" (atServer 5)].

(** The tie of [conditionsTie] with the Degraded condition reported in
    another location. *)
Definition conditionsTieTwoZones : list Condition :=
  [mkCondition "Applied" "True" (atServer 5); mkCondition "Degraded" "True" (elsewhere 5)].

(** ** Further kinds of calls, and what a step leaves of the server *)

Definition isGet (c : Call) : bool :=
  match c with GetManifestWork _ _ => true | _ => false end.
Definition isDelete (c : Call) : bool :=
  match c with DeleteManifestWork _ => true | _ => false end.
Definition isDownload (c : Call) : bool :=
  match c with DownloadPVs _ _ _ _ => true | _ => false end.
Definition isPlace (c : Call) : bool :=
  match c with PlaceClusters _ => true | _ => false end.

(** The stored objects are the same in the two worlds; the trace may
    have grown. *)
Definition sameStore (w w' : World) : Prop :=
  avrs w' = avrs w /\ subscriptions w' = subscriptions w /\
  placementRules w' = placementRules w /\ manifestWorks w' = manifestWorks w.

(** The order of the calls of a failover pass: reads and deletions of
    work bundles, then the restore (a download followed by reads, creates
    and updates of work bundles), then lookups of the wait step, then at
    most one update of the subscription. *)
Definition failoverOrder (cs : list Call) : Prop :=
  exists dels restore waits unpause,
    cs = dels ++ restore ++ waits ++ unpause /\
    forallb (fun c => isGet c || isDelete c) dels = true /\
    (restore = [] \/
     exists d rest, restore = d :: rest /\ isDownload d = true /\
       forallb (fun c => isGet c || isCreate c || isUpdate c) rest = true) /\
    forallb isGet waits = true /\
    (unpause = [] \/ exists s, unpause = [UpdateSubscription s]).

(** A string with its ASCII capitals in lower case. *)
Fixpoint toLower (s : string) : string :=
  match s with
  | EmptyString => EmptyString
  | String a s' => String (foldAscii a) (toLower s')
  end.

(** ** Further scenarios *)

(** The bundle of [workEast] as an earlier version left it: another
    payload, another label, and a condition reported by the cluster. *)
Definition workEastStale : ManifestWork :=
  mkManifestWork "app1-ns-vrg-mw" "east" {["app" := "old"]} (mkManifestWorkSpec ["{old}"])
                 [mkCondition "Applied" "True" (atServer 7)].

(** An environment like [envOf] whose serialiser rejects the volume
    named bad. *)
Definition envRejecting (faults : nat -> bool) (pvs : list PersistentVolume) : Env :=
  mkEnv faults
        (fun _ => Ok {["east" := mkManagedCluster "east"; "west" := mkManagedCluster "west"]})
        map_to_list (fun m => reflexivity (map_to_list m))
        (fun _ _ _ _ => Ok pvs)
        (fun o => match o with
                  | PV pv => if decide (pv = "bad") then Err (Failure "unsupported value")
                             else Ok ("{" +:+ pv +:+ "}")
                  | _ => Ok "{}"
                  end)
        (fun namespace name => namespace +:+ "-" +:+ name).

(** A step all of whose calls are of the kind [P]. *)
Definition Calls {A} (P : Call -> bool) (m : M A) : Prop :=
  forall w, exists cs, trace (m w).2 = trace w ++ cs /\ forallb P cs = true.

(** The intent of [avrWest] with a decision recorded for app1, and a
    world that stores it. *)
Definition avrDecided : ApplicationVolumeReplication :=
  mkAVR "avr" "ns" {["app1" := "west"]} "s3.example" "secret"
        (Some {["app1" := mkDecision "east" "west"]}).

Definition worldWith (avr : ApplicationVolumeReplication) (subs : list Subscription)
    (works : list ManifestWork) : World :=
  mkWorld {[avrKey avr := avr]}
          (list_to_map (map (fun s => (subKey s, s)) subs))
          {[("ns", "rule") := ruleOnePerPair]}
          (list_to_map (map (fun mw => (mwKey mw, mw)) works))
          [].

(** app1, converged on east, and app3, deployed on west and new. *)
Definition subsOneNew : list Subscription :=
  [subOn "app1" {["east" := Some "ok"]}; subOn "app3" {["west" := Some "ok"]}].

(** A child subscription on a managed cluster, and a local one. *)
Definition subChild : Subscription :=
  mkSubscription "app1" "ns" None (placementOf "rule") SubscriptionSubscribed None.
Definition subLocal : Subscription :=
  mkSubscription "app2" "ns" None (Some (mkPlacement (Some true) None))
                 SubscriptionPropagated None.

(** An intent that names no failover cluster. *)
Definition avrNoTarget : ApplicationVolumeReplication :=
  mkAVR "avr" "ns" ∅ "s3.example" "secret" None.

(** * Proofs *)

(** ** sort.Slice returns an ordered permutation *)

Section Sort.
Context {A : Type} (less : A -> A -> bool).
Hypothesis less_asym : forall x y, less x y = true -> less y x = false.
Hypothesis less_negtrans :
  forall x y z, less x y = false -> less y z = false -> less x z = false.

Lemma insertLeft_perm x r : insertLeft less x r ≡ₚ x :: r.
Proof.
  induction r as [|y r IH]; simpl; [done|].
  destruct (less x y); [|done].
  rewrite IH. apply Permutation_swap.
Qed.

Lemma fold_insertLeft_perm s r :
  fold_left (fun rprefix x => insertLeft less x rprefix) s r ≡ₚ s ++ r.
Proof.
  revert r. induction s as [|x s IH]; intros r; simpl; [done|].
  rewrite IH, insertLeft_perm. by rewrite Permutation_middle.
Qed.

Lemma sortSlice_perm s : sortSlice less s ≡ₚ s.
Proof.
  unfold sortSlice. rewrite <- Permutation_rev, fold_insertLeft_perm.
  by rewrite app_nil_r.
Qed.

(** The reversed prefix is ordered when no element is [less] than one
    that follows it in the list, that is, precedes it in the slice. *)
Lemma insertLeft_sorted x r :
  StronglySorted (fun a b => less a b = false) r ->
  StronglySorted (fun a b => less a b = false) (insertLeft less x r).
Proof.
  induction r as [|y r IH]; intros Hs; simpl.
  - repeat constructor.
  - apply StronglySorted_cons in Hs as [Hy Hr].
    destruct (less x y) eqn:Hxy.
    + apply StronglySorted_cons. split; [|by apply IH].
      rewrite insertLeft_perm. constructor; [by apply less_asym|done].
    + apply StronglySorted_cons. split; [|by apply StronglySorted_cons].
      constructor; [done|].
      eapply Forall_impl; [exact Hy|]. intros z Hz. by eapply less_negtrans.
Qed.

Lemma fold_insertLeft_sorted s r :
  StronglySorted (fun a b => less a b = false) r ->
  StronglySorted (fun a b => less a b = false)
    (fold_left (fun rprefix x => insertLeft less x rprefix) s r).
Proof.
  revert r. induction s as [|x s IH]; intros r Hr; simpl; [done|].
  apply IH. by apply insertLeft_sorted.
Qed.

Lemma StronglySorted_rev_flip (R : A -> A -> Prop) l :
  StronglySorted R l -> StronglySorted (fun a b => R b a) (rev l).
Proof.
  induction l as [|x l IH]; intros Hs; simpl; [constructor|].
  apply StronglySorted_cons in Hs as [Hx Hl].
  apply StronglySorted_app_2; [|by apply IH|repeat constructor].
  intros a b Ha Hb. apply list_elem_of_singleton in Hb as ->.
  rewrite Forall_forall in Hx. apply Hx.
  apply list_elem_of_In. apply in_rev. by apply list_elem_of_In.
Qed.

(** In the sorted slice no element is [less] than one before it. *)
Lemma sortSlice_sorted s :
  StronglySorted (fun a b => less b a = false) (sortSlice less s).
Proof.
  unfold sortSlice. apply (StronglySorted_rev_flip (fun a b => less a b = false)).
  apply fold_insertLeft_sorted. constructor.
Qed.

End Sort.

Lemma StronglySorted_weaken {A} (R S : A -> A -> Prop) l :
  (forall a b, R a b -> S a b) -> StronglySorted R l -> StronglySorted S l.
Proof.
  intros HRS. induction 1 as [|x l Hl IH Hx]; constructor; [done|].
  eapply Forall_impl; [exact Hx|]. intros y. apply HRS.
Qed.

Lemma moreRecent_asym x y : moreRecent x y = true -> moreRecent y x = false.
Proof.
  unfold moreRecent, Before. rewrite bool_decide_eq_true, bool_decide_eq_false. lia.
Qed.

Lemma moreRecent_negtrans x y z :
  moreRecent x y = false -> moreRecent y z = false -> moreRecent x z = false.
Proof.
  unfold moreRecent, Before. rewrite !bool_decide_eq_false. lia.
Qed.

Lemma sortSlice_descending conditions : descending (sortSlice moreRecent conditions).
Proof.
  unfold descending.
  eapply StronglySorted_weaken;
    [|apply (sortSlice_sorted moreRecent moreRecent_asym moreRecent_negtrans)].
  intros a b. unfold moreRecent, Before, condInstant. rewrite bool_decide_eq_false. lia.
Qed.

(** ** A slice already ordered is left as it is *)




(** ** The condition evaluator *)

Lemma filter_none {A} (P : A -> Prop) `{forall x, Decision (P x)} (l : list A) :
  Forall (fun x => ~ P x) l -> filter P l = [].
Proof.
  induction 1 as [|x l Hx Hl IH]; [done|]. by rewrite filter_cons_False.
Qed.

(** The loop returns a prefix of the slice: the conditions before the
    first whose timestamp is not [==] to the one given. *)
Lemma keepMostRecent_prefix T conditions :
  exists rest,
    conditions = keepMostRecent T conditions ++ rest /\
    Forall (fun c => cond_LastTransitionTime c = T) (keepMostRecent T conditions) /\
    (forall c, head rest = Some c -> cond_LastTransitionTime c <> T).
Proof.
  induction conditions as [|c l (rest & Hl & Hall & Hrest)]; cbn [keepMostRecent].
  - exists []. by split_and!.
  - destruct (decide (cond_LastTransitionTime c = T)) as [Heq|Hne].
    + exists rest. split_and!; [by rewrite <- app_comm_cons, <- Hl|by constructor|done].
    + exists (c :: l). split_and!; [done|constructor|by intros ? [= <-]].
Qed.

(** On a descending slice whose conditions at the instant of [T] all
    carry [T] itself, the loop returns the conditions at that instant. *)
Lemma keepMostRecent_filter T conditions :
  descending conditions ->
  Forall (fun c => condInstant c <= instant T) conditions ->
  (forall c, c ∈ conditions -> condInstant c = instant T -> cond_LastTransitionTime c = T) ->
  keepMostRecent T conditions = filter (fun c => condInstant c = instant T) conditions.
Proof.
  induction conditions as [|c rest IH]; intros Hs Hle Hsame; simpl; [done|].
  apply StronglySorted_cons in Hs as [Hc Hrest].
  apply Forall_cons in Hle as [HcT HrestT].
  rewrite filter_cons. destruct (decide (cond_LastTransitionTime c = T)) as [Heq|Hne].
  - rewrite decide_True by (unfold condInstant; by rewrite Heq).
    f_equal. apply IH; [done|done|]. intros d Hd. apply Hsame. by right.
  - assert (condInstant c <> instant T) as Hlt.
    { intros Hi. apply Hne, Hsame; [left|done]. }
    rewrite decide_False by done. symmetry. apply filter_none.
    eapply Forall_impl; [exact Hc|]. simpl. intros d Hd. lia.
Qed.

Lemma filterByConditionStatus_from filtered conditions status :
  fold_left (fun filtered condition =>
               if decide (cond_Status condition = status)
               then filtered ++ [condition] else filtered)
            conditions filtered =
  filtered ++ filter (fun c => cond_Status c = status) conditions.
Proof.
  revert filtered. induction conditions as [|c rest IH]; intros filtered; simpl.
  - by rewrite app_nil_r.
  - rewrite IH, filter_cons. destruct (decide (cond_Status c = status)); [|done].
    by rewrite <- app_assoc.
Qed.

Lemma filterByConditionStatus_filter conditions status :
  filterByConditionStatus conditions status =
  filter (fun c => cond_Status c = status) conditions.
Proof. apply (filterByConditionStatus_from []). Qed.

(** What the scan of the recent conditions leaves in the two flags. *)
Lemma markCondition_flags conditions applied degraded :
  fold_left markCondition conditions (applied, degraded) =
  (applied || bool_decide (Exists (fun c => cond_Type c = WorkApplied) conditions),
   degraded || bool_decide (Exists (fun c => cond_Type c = WorkDegraded) conditions)).
Proof.
  revert applied degraded.
  induction conditions as [|c rest IH]; intros applied degraded.
  - cbn [fold_left].
    rewrite !bool_decide_eq_false_2 by (by inversion 1).
    by rewrite !orb_false_r.
  - cbn [fold_left]. unfold markCondition at 2. cbn [fst snd].
    destruct (decide (cond_Type c = WorkApplied)) as [Ha|Ha];
      [|destruct (decide (cond_Type c = WorkDegraded)) as [Hd|Hd]];
      rewrite IH; f_equal.
    + rewrite (bool_decide_eq_true_2 (Exists _ (c :: rest))) by (by left).
      by rewrite orb_true_r.
    + f_equal. apply bool_decide_ext. rewrite Exists_cons.
      split; [by right|intros [H|H]; [rewrite Ha in H; discriminate H|exact H]].
    + f_equal. apply bool_decide_ext. rewrite Exists_cons. split; [by right|intros [H|H]; [congruence|exact H]].
    + rewrite (bool_decide_eq_true_2 (Exists _ (c :: rest))) by (by left).
      by rewrite orb_true_r.
    + f_equal. apply bool_decide_ext. rewrite Exists_cons. split; [by right|intros [H|H]; [congruence|exact H]].
    + f_equal. apply bool_decide_ext. rewrite Exists_cons. split; [by right|intros [H|H]; [congruence|exact H]].
Qed.

(** The head of a descending list carries its maximum timestamp. *)
Lemma descending_head_max c rest :
  descending (c :: rest) -> isMaxTimestamp (condInstant c) (c :: rest).
Proof.
  intros Hs. apply StronglySorted_cons in Hs as [Hc _]. split.
  - exists c. split; [left|done].
  - intros d Hd. apply elem_of_cons in Hd as [->|Hd]; [lia|].
    rewrite Forall_forall in Hc. by apply Hc.
Qed.

Lemma isMaxTimestamp_unique T T' conditions :
  isMaxTimestamp T conditions -> isMaxTimestamp T' conditions -> T = T'.
Proof.
  intros [(c & Hc & <-) Hle] [(c' & Hc' & <-) Hle'].
  apply Hle' in Hc. apply Hle in Hc'. lia.
Qed.

Lemma isMaxTimestamp_perm T l l' :
  l ≡ₚ l' -> isMaxTimestamp T l -> isMaxTimestamp T l'.
Proof.
  intros Hp [(c & Hc & HT) Hle]. split.
  - exists c. by rewrite <- Hp.
  - intros d Hd. apply Hle. by rewrite Hp.
Qed.

Lemma trueAt_perm type T l l' : l ≡ₚ l' -> trueAt type T l -> trueAt type T l'.
Proof. intros Hp (c & Hc & H). exists c. by rewrite <- Hp. Qed.

Lemma tiesIdentical_perm l l' : l ≡ₚ l' -> tiesIdentical l -> tiesIdentical l'.
Proof. intros Hp Hl c d Hc Hd. apply Hl; by rewrite Hp. Qed.

Lemma Exists_holdsTrue type conditions :
  Exists (fun c => cond_Type c = type)
         (filter (fun c => cond_Status c = ConditionTrue) conditions) <->
  holdsTrue type conditions.
Proof.
  rewrite Exists_exists. unfold holdsTrue. split.
  - intros (c & Hc & Ht). exists c. by apply list_elem_of_filter in Hc as [Hs Hc].
  - intros (c & Hc & Ht & Hs). exists c. split; [|done]. by apply list_elem_of_filter.
Qed.

Lemma holdsTrue_filter type T conditions :
  holdsTrue type (filter (fun c => condInstant c = T) conditions) <->
  trueAt type T conditions.
Proof.
  unfold holdsTrue, trueAt. split.
  - intros (c & Hc & H). exists c. by apply list_elem_of_filter in Hc as [HT Hc].
  - intros (c & Hc & HT & H). exists c. split; [|done]. by apply list_elem_of_filter.
Qed.

Lemma sortSlice_nonempty (conditions : list Condition) :
  conditions <> [] ->
  exists c0 rest, sortSlice moreRecent conditions = c0 :: rest.
Proof.
  intros Hne. destruct (sortSlice moreRecent conditions) as [|c0 rest] eqn:Hs; [|eauto].
  pose proof (sortSlice_perm moreRecent conditions) as Hp. rewrite Hs in Hp.
  apply Permutation_nil_l in Hp. done.
Qed.

(** On a non-empty slice [conditions[0]] does not panic. *)
Lemma getMostRecentConditions_nonempty conditions :
  conditions <> [] -> is_Some (getMostRecentConditions conditions).
Proof.
  intros Hne. destruct (sortSlice_nonempty conditions Hne) as (c0 & rest & Hs).
  unfold getMostRecentConditions. rewrite Hs. eauto.
Qed.

(** The evaluator, unfolded on a non-empty list: the slice is left
    sorted, and the answer is read in the run of conditions whose
    timestamp is [==] to that of its head. *)
Lemma IsManifestInAppliedState_unfold mw :
  mw_Conditions mw <> [] ->
  exists c0 rest,
    sortSlice moreRecent (mw_Conditions mw) = c0 :: rest /\
    IsManifestInAppliedState mw =
      (bool_decide (holdsTrue WorkApplied
                      (keepMostRecent (cond_LastTransitionTime c0) (c0 :: rest))) &&
       negb (bool_decide (holdsTrue WorkDegraded
                            (keepMostRecent (cond_LastTransitionTime c0) (c0 :: rest)))),
       setConditions mw (c0 :: rest)).
Proof.
  intros Hne. destruct (sortSlice_nonempty _ Hne) as (c0 & rest & Hs).
  exists c0, rest. split; [done|].
  unfold IsManifestInAppliedState, getMostRecentConditions.
  destruct (decide (0 < length (mw_Conditions mw))%nat) as [_|Hlen];
    [|destruct (mw_Conditions mw); simpl in Hlen; [done|lia]].
  rewrite Hs.
  set (recent := keepMostRecent _ _). clearbody recent.
  rewrite filterByConditionStatus_filter, markCondition_flags. cbn [orb].
  rewrite (bool_decide_ext _ _ (Exists_holdsTrue WorkApplied _)).
  rewrite (bool_decide_ext _ _ (Exists_holdsTrue WorkDegraded _)).
  f_equal. by destruct (bool_decide (holdsTrue WorkDegraded _)),
             (bool_decide (holdsTrue WorkApplied _)).
Qed.

(** The answer of the evaluator at the maximum timestamp [T], when the
    conditions at [T] carry timestamps that are [==]. *)
Lemma IsManifestInAppliedState_at mw T :
  isMaxTimestamp T (mw_Conditions mw) ->
  (forall c d, c ∈ mw_Conditions mw -> d ∈ mw_Conditions mw ->
     condInstant c = T -> condInstant d = T ->
     cond_LastTransitionTime c = cond_LastTransitionTime d) ->
  (IsManifestInAppliedState mw).1 = true <->
  trueAt WorkApplied T (mw_Conditions mw) /\ ~ trueAt WorkDegraded T (mw_Conditions mw).
Proof.
  intros HT Hsame.
  assert (mw_Conditions mw <> []) as Hne.
  { destruct HT as [(c & Hc & _) _]. intros Hnil. rewrite Hnil in Hc.
    by apply elem_of_nil in Hc. }
  destruct (IsManifestInAppliedState_unfold mw Hne) as (c0 & rest & Hs & ->).
  pose proof (sortSlice_perm moreRecent (mw_Conditions mw)) as Hp. rewrite Hs in Hp.
  pose proof (sortSlice_descending (mw_Conditions mw)) as Hd. rewrite Hs in Hd.
  pose proof (descending_head_max _ _ Hd) as Hmax.
  assert (condInstant c0 = T) as H0.
  { eapply isMaxTimestamp_unique; [exact Hmax|]. symmetry in Hp.
    by apply (isMaxTimestamp_perm _ _ _ Hp). }
  rewrite keepMostRecent_filter; [|done|apply Forall_forall, Hmax|].
  2:{ intros c Hc Hi. apply Hsame; [by rewrite <- Hp|rewrite <- Hp; left|
        by rewrite Hi|done]. }
  fold (condInstant c0). rewrite H0.
  cbn [fst]. rewrite andb_true_iff, negb_true_iff, bool_decide_eq_true,
    bool_decide_eq_false, !holdsTrue_filter. split.
  - intros [Ha Hdg]. split; [by apply (trueAt_perm _ _ _ _ Hp)|].
    intros Hdg'. apply Hdg. symmetry in Hp. by apply (trueAt_perm _ _ _ _ Hp).
  - intros [Ha Hdg]. split; [symmetry in Hp; by apply (trueAt_perm _ _ _ _ Hp)|].
    intros Hdg'. apply Hdg. by apply (trueAt_perm _ _ _ _ Hp).
Qed.

Lemma isMaxTimestamp_exists conditions :
  conditions <> [] -> exists T, isMaxTimestamp T conditions.
Proof.
  intros Hne. destruct (sortSlice_nonempty _ Hne) as (c0 & rest & Hs).
  pose proof (sortSlice_perm moreRecent conditions) as Hp. rewrite Hs in Hp.
  pose proof (sortSlice_descending conditions) as Hd. rewrite Hs in Hd.
  exists (condInstant c0). apply (isMaxTimestamp_perm _ _ _ Hp), descending_head_max, Hd.
Qed.

(** The answer of the evaluator in the words of the specification, on a
    list whose ties are identical. *)
Lemma IsManifestInAppliedState_true mw :
  tiesIdentical (mw_Conditions mw) ->
  (IsManifestInAppliedState mw).1 = true <->
  exists T, isMaxTimestamp T (mw_Conditions mw) /\
            trueAt WorkApplied T (mw_Conditions mw) /\
            ~ trueAt WorkDegraded T (mw_Conditions mw).
Proof.
  intros Hties. destruct (decide (mw_Conditions mw = [])) as [Hnil|Hne].
  - unfold IsManifestInAppliedState. rewrite Hnil. simpl. split; [done|].
    intros (T & [(c & Hc & _) _] & _). by apply elem_of_nil in Hc.
  - destruct (isMaxTimestamp_exists _ Hne) as (T & HT).
    rewrite (IsManifestInAppliedState_at mw T HT).
    + split; [intros [Ha Hd]; by exists T|].
      intros (T' & HT' & Ha & Hd).
      by rewrite (isMaxTimestamp_unique _ _ _ HT HT').
    + intros c d Hc Hd Hic Hid. apply Hties; [done|done|congruence].
Qed.

Lemma IsManifestInAppliedState_perm mw mw' :
  tiesIdentical (mw_Conditions mw) ->
  mw_Conditions mw ≡ₚ mw_Conditions mw' ->
  (IsManifestInAppliedState mw').1 = (IsManifestInAppliedState mw).1.
Proof.
  intros Hties Hp.
  assert ((IsManifestInAppliedState mw').1 = true <->
          (IsManifestInAppliedState mw).1 = true) as Hiff.
  { rewrite !IsManifestInAppliedState_true by (done || by apply (tiesIdentical_perm _ _ Hp)).
    split.
    - intros (T & HT & Ha & Hd). exists T. symmetry in Hp. split_and!.
      + by apply (isMaxTimestamp_perm _ _ _ Hp).
      + by apply (trueAt_perm _ _ _ _ Hp).
      + intros Hd'. apply Hd. symmetry in Hp. by apply (trueAt_perm _ _ _ _ Hp).
    - intros (T & HT & Ha & Hd). exists T. split_and!.
      + by apply (isMaxTimestamp_perm _ _ _ Hp).
      + by apply (trueAt_perm _ _ _ _ Hp).
      + intros Hd'. apply Hd. symmetry in Hp. by apply (trueAt_perm _ _ _ _ Hp). }
  destruct (IsManifestInAppliedState mw').1, (IsManifestInAppliedState mw).1;
    try done; [symmetry|]; by apply Hiff.
Qed.




(** C1: the applied-state evaluator on a tie of one instant reported in
    two locations.  The maximum timestamp of the list is 5 and a condition
    of type Degraded with status true stands at it, yet the answer is
    true: the conditions are ordered by [Before], which compares
    instants, and kept by [==], which tells the two locations apart.  With
    the two conditions in the other order the answer is false. *)
Theorem IsManifestInAppliedState_two_zones :
  isMaxTimestamp 5 conditionsTieTwoZones /\
  trueAt WorkApplied 5 conditionsTieTwoZones /\
  trueAt WorkDegraded 5 conditionsTieTwoZones /\
  (IsManifestInAppliedState (mwOfConditions conditionsTieTwoZones)).1 = true /\
  reverse conditionsTieTwoZones ≡ₚ conditionsTieTwoZones /\
  (IsManifestInAppliedState (mwOfConditions (reverse conditionsTieTwoZones))).1 = false.
Proof.
  split_and!.
  - split.
    + eexists. split; [left|reflexivity].
    + intros c Hc. repeat (apply elem_of_cons in Hc as [->|Hc]; [cbn; lia|]).
      by apply elem_of_nil in Hc.
  - eexists. split; [left|by split_and!].
  - eexists. split; [right; left|by split_and!].
  - vm_compute. reflexivity.
  - apply reverse_Permutation.
  - vm_compute. reflexivity.
Qed.

(** The condition tie-break of the specification. *)
Example IsManifestInAppliedState_tie :
  (IsManifestInAppliedState (mwOfConditions conditionsTie)).1 = false.
Proof. vm_compute. reflexivity. Qed.

Example IsManifestInAppliedState_older_degraded :
  (IsManifestInAppliedState (mwOfConditions conditionsOlderDegraded)).1 = true.
Proof. vm_compute. reflexivity. Qed.


(** ** The calls to the API server, one step each *)

Section Calls.
Context (env : Env).

Lemma bind_run {A B} (m : M A) (k : A -> M B) w :
  bind m k w = k (m w).1 (m w).2.
Proof. unfold bind. by destruct (m w). Qed.

Lemma call_run c w : call env c w = (fault env (length (trace w)), called w c).
Proof. done. Qed.

Lemma Client_Get_ManifestWork_run key w :
  Client_Get_ManifestWork env key w =
  (if fault env (length (trace w)) then Err IOError
   else match manifestWorks w !! key with
        | Some mw => Ok (mwAt key mw)
        | None => Err NotFound
        end,
   called w (GetManifestWork key.1 key.2)).
Proof.
  unfold Client_Get_ManifestWork. rewrite bind_run, call_run. cbn [fst snd].
  destruct (fault env _); [done|].
  rewrite bind_run. cbn. by destruct (manifestWorks w !! key).
Qed.

Lemma Client_Create_ManifestWork_run mw w :
  Client_Create_ManifestWork env mw w =
  if fault env (length (trace w)) then (Some IOError, called w (CreateManifestWork mw))
  else match manifestWorks w !! mwKey mw with
       | Some _ => (Some AlreadyExists, called w (CreateManifestWork mw))
       | None => (None, setManifestWorks (called w (CreateManifestWork mw))
                          (<[mwKey mw := mw]> (manifestWorks w)))
       end.
Proof.
  unfold Client_Create_ManifestWork. rewrite bind_run, call_run. cbn [fst snd].
  destruct (fault env _); [done|].
  rewrite bind_run. cbn. by destruct (manifestWorks w !! mwKey mw).
Qed.

Lemma Client_Update_ManifestWork_run mw w :
  Client_Update_ManifestWork env mw w =
  if fault env (length (trace w)) then (Some IOError, called w (UpdateManifestWork mw))
  else match manifestWorks w !! mwKey mw with
       | None => (Some NotFound, called w (UpdateManifestWork mw))
       | Some _ => (None, setManifestWorks (called w (UpdateManifestWork mw))
                            (<[mwKey mw := mw]> (manifestWorks w)))
       end.
Proof.
  unfold Client_Update_ManifestWork. rewrite bind_run, call_run. cbn [fst snd].
  destruct (fault env _); [done|].
  rewrite bind_run. cbn. by destruct (manifestWorks w !! mwKey mw).
Qed.

Lemma Client_Delete_ManifestWork_run mw w :
  Client_Delete_ManifestWork env mw w =
  if fault env (length (trace w)) then (Some IOError, called w (DeleteManifestWork mw))
  else match manifestWorks w !! mwKey mw with
       | None => (Some NotFound, called w (DeleteManifestWork mw))
       | Some _ => (None, setManifestWorks (called w (DeleteManifestWork mw))
                            (delete (mwKey mw) (manifestWorks w)))
       end.
Proof.
  unfold Client_Delete_ManifestWork. rewrite bind_run, call_run. cbn [fst snd].
  destruct (fault env _); [done|].
  rewrite bind_run. cbn. by destruct (manifestWorks w !! mwKey mw).
Qed.

Lemma Client_Update_Subscription_run sub w :
  Client_Update_Subscription env sub w =
  if fault env (length (trace w)) then (Some IOError, called w (UpdateSubscription sub))
  else match subscriptions w !! subKey sub with
       | None => (Some NotFound, called w (UpdateSubscription sub))
       | Some _ => (None, setSubscriptions (called w (UpdateSubscription sub))
                            (<[subKey sub := sub]> (subscriptions w)))
       end.
Proof.
  unfold Client_Update_Subscription. rewrite bind_run, call_run. cbn [fst snd].
  destruct (fault env _); [done|].
  rewrite bind_run. cbn. by destruct (subscriptions w !! subKey sub).
Qed.

Lemma Client_Status_Update_run avr w :
  Client_Status_Update env avr w =
  if fault env (length (trace w)) then (Some IOError, called w (StatusUpdateAVR avr))
  else match avrs w !! avrKey avr with
       | None => (Some NotFound, called w (StatusUpdateAVR avr))
       | Some stored =>
           (None, setAvrs (called w (StatusUpdateAVR avr))
                    (<[avrKey avr := setDecisions stored (avr_Decisions avr)]> (avrs w)))
       end.
Proof.
  unfold Client_Status_Update. rewrite bind_run, call_run. cbn [fst snd].
  destruct (fault env _); [done|].
  rewrite bind_run. cbn. by destruct (avrs w !! avrKey avr).
Qed.

Lemma Client_Get_AVR_run key w :
  Client_Get_AVR env key w =
  (if fault env (length (trace w)) then Err IOError
   else match avrs w !! key with
        | Some a => Ok (avrAt key a)
        | None => Err NotFound
        end,
   called w (GetAVR key.1 key.2)).
Proof.
  unfold Client_Get_AVR. rewrite bind_run, call_run. cbn [fst snd].
  destruct (fault env _); [done|].
  rewrite bind_run. cbn. by destruct (avrs w !! key).
Qed.

Lemma Client_Get_PlacementRule_run key w :
  Client_Get_PlacementRule env key w =
  (if fault env (length (trace w)) then Err IOError
   else match placementRules w !! key with
        | Some p => Ok (plrAt key p)
        | None => Err NotFound
        end,
   called w (GetPlacementRule key.1 key.2)).
Proof.
  unfold Client_Get_PlacementRule. rewrite bind_run, call_run. cbn [fst snd].
  destruct (fault env _); [done|].
  rewrite bind_run. cbn. by destruct (placementRules w !! key).
Qed.

Lemma Client_List_Subscriptions_run namespace w :
  Client_List_Subscriptions env namespace w =
  (if fault env (length (trace w)) then Err IOError
   else Ok (omap (fun kv => if decide (kv.1.1 = namespace)
                            then Some (subAt kv.1 kv.2) else None)
                 (map_to_list (subscriptions w))),
   called w (ListSubscriptions namespace)).
Proof.
  unfold Client_List_Subscriptions. rewrite bind_run, call_run. cbn [fst snd].
  by destruct (fault env _).
Qed.

Lemma S3_Download_run s3Endpoint s3SecretName callerTag s3Bucket w :
  S3_Download env s3Endpoint s3SecretName callerTag s3Bucket w =
  (if fault env (length (trace w)) then Err IOError
   else S3_DownloadPVs env s3Endpoint s3SecretName callerTag s3Bucket,
   called w (DownloadPVs s3Endpoint s3SecretName callerTag s3Bucket)).
Proof.
  unfold S3_Download. rewrite bind_run, call_run. cbn [fst snd].
  by destruct (fault env _).
Qed.

Lemma Utils_PlaceByGenericPlacmentFields_run placementRule w :
  Utils_PlaceByGenericPlacmentFields env placementRule w =
  (if fault env (length (trace w)) then Err IOError
   else PlaceByGenericPlacmentFields env placementRule,
   called w (PlaceClusters placementRule)).
Proof.
  unfold Utils_PlaceByGenericPlacmentFields. rewrite bind_run, call_run. cbn [fst snd].
  by destruct (fault env _).
Qed.

End Calls.

(** ** Cluster selection *)

Section Selection.
Context (env : Env).

(** The selection is the call of the placement library followed by
    checks that make no call. *)
Lemma getManagedClustersUsingPlacementRule_run placementRule n w :
  getManagedClustersUsingPlacementRule env placementRule n w =
  (match (Utils_PlaceByGenericPlacmentFields env placementRule w).1 with
   | Err e => Err (Failure "failed to get cluster map for placement")
   | Ok clmap =>
       if match plr_ClusterReplicas placementRule with
          | Some replicas => bool_decide (replicas <> 1)
          | None => false
          end
       then Err (Failure "Required cluster replicas mismatch")
       else
         match filterClusters placementRule clmap with
         | Some e => Err (Failure "failed to filter clusters")
         | None =>
             if decide (size clmap <> n)
             then Err (Failure "PlacementRule should have made 2 decisions")
             else Ok clmap
         end
   end,
   called w (PlaceClusters placementRule)).
Proof.
  unfold getManagedClustersUsingPlacementRule. cbn zeta.
  rewrite bind_run, Utils_PlaceByGenericPlacmentFields_run. cbn [fst snd].
  destruct (if fault env _ then _ else _) as [clmap|e]; [|done].
  destruct (plr_ClusterReplicas placementRule) as [replicas|];
    [destruct (bool_decide (replicas <> 1)); [done|]|];
    (destruct (filterClusters placementRule clmap); [done|]; by destruct (decide _)).
Qed.

Lemma getManagedClustersUsingPlacementRule_Ok placementRule n w clmap :
  (getManagedClustersUsingPlacementRule env placementRule n w).1 = Ok clmap ->
  (Utils_PlaceByGenericPlacmentFields env placementRule w).1 = Ok clmap /\
  (plr_ClusterReplicas placementRule = None \/ plr_ClusterReplicas placementRule = Some 1) /\
  size clmap = n.
Proof.
  rewrite getManagedClustersUsingPlacementRule_run. cbn [fst]. unfold filterClusters.
  destruct (Utils_PlaceByGenericPlacmentFields env placementRule w).1 as [m|]; [|done].
  destruct (plr_ClusterReplicas placementRule) as [r|].
  - case_bool_decide as Hr; [done|].
    repeat case_decide; try done. intros [= ->]. split_and!; [done| |lia].
    right. f_equal. lia.
  - repeat case_decide; try done. intros [= ->]. split_and!; [done|by left|lia].
Qed.

(** C6: the cluster selection fails when the rule declares a replica
    count other than 1, when the placement library finds no cluster, and
    when it finds a number of clusters other than 2; then no home and peer
    come out of the extraction either.  With two clusters and a replica
    count of 1, or none declared, it returns the two clusters, and it
    returns clusters in no other case.  Its one call is the call of the
    placement library, whose answer is an error when that call fails. *)
Theorem getManagedClustersUsingPlacementRule_spec
    (placementRule : PlacementRule) (w : World) :
  let placed := (Utils_PlaceByGenericPlacmentFields env placementRule w).1 in
  let r := (getManagedClustersUsingPlacementRule env placementRule 2 w).1 in
  (forall n, plr_ClusterReplicas placementRule = Some n -> n <> 1 -> isErr r = true) /\
  (forall clmap, placed = Ok clmap -> size clmap = 0%nat -> isErr r = true) /\
  (forall clmap, placed = Ok clmap -> size clmap <> 2%nat -> isErr r = true) /\
  (forall clmap, placed = Ok clmap -> size clmap = 2%nat ->
     plr_ClusterReplicas placementRule = None \/ plr_ClusterReplicas placementRule = Some 1 ->
     r = Ok clmap) /\
  (forall clmap, r = Ok clmap ->
     placed = Ok clmap /\
     (plr_ClusterReplicas placementRule = None \/
      plr_ClusterReplicas placementRule = Some 1) /\
     size clmap = 2%nat) /\
  (forall subscription, isErr r = true ->
     isErr (extractHomeClusterAndPeerCluster env subscription placementRule w).1 = true) /\
  (getManagedClustersUsingPlacementRule env placementRule 2 w).2 =
    called w (PlaceClusters placementRule) /\
  placed = (if fault env (length (trace w)) then Err IOError
            else PlaceByGenericPlacmentFields env placementRule).
Proof.
  cbn zeta.
  split_and!; [..|apply getManagedClustersUsingPlacementRule_Ok| | |].
  1-4: rewrite getManagedClustersUsingPlacementRule_run; cbn [fst]; unfold filterClusters.
  - intros n -> Hn.
    destruct (Utils_PlaceByGenericPlacmentFields env placementRule w).1; [|done].
    by rewrite bool_decide_eq_true_2.
  - intros clmap -> Hsize. destruct (plr_ClusterReplicas placementRule); [case_bool_decide|];
      try done; by rewrite decide_True.
  - intros clmap -> Hsize.
    destruct (plr_ClusterReplicas placementRule); [case_bool_decide|]; try done;
      case_decide; try done; by rewrite decide_True.
  - intros clmap -> Hsize [->| ->]; [|rewrite bool_decide_eq_false_2 by (intros H; by apply H)];
      rewrite decide_False by lia; by rewrite decide_False by (intros H; by apply H).
  - intros subscription Herr. unfold extractHomeClusterAndPeerCluster.
    destruct (sub_Statuses subscription); [|done]. cbn zeta. rewrite bind_run.
    by destruct (getManagedClustersUsingPlacementRule env placementRule 2 w).1.
  - by rewrite getManagedClustersUsingPlacementRule_run.
  - by rewrite Utils_PlaceByGenericPlacmentFields_run.
Qed.

End Selection.

Section HomeAndPeer.
Context (env : Env).

(** [range] walks a map of two clusters in one of the two orders. *)
Lemma rangeOrder_pair k1 (c1 : ManagedCluster) k2 c2 :
  k1 <> k2 ->
  rangeOrder env {[k1 := c1; k2 := c2]} = [(k1, c1); (k2, c2)] \/
  rangeOrder env {[k1 := c1; k2 := c2]} = [(k2, c2); (k1, c1)].
Proof.
  intros Hne. apply Permutation_length_2_inv.
  rewrite (rangeOrder_perm env).
  rewrite map_to_list_insert by (by rewrite lookup_singleton_ne).
  by rewrite map_to_list_singleton.
Qed.

(** The extraction makes the calls of the selection and no other. *)
Lemma extractHomeClusterAndPeerCluster_world subscription placementRule w :
  (extractHomeClusterAndPeerCluster env subscription placementRule w).2 =
  match sub_Statuses subscription with
  | None => w
  | Some _ => called w (PlaceClusters placementRule)
  end.
Proof.
  unfold extractHomeClusterAndPeerCluster.
  destruct (sub_Statuses subscription) as [subStatuses|]; [|done]. cbn zeta.
  rewrite bind_run, getManagedClustersUsingPlacementRule_run. cbn [fst snd].
  match goal with |- context [match ?r with Ok _ => _ | Err _ => _ end] =>
    destruct r as [clmap|e] end; [|done].
  destruct (fillClusters _ _ _) as [clusters|]; [|done].
  destruct (clusters !! 0%nat) as [d1|]; [|done].
  destruct (clusters !! 1%nat) as [d2|]; [|done].
  by destruct (hasStatus subStatuses (mc_Name d1)), (hasStatus subStatuses (mc_Name d2)).
Qed.

Lemma extractHomeClusterAndPeerCluster_ordered subscription placementRule w
    subStatuses clmap k1 c1 k2 c2 :
  sub_Statuses subscription = Some subStatuses ->
  (getManagedClustersUsingPlacementRule env placementRule 2 w).1 = Ok clmap ->
  rangeOrder env clmap = [(k1, c1); (k2, c2)] ->
  (extractHomeClusterAndPeerCluster env subscription placementRule w).1 =
    if hasStatus subStatuses (mc_Name c1) then Ok (mc_Name c1, mc_Name c2)
    else if hasStatus subStatuses (mc_Name c2) then Ok (mc_Name c2, mc_Name c1)
    else Err (Failure "mismatch between placementRule decisions and subscription statuses").
Proof.
  intros Hst Hcl Hrange. unfold extractHomeClusterAndPeerCluster.
  rewrite Hst. cbn zeta. rewrite bind_run, Hcl, Hrange. cbn.
  rewrite !decide_True by lia. cbn.
  by destruct (hasStatus subStatuses (mc_Name c1)), (hasStatus subStatuses (mc_Name c2)).
Qed.

(** C2, as the code has it: of the two resolved clusters, the one with
    a status entry is the home cluster and the other the peer when
    exactly one of them has an entry; with no entry for either the
    extraction fails; with an entry for both it does not fail, and takes
    as home the cluster that [range] meets first and as peer the one it
    meets second, [range] walking the two in one order or the other. *)
Theorem extractHomeClusterAndPeerCluster_spec
    (subscription : Subscription) (placementRule : PlacementRule)
    (subStatuses : gmap string (option string))
    (k1 k2 : string) (c1 c2 : ManagedCluster) (w : World) :
  let r := (extractHomeClusterAndPeerCluster env subscription placementRule w).1 in
  let clmap : gmap string ManagedCluster := {[k1 := c1; k2 := c2]} in
  sub_Statuses subscription = Some subStatuses ->
  k1 <> k2 ->
  (getManagedClustersUsingPlacementRule env placementRule 2 w).1 = Ok clmap ->
  (hasStatus subStatuses (mc_Name c1) = true ->
   hasStatus subStatuses (mc_Name c2) = false ->
   r = Ok (mc_Name c1, mc_Name c2)) /\
  (hasStatus subStatuses (mc_Name c1) = false ->
   hasStatus subStatuses (mc_Name c2) = true ->
   r = Ok (mc_Name c2, mc_Name c1)) /\
  (hasStatus subStatuses (mc_Name c1) = false ->
   hasStatus subStatuses (mc_Name c2) = false ->
   isErr r = true) /\
  (hasStatus subStatuses (mc_Name c1) = true ->
   hasStatus subStatuses (mc_Name c2) = true ->
   (rangeOrder env clmap = [(k1, c1); (k2, c2)] -> r = Ok (mc_Name c1, mc_Name c2)) /\
   (rangeOrder env clmap = [(k2, c2); (k1, c1)] -> r = Ok (mc_Name c2, mc_Name c1))) /\
  (rangeOrder env clmap = [(k1, c1); (k2, c2)] \/
   rangeOrder env clmap = [(k2, c2); (k1, c1)]).
Proof.
  cbn zeta. intros Hst Hne Hcl.
  split_and!; [..|by apply rangeOrder_pair].
  1-3: destruct (rangeOrder_pair k1 c1 k2 c2 Hne) as [Hr|Hr];
    rewrite (extractHomeClusterAndPeerCluster_ordered _ _ _ _ _ _ _ _ _ Hst Hcl Hr);
    intros H1 H2; by rewrite ?H1, ?H2.
  intros H1 H2. split; intros Hr;
    rewrite (extractHomeClusterAndPeerCluster_ordered _ _ _ _ _ _ _ _ _ Hst Hcl Hr);
    by rewrite ?H1, ?H2.
Qed.

End HomeAndPeer.

(** ** Work convergence *)

Section Convergence.
Context (env : Env).

Lemma newCalls_app w w' cs : trace w' = trace w ++ cs -> newCalls w w' = cs.
Proof. unfold newCalls. intros ->. by rewrite drop_app_length. Qed.

Lemma createOrUpdateManifestWork_run mw ns w :
  createOrUpdateManifestWork env mw ns w =
  match (Client_Get_ManifestWork env (ns, mw_Name mw) w).1 with
  | Err e =>
      if negb (IsNotFound e)
      then (Some (Failure "failed to fetch ManifestWork"),
            called w (GetManifestWork ns (mw_Name mw)))
      else Client_Create_ManifestWork env mw (called w (GetManifestWork ns (mw_Name mw)))
  | Ok foundMW =>
      if decide (mw_Spec foundMW <> mw_Spec mw)
      then Client_Update_ManifestWork env (setSpec foundMW (mw_Spec mw))
             (called w (GetManifestWork ns (mw_Name mw)))
      else (None, called w (GetManifestWork ns (mw_Name mw)))
  end.
Proof.
  unfold createOrUpdateManifestWork. rewrite bind_run.
  rewrite Client_Get_ManifestWork_run. cbn [fst snd].
  destruct (if fault env _ then _ else _) as [found|e]; [|by destruct (negb _)].
  by destruct (decide _).
Qed.

Lemma trace_called w c : trace (called w c) = trace w ++ [c].
Proof. done. Qed.

Lemma create_trace mw w :
  trace (Client_Create_ManifestWork env mw w).2 = trace w ++ [CreateManifestWork mw].
Proof.
  rewrite Client_Create_ManifestWork_run.
  destruct (fault env _); [done|]. by destruct (manifestWorks w !! _).
Qed.

Lemma update_trace mw w :
  trace (Client_Update_ManifestWork env mw w).2 = trace w ++ [UpdateManifestWork mw].
Proof.
  rewrite Client_Update_ManifestWork_run.
  destruct (fault env _); [done|]. by destruct (manifestWorks w !! _).
Qed.

(** C3: the convergence step reads the bundle by name in the target
    namespace.  When the read reports not-found it issues one create and
    nothing else; when the read returns a bundle with an equal spec it
    issues no write and changes nothing; when the spec differs it issues
    one update, of a bundle whose spec is the desired spec and whose
    name, namespace, labels and conditions are those of the bundle read,
    and the server then holds that bundle under the name.  Applied a
    second time after a first apply that created the bundle in the target
    namespace, it issues no further write: one create and no update over
    the two. *)
Theorem createOrUpdateManifestWork_spec (mw : ManifestWork) (ns : string) (w : World) :
  let get := GetManifestWork ns (mw_Name mw) in
  let read := (Client_Get_ManifestWork env (ns, mw_Name mw) w).1 in
  let r := createOrUpdateManifestWork env mw ns w in
  (read = Err NotFound -> newCalls w r.2 = [get; CreateManifestWork mw]) /\
  (forall found, read = Ok found -> mw_Spec found = mw_Spec mw ->
     r = (None, called w get)) /\
  (forall found, read = Ok found -> mw_Spec found <> mw_Spec mw ->
     exists updated,
       newCalls w r.2 = [get; UpdateManifestWork updated] /\
       mw_Spec updated = mw_Spec mw /\
       mw_Name updated = mw_Name found /\ mw_Namespace updated = mw_Namespace found /\
       mw_Labels updated = mw_Labels found /\
       mw_Conditions updated = mw_Conditions found /\
       (r.1 = None ->
        manifestWorks r.2 = <[(ns, mw_Name mw) := updated]> (manifestWorks w))) /\
  (read = Err NotFound -> r.1 = None -> mw_Namespace mw = ns ->
     let r' := createOrUpdateManifestWork env mw ns r.2 in
     filter isCreate (newCalls w r'.2) = [CreateManifestWork mw] /\
     filter isUpdate (newCalls w r'.2) = [] /\
     manifestWorks r'.2 = manifestWorks r.2).
Proof.
  cbn zeta. rewrite createOrUpdateManifestWork_run. split_and!.
  - intros ->. cbn [negb IsNotFound]. apply newCalls_app.
    rewrite create_trace, trace_called. by rewrite <- app_assoc.
  - intros found -> Heq. by rewrite decide_False by (intros H; by apply H).
  - intros found Hread Hne. rewrite Hread. rewrite decide_True by done.
    exists (setSpec found (mw_Spec mw)). split_and!; [|done..|].
    + apply newCalls_app. rewrite update_trace, trace_called. by rewrite <- app_assoc.
    + rewrite Client_Update_ManifestWork_run.
      rewrite Client_Get_ManifestWork_run in Hread. cbn [fst] in Hread.
      destruct (fault env (length (trace w))); [done|].
      destruct (manifestWorks w !! (ns, mw_Name mw)) as [stored|]; [|done].
      injection Hread as <-.
      destruct (fault env _); [done|].
      by destruct (manifestWorks _ !! _).
  - intros Hread. rewrite Hread. cbn [negb IsNotFound].
    rewrite Client_Get_ManifestWork_run in Hread. cbn [fst] in Hread.
    rewrite Client_Create_ManifestWork_run.
    destruct (fault env (length (trace w))); [done|].
    destruct (manifestWorks w !! (ns, mw_Name mw)) as [stored|] eqn:Hlook; [done|].
    destruct (fault env _); [done|].
    intros Hok Hns. unfold mwKey in *. rewrite Hns in *. cbn [manifestWorks called setTrace] in *.
    rewrite Hlook in *. clear Hok.
    rewrite createOrUpdateManifestWork_run, Client_Get_ManifestWork_run.
    cbn [fst snd manifestWorks setManifestWorks called setTrace trace].
    rewrite lookup_insert_eq.
    destruct (fault env _).
    + cbn. split_and!; [|by rewrite newCalls_app with (cs := [_; _; _]) by
        (cbn; by rewrite <- !app_assoc)|done].
      rewrite newCalls_app with (cs := [GetManifestWork ns (mw_Name mw);
        CreateManifestWork mw; GetManifestWork ns (mw_Name mw)]); [done|].
      cbn. by rewrite <- !app_assoc.
    + rewrite decide_False by (intros H; by apply H).
      cbn. split_and!; [|by rewrite newCalls_app with (cs := [_; _; _]) by
        (cbn; by rewrite <- !app_assoc)|done].
      rewrite newCalls_app with (cs := [GetManifestWork ns (mw_Name mw);
        CreateManifestWork mw; GetManifestWork ns (mw_Name mw)]); [done|].
      cbn. by rewrite <- !app_assoc.
Qed.

End Convergence.

(** ** Unpause *)

Section Unpause.
Context (env : Env).

Lemma update_subscription_trace sub w :
  trace (Client_Update_Subscription env sub w).2 = trace w ++ [UpdateSubscription sub].
Proof.
  rewrite Client_Update_Subscription_run.
  destruct (fault env _); [done|]. by destruct (subscriptions w !! _).
Qed.

Lemma unpauseSubscription_run subscription labels w :
  sub_Labels subscription = Some labels ->
  let unpaused :=
    setLabels subscription (Some (<[LabelSubscriptionPause := "false"]> labels)) in
  unpauseSubscription env subscription w =
  ((Client_Update_Subscription env unpaused w).1, unpaused,
   (Client_Update_Subscription env unpaused w).2).
Proof.
  intros Hl. unfold unpauseSubscription. rewrite Hl. cbn zeta.
  rewrite bind_run. done.
Qed.

(** C10: with a nil label map unpause returns an error, makes no call
    and leaves the subscription as it is.  With a label map it issues one
    update, of the subscription whose pause label is false and whose
    other labels, the DR-state label among them, are those it had. *)
Theorem unpauseSubscription_spec (subscription : Subscription) (w : World) :
  (sub_Labels subscription = None ->
   (exists e, (unpauseSubscription env subscription w).1.1 = Some e) /\
   (unpauseSubscription env subscription w).1.2 = subscription /\
   (unpauseSubscription env subscription w).2 = w) /\
  (forall labels, sub_Labels subscription = Some labels ->
   let unpaused := (unpauseSubscription env subscription w).1.2 in
   newCalls w (unpauseSubscription env subscription w).2 = [UpdateSubscription unpaused] /\
   setLabels unpaused (Some labels) = subscription /\
   exists labels', sub_Labels unpaused = Some labels' /\
     labels' !! LabelSubscriptionPause = Some "false" /\
     (forall k, k <> LabelSubscriptionPause -> labels' !! k = labels !! k) /\
     labels' !! RamenDRLabelName = labels !! RamenDRLabelName).
Proof.
  split.
  - intros Hl. unfold unpauseSubscription. rewrite Hl. cbn. eauto.
  - intros labels Hl. cbn zeta. rewrite (unpauseSubscription_run _ _ _ Hl). cbn [fst snd].
    split_and!.
    + apply newCalls_app, update_subscription_trace.
    + destruct subscription; cbn in *. by subst.
    + eexists. split; [done|]. split_and!.
      * apply lookup_insert_eq.
      * intros k Hk. by apply lookup_insert_ne.
      * by apply lookup_insert_ne.
Qed.

End Unpause.

(** ** The failover sequence of a paused subscription *)

Section Failover.
Context (env : Env).

Lemma findManifestWork_run subscription homeCluster mwType w :
  homeCluster <> "" ->
  let mwName := ManifestWorkName (sub_Name subscription) (sub_Namespace subscription) mwType in
  findManifestWork env subscription homeCluster mwType w =
  (if fault env (length (trace w)) then Err (Failure "failed to retrieve manifestwork")
   else match manifestWorks w !! (homeCluster, mwName) with
        | Some mw => Ok (Some (mwAt (homeCluster, mwName) mw))
        | None => Ok None
        end,
   called w (GetManifestWork homeCluster mwName)).
Proof.
  intros Hne. cbn zeta. unfold findManifestWork. rewrite decide_True by done.
  rewrite bind_run, Client_Get_ManifestWork_run. cbn [fst snd].
  destruct (fault env _); [done|]. by destruct (manifestWorks w !! _).
Qed.

(** When the lookup finds the restore bundle on the new home cluster,
    the pass goes from that one read to the applied test on the bundle
    read, and to unpause only if it is applied. *)
Lemma processSubscription_restore_found avr subscription w pvMW :
  let newHomeCluster := findNextHomeCluster avr subscription in
  let key := (newHomeCluster,
              ManifestWorkName (sub_Name subscription) (sub_Namespace subscription) MWTypePV) in
  let w1 := called w (GetManifestWork key.1 key.2) in
  isSubsriptionPausedForDR (sub_Labels subscription) = true ->
  newHomeCluster <> "" ->
  manifestWorks w !! key = Some pvMW ->
  fault env (length (trace w)) = false ->
  processPausedSubscription env avr subscription w = (Ok (newHomeCluster, Some (mwAt key pvMW)), w1) /\
  processSubscription env avr subscription w =
    if (IsManifestInAppliedState (mwAt key pvMW)).1
    then ((None, true), (unpauseSubscription env subscription w1).2)
    else ((None, true), w1).
Proof.
  cbn zeta. intros Hpaused Hne Hfound Hfault.
  assert (processPausedSubscription env avr subscription w =
          (Ok (findNextHomeCluster avr subscription,
               Some (mwAt (findNextHomeCluster avr subscription,
                           ManifestWorkName (sub_Name subscription)
                             (sub_Namespace subscription) MWTypePV) pvMW)),
           called w (GetManifestWork (findNextHomeCluster avr subscription)
                       (ManifestWorkName (sub_Name subscription)
                          (sub_Namespace subscription) MWTypePV)))) as Hpp.
  { unfold processPausedSubscription. rewrite decide_False by done.
    rewrite bind_run, findManifestWork_run by done. cbn [fst snd].
    by rewrite Hfault, Hfound. }
  split; [exact Hpp|].
  unfold processSubscription. rewrite Hpaused, bind_run, Hpp. cbn [fst snd].
  rewrite bind_run. unfold waitForManifest at 1 2. rewrite !bind_run. cbn [ret fst snd].
  destruct (IsManifestInAppliedState _).1; cbn [negb ret fst snd]; [|done].
  rewrite bind_run.
  destruct (unpauseSubscription env subscription _) as [[[e|] s'] w']; done.
Qed.

(** When the restore bundle is on the new home cluster and not applied,
    a pass ends in requeue after the one read, whether the read fails or
    not. *)
Lemma processSubscription_restore_pending avr subscription w pvMW :
  let newHomeCluster := findNextHomeCluster avr subscription in
  let key := (newHomeCluster,
              ManifestWorkName (sub_Name subscription) (sub_Namespace subscription) MWTypePV) in
  isSubsriptionPausedForDR (sub_Labels subscription) = true ->
  newHomeCluster <> "" ->
  manifestWorks w !! key = Some pvMW ->
  (IsManifestInAppliedState (mwAt key pvMW)).1 = false ->
  processSubscription env avr subscription w =
    ((None, true), called w (GetManifestWork key.1 key.2)).
Proof.
  cbn zeta. intros Hpaused Hne Hfound Hpending.
  destruct (fault env (length (trace w))) eqn:Hfault.
  - unfold processSubscription. rewrite Hpaused, bind_run.
    unfold processPausedSubscription. rewrite decide_False by done.
    rewrite bind_run, findManifestWork_run by done. cbn [fst snd].
    by rewrite Hfault.
  - destruct (processSubscription_restore_found avr subscription w pvMW
                Hpaused Hne Hfound Hfault) as [_ ->].
    by rewrite Hpending.
Qed.

End Failover.

Section FailoverClaims.
Context (env : Env).

(** C7: for a paused subscription whose restore bundle is on the new
    home cluster, a lookup that finds it is the only call made before
    the applied test on that bundle: no deletion, no download, no create;
    and while the bundle is not applied, two passes in a row both end in
    requeue with no decision, issue the two lookups and nothing else, and
    leave the server as it was. *)
Theorem processSubscription_restore_exists
    (avr : ApplicationVolumeReplication) (subscription : Subscription)
    (w : World) (pvMW : ManifestWork) :
  let newHomeCluster := findNextHomeCluster avr subscription in
  let key := (newHomeCluster,
              ManifestWorkName (sub_Name subscription) (sub_Namespace subscription) MWTypePV) in
  let get := GetManifestWork key.1 key.2 in
  isSubsriptionPausedForDR (sub_Labels subscription) = true ->
  newHomeCluster <> "" ->
  manifestWorks w !! key = Some pvMW ->
  (fault env (length (trace w)) = false ->
   processPausedSubscription env avr subscription w =
     (Ok (newHomeCluster, Some (mwAt key pvMW)), called w get) /\
   processSubscription env avr subscription w =
     if (IsManifestInAppliedState (mwAt key pvMW)).1
     then ((None, true), (unpauseSubscription env subscription (called w get)).2)
     else ((None, true), called w get)) /\
  ((IsManifestInAppliedState (mwAt key pvMW)).1 = false ->
   let r1 := processSubscription env avr subscription w in
   let r2 := processSubscription env avr subscription r1.2 in
   r1.1 = (None, true) /\ r2.1 = (None, true) /\
   newCalls w r2.2 = [get; get] /\
   manifestWorks r2.2 = manifestWorks w /\
   subscriptions r2.2 = subscriptions w /\
   avrs r2.2 = avrs w).
Proof.
  cbn zeta. intros Hpaused Hne Hfound. split.
  - intros Hfault.
    apply (processSubscription_restore_found env avr subscription w pvMW); done.
  - intros Hpending.
    rewrite (processSubscription_restore_pending env avr subscription w pvMW) by done.
    cbn [fst snd].
    rewrite (processSubscription_restore_pending env avr subscription _ pvMW) by done.
    cbn [fst snd]. split_and!; try done.
    apply newCalls_app. cbn. by rewrite <- app_assoc.
Qed.

Lemma deleteExistingManfiestWork_frame avr subscription w :
  let r := deleteExistingManfiestWork env avr subscription w in
  (forall key, manifestWorks w !! key = None -> manifestWorks r.2 !! key = None) /\
  subscriptions r.2 = subscriptions w /\
  exists cs, trace r.2 = trace w ++ cs /\
             filter isCreate cs = [] /\ filter isUpdate cs = [] /\
             filter isUnpause cs = [].
Proof.
  cbn zeta. unfold deleteExistingManfiestWork.
  destruct (lookupDecision avr (sub_Name subscription)) as [d|].
  - rewrite bind_run, Client_Get_ManifestWork_run. cbn [fst snd].
    destruct (fault env (length (trace w))).
    { cbn. split_and!; [done..|]. by eexists [_]. }
    destruct (manifestWorks w !! _) as [mw|].
    + rewrite Client_Delete_ManifestWork_run.
      destruct (fault env _).
      { cbn. split_and!; [done..|]. eexists; split; [cbn; rewrite <- app_assoc; reflexivity|done]. }
      destruct (manifestWorks _ !! _).
      * cbn. split_and!; [|done|eexists; split; [cbn; rewrite <- app_assoc; reflexivity|done]].
        intros key Hkey. rewrite lookup_delete. by case_decide.
      * cbn. split_and!; [done..|]. eexists; split; [cbn; rewrite <- app_assoc; reflexivity|done].
    + cbn. split_and!; [done..|]. by eexists [_].
  - cbn. split_and!; [done..|]. exists []. by rewrite app_nil_r.
Qed.

Lemma restorePVFromBackup_empty avr subscription homeCluster w :
  let download :=
    DownloadPVs (avr_S3Endpoint avr) (avr_Namespace avr, avr_S3SecretName avr) (avr_Name avr)
      (constructBucketName env (sub_Namespace subscription) (sub_Name subscription)) in
  S3_DownloadPVs env (avr_S3Endpoint avr) (avr_Namespace avr, avr_S3SecretName avr)
    (avr_Name avr)
    (constructBucketName env (sub_Namespace subscription) (sub_Name subscription)) = Ok [] ->
  restorePVFromBackup env avr subscription homeCluster w =
  (if fault env (length (trace w))
   then Some (Failure "failed to retrieve PVs from S3 store") else None,
   called w download).
Proof.
  cbn zeta. intros Hs3. unfold restorePVFromBackup, listPVsFromS3Store.
  rewrite bind_run, S3_Download_run. cbn [fst snd].
  destruct (fault env _); [done|]. by rewrite Hs3.
Qed.

(** What is known once the sequence has come back from an empty
    backup store. *)
Lemma processPausedSubscription_empty avr subscription w newHomeCluster w1 :
  S3_DownloadPVs env (avr_S3Endpoint avr) (avr_Namespace avr, avr_S3SecretName avr)
    (avr_Name avr)
    (constructBucketName env (sub_Namespace subscription) (sub_Name subscription)) = Ok [] ->
  processPausedSubscription env avr subscription w = (Ok (newHomeCluster, None), w1) ->
  newHomeCluster = findNextHomeCluster avr subscription /\
  newHomeCluster <> "" /\
  manifestWorks w1 !! (newHomeCluster,
    ManifestWorkName (sub_Name subscription) (sub_Namespace subscription) MWTypePV) = None /\
  subscriptions w1 = subscriptions w /\
  filter isCreate (newCalls w w1) = [] /\
  filter isUpdate (newCalls w w1) = [] /\
  filter isUnpause (newCalls w w1) = [].
Proof.
  intros Hs3. unfold processPausedSubscription.
  destruct (decide (findNextHomeCluster avr subscription = "")) as [|Hne]; [done|].
  rewrite bind_run, findManifestWork_run by done. cbn [fst snd].
  destruct (fault env (length (trace w))); [done|].
  destruct (manifestWorks w !! _) as [mw|] eqn:Hlook; [done|].
  rewrite bind_run.
  pose proof (deleteExistingManfiestWork_frame avr subscription
                (called w (GetManifestWork (findNextHomeCluster avr subscription)
                   (ManifestWorkName (sub_Name subscription)
                      (sub_Namespace subscription) MWTypePV)))) as Hframe.
  cbn zeta in Hframe.
  destruct (deleteExistingManfiestWork env avr subscription _) as [[e|] w0]; [done|].
  cbn [fst snd] in *. destruct Hframe as (Hnone & Hsubs & cs & Htrace & Hc & Hu & Hp).
  rewrite bind_run, (restorePVFromBackup_empty _ _ _ _ Hs3). cbn [fst snd].
  destruct (fault env _); [done|]. intros [= <- <-].
  split_and!; try done.
  - cbn. by apply Hnone.
  - erewrite newCalls_app
      by (cbn [trace called setTrace] in *; rewrite Htrace, <- !app_assoc; reflexivity).
    by rewrite !filter_app, Hc.
  - erewrite newCalls_app
      by (cbn [trace called setTrace] in *; rewrite Htrace, <- !app_assoc; reflexivity).
    by rewrite !filter_app, Hu.
  - erewrite newCalls_app
      by (cbn [trace called setTrace] in *; rewrite Htrace, <- !app_assoc; reflexivity).
    by rewrite !filter_app, Hp.
Qed.

(** C8, as the code has it: once the backup store has returned no
    volume record, no restore bundle has been created or updated; the
    wait step then looks the restore bundle up once more.  If that lookup
    fails the pass ends there in requeue, without unpause.  Otherwise it
    finds no bundle, no applied condition is evaluated, the next call is
    the update that sets the pause label to false, and the pass ends in
    requeue with no decision whether or not that update succeeds. *)
Theorem processSubscription_empty_restore
    (avr : ApplicationVolumeReplication) (subscription : Subscription)
    (labels : gmap string string) (w w1 : World) (newHomeCluster : string) :
  let get := GetManifestWork newHomeCluster
               (ManifestWorkName (sub_Name subscription) (sub_Namespace subscription) MWTypePV) in
  let unpaused :=
    setLabels subscription (Some (<[LabelSubscriptionPause := "false"]> labels)) in
  let r := processSubscription env avr subscription w in
  isSubsriptionPausedForDR (sub_Labels subscription) = true ->
  sub_Labels subscription = Some labels ->
  S3_DownloadPVs env (avr_S3Endpoint avr) (avr_Namespace avr, avr_S3SecretName avr)
    (avr_Name avr)
    (constructBucketName env (sub_Namespace subscription) (sub_Name subscription)) = Ok [] ->
  processPausedSubscription env avr subscription w = (Ok (newHomeCluster, None), w1) ->
  filter isCreate (newCalls w w1) = [] /\
  filter isUpdate (newCalls w w1) = [] /\
  filter isUnpause (newCalls w w1) = [] /\
  r.1 = (None, true) /\
  (fault env (length (trace w1)) = true -> r.2 = called w1 get) /\
  (fault env (length (trace w1)) = false ->
   newCalls w1 r.2 = [get; UpdateSubscription unpaused]).
Proof.
  cbn zeta. intros Hpaused Hlabels Hs3 Hpp.
  destruct (processPausedSubscription_empty _ _ _ _ _ Hs3 Hpp)
    as (-> & Hne & Hnone & _ & Hc & Hu & Hp).
  split_and!; try done.
  all: unfold processSubscription; rewrite Hpaused, bind_run, Hpp; cbn [fst snd].
  all: rewrite bind_run; unfold waitForManifest at 1 2.
  all: rewrite !bind_run, findManifestWork_run by done; cbn [fst snd].
  - destruct (fault env (length (trace w1))); [done|].
    cbn [manifestWorks called setTrace]. rewrite Hnone. cbn [ret fst snd].
    rewrite bind_run.
    by destruct (unpauseSubscription env subscription _) as [[[e|] s'] w'].
  - intros ->. done.
  - intros ->. cbn [manifestWorks called setTrace]. rewrite Hnone. cbn [ret fst snd].
    rewrite bind_run, (unpauseSubscription_run env _ _ _ Hlabels). cbn [fst snd].
    assert (forall (e : option error) (x : World),
              (match e with
               | Some _ => ret (None, true)
               | None => ret (@None SubscriptionPlacementDecision, true)
               end x).2 = x) as Hsame by (by intros [?|] ?).
    rewrite Hsame. apply newCalls_app.
    rewrite update_subscription_trace. cbn. by rewrite <- app_assoc.
Qed.

End FailoverClaims.

(** ** The pass over the subscriptions *)

Section Pass.
Context (env : Env).

Lemma foldDecisions_cons no os acc :
  foldDecisions (no :: os) acc =
  foldDecisions os (match no.2 with Decided d => <[no.1 := d]> acc | _ => acc end).
Proof. done. Qed.

Lemma foldDecisions_absent os acc n :
  n ∉ map fst os -> foldDecisions os acc !! n = acc !! n.
Proof.
  revert acc. induction os as [|[n' o] os IH]; intros acc Hn; [done|].
  rewrite foldDecisions_cons. cbn in Hn. apply not_elem_of_cons in Hn as [Hne Hn].
  rewrite IH by done. cbn. destruct o; try done. by rewrite lookup_insert_ne.
Qed.

Lemma foldDecisions_lookup os acc n d :
  foldDecisions os acc !! n = Some d ->
  acc !! n = Some d \/ (n, Decided d) ∈ os.
Proof.
  revert acc. induction os as [|[n' o] os IH]; intros acc Hl; [by left|].
  rewrite foldDecisions_cons in Hl. apply IH in Hl as [Hl|Hl].
  - cbn in Hl. destruct o; try by left.
    destruct (decide (n' = n)) as [->|Hne].
    + rewrite lookup_insert_eq in Hl. injection Hl as ->. right. left.
    + rewrite lookup_insert_ne in Hl by done. by left.
  - right. by right.
Qed.

Lemma foldDecisions_mem os acc n d :
  NoDup (map fst os) -> (n, Decided d) ∈ os -> foldDecisions os acc !! n = Some d.
Proof.
  revert acc. induction os as [|[n' o] os IH]; intros acc Hnd Hin.
  - by apply elem_of_nil in Hin.
  - rewrite foldDecisions_cons. cbn in Hnd. apply NoDup_cons in Hnd as [Hn' Hnd].
    apply elem_of_cons in Hin as [[= <- <-]|Hin].
    + rewrite foldDecisions_absent by done. cbn. apply lookup_insert_eq.
    + by apply IH.
Qed.

(** The loop of processSubscriptions read as the sequence of the
    outcomes: the same calls on the same worlds, the decisions folded into
    the map, the requeue flags into the disjunction. *)
Lemma processSubscriptionsFrom_outcomes avr items acc w :
  processSubscriptionsFrom env avr items acc w =
  ((foldDecisions (passOutcomes env avr items w).1 acc.1,
    acc.2 || existsb (fun no => isRequeue no.2) (passOutcomes env avr items w).1),
   (passOutcomes env avr items w).2).
Proof.
  revert acc w. induction items as [|subscription rest IH]; intros [decisions requeue] w.
  - cbn. by rewrite orb_false_r.
  - cbn [processSubscriptionsFrom passOutcomes].
    destruct (isLocalSubscription subscription).
    + rewrite IH. repeat (rewrite bind_run; cbn [ret fst snd]). done.
    + repeat (rewrite bind_run; cbn [ret fst snd]).
      destruct (processSubscription env avr subscription w) as [[d needRequeue] w'].
      cbn [fst snd]. repeat (rewrite bind_run; cbn [ret fst snd]).
      unfold outcomeOf. cbn [fst snd].
      destruct needRequeue; [|destruct d]; rewrite IH; cbn [fst snd];
        rewrite foldDecisions_cons; cbn; by rewrite ?orb_true_r, ?orb_false_r.
Qed.

Lemma passOutcomes_names avr items w :
  map fst (passOutcomes env avr items w).1 = map sub_Name items.
Proof.
  revert w. induction items as [|subscription rest IH]; intros w; [done|].
  cbn [passOutcomes]. repeat (rewrite bind_run; cbn [ret fst snd map]). by rewrite IH.
Qed.

(** C5: the pass gives every subscription of the list its outcome, in
    order, whatever the outcomes before it; the requeue flag is the
    disjunction of the requeue outcomes; every decision in the map
    returned is the decision outcome of a subscription, and with distinct
    names every decision outcome is in the map; a skipped subscription
    adds nothing to either. *)
Theorem processSubscriptions_spec
    (avr : ApplicationVolumeReplication) (items : list Subscription) (w : World) :
  let os := (passOutcomes env avr items w).1 in
  let r := processSubscriptions env avr items w in
  r.2 = (passOutcomes env avr items w).2 /\
  map fst os = map sub_Name items /\
  r.1.2 = existsb (fun no => isRequeue no.2) os /\
  (forall n d, r.1.1 !! n = Some d -> (n, Decided d) ∈ os) /\
  (NoDup (map sub_Name items) ->
   forall n d, (n, Decided d) ∈ os -> r.1.1 !! n = Some d).
Proof.
  cbn zeta. unfold processSubscriptions. rewrite processSubscriptionsFrom_outcomes.
  cbn [fst snd orb]. split_and!; [done|apply passOutcomes_names|done| |].
  - intros n d Hl. by apply foldDecisions_lookup in Hl as [Hl|Hl].
  - intros Hnd n d Hin. apply foldDecisions_mem; [|done].
    by rewrite passOutcomes_names.
Qed.

End Pass.

(** ** The status of the DR intent *)

Create HintDb frame.

Lemma keepsStatus_refl w : keepsStatus w w.
Proof. split; [done|]. exists []. by rewrite app_nil_r. Qed.

Lemma keepsStatus_trans w1 w2 w3 :
  keepsStatus w1 w2 -> keepsStatus w2 w3 -> keepsStatus w1 w3.
Proof.
  intros [Ha (cs & Ht & Hf)] [Ha' (cs' & Ht' & Hf')]. split; [congruence|].
  exists (cs ++ cs'). rewrite Ht', Ht, filter_app, Hf, Hf'. by rewrite <- app_assoc.
Qed.

Lemma keepsStatus_called w c : isStatusWrite c = false -> keepsStatus w (called w c).
Proof. intros Hc. split; [done|]. exists [c]. split; [done|]. by destruct c. Qed.

Lemma keepsStatus_works w w' m :
  keepsStatus w w' -> keepsStatus w (setManifestWorks w' m).
Proof. intros [Ha Ht]. by split. Qed.

Lemma keepsStatus_subs w w' m :
  keepsStatus w w' -> keepsStatus w (setSubscriptions w' m).
Proof. intros [Ha Ht]. by split. Qed.

Lemma Frame_ret {A} (a : A) : Frame (ret a).
Proof. intros w. apply keepsStatus_refl. Qed.

Lemma Frame_bind {A B} (m : M A) (k : A -> M B) :
  Frame m -> (forall a, Frame (k a)) -> Frame (bind m k).
Proof.
  intros Hm Hk w. rewrite bind_run. eapply keepsStatus_trans; [apply Hm|apply Hk].
Qed.

Ltac frame_step :=
  first
    [ solve [auto with frame]
    | simple apply Frame_ret
    | simple apply Frame_bind; [|intros]
    | match goal with
      | |- Frame (match ?x with _ => _ end) => destruct x
      | |- Frame (if ?b then _ else _) => destruct b
      end ].

Ltac frame := repeat frame_step.

Section StatusFrame.
Context (env : Env).

Lemma Frame_Get_ManifestWork key : Frame (Client_Get_ManifestWork env key).
Proof.
  intros w. rewrite Client_Get_ManifestWork_run. by apply keepsStatus_called.
Qed.

Lemma Frame_Get_PlacementRule key : Frame (Client_Get_PlacementRule env key).
Proof.
  intros w. rewrite Client_Get_PlacementRule_run. by apply keepsStatus_called.
Qed.

Lemma Frame_Create_ManifestWork mw : Frame (Client_Create_ManifestWork env mw).
Proof.
  intros w. rewrite Client_Create_ManifestWork_run.
  destruct (fault env _); [|destruct (manifestWorks w !! _)]; cbn [snd];
    try apply keepsStatus_works; by apply keepsStatus_called.
Qed.

Lemma Frame_Update_ManifestWork mw : Frame (Client_Update_ManifestWork env mw).
Proof.
  intros w. rewrite Client_Update_ManifestWork_run.
  destruct (fault env _); [|destruct (manifestWorks w !! _)]; cbn [snd];
    try apply keepsStatus_works; by apply keepsStatus_called.
Qed.

Lemma Frame_Delete_ManifestWork mw : Frame (Client_Delete_ManifestWork env mw).
Proof.
  intros w. rewrite Client_Delete_ManifestWork_run.
  destruct (fault env _); [|destruct (manifestWorks w !! _)]; cbn [snd];
    try apply keepsStatus_works; by apply keepsStatus_called.
Qed.

Lemma Frame_Update_Subscription sub : Frame (Client_Update_Subscription env sub).
Proof.
  intros w. rewrite Client_Update_Subscription_run.
  destruct (fault env _); [|destruct (subscriptions w !! _)]; cbn [snd];
    try apply keepsStatus_subs; by apply keepsStatus_called.
Qed.

Lemma Frame_S3_Download e s c b : Frame (S3_Download env e s c b).
Proof. intros w. rewrite S3_Download_run. by apply keepsStatus_called. Qed.

Lemma Frame_Utils_PlaceByGenericPlacmentFields placementRule :
  Frame (Utils_PlaceByGenericPlacmentFields env placementRule).
Proof.
  intros w. rewrite Utils_PlaceByGenericPlacmentFields_run. by apply keepsStatus_called.
Qed.

Hint Resolve Frame_Get_ManifestWork Frame_Get_PlacementRule Frame_Create_ManifestWork
  Frame_Update_ManifestWork Frame_Delete_ManifestWork Frame_Update_Subscription
  Frame_S3_Download Frame_Utils_PlaceByGenericPlacmentFields : frame.

Lemma Frame_findManifestWork s c t : Frame (findManifestWork env s c t).
Proof. unfold findManifestWork. frame. Qed.
Hint Resolve Frame_findManifestWork : frame.

Lemma Frame_deleteExistingManfiestWork avr s : Frame (deleteExistingManfiestWork env avr s).
Proof. unfold deleteExistingManfiestWork. frame. Qed.
Hint Resolve Frame_deleteExistingManfiestWork : frame.

Lemma Frame_createOrUpdateManifestWork mw ns : Frame (createOrUpdateManifestWork env mw ns).
Proof. unfold createOrUpdateManifestWork. frame. Qed.
Hint Resolve Frame_createOrUpdateManifestWork : frame.

Lemma Frame_restorePVFromBackup avr s c : Frame (restorePVFromBackup env avr s c).
Proof.
  unfold restorePVFromBackup, listPVsFromS3Store, createOrUpdatePVsManifestWork. frame.
Qed.
Hint Resolve Frame_restorePVFromBackup : frame.

Lemma Frame_processPausedSubscription avr s : Frame (processPausedSubscription env avr s).
Proof. unfold processPausedSubscription. frame. Qed.

Lemma Frame_waitForManifest s c pvMW : Frame (waitForManifest env s c pvMW).
Proof. unfold waitForManifest. frame. Qed.

Lemma Frame_unpauseSubscription s : Frame (unpauseSubscription env s).
Proof. unfold unpauseSubscription. frame. Qed.

Lemma Frame_vrgManifestWorkAlreadyExists avr s :
  Frame (vrgManifestWorkAlreadyExists env avr s).
Proof. unfold vrgManifestWorkAlreadyExists. frame. Qed.

Lemma Frame_extractHomeClusterAndPeerCluster s placementRule :
  Frame (extractHomeClusterAndPeerCluster env s placementRule).
Proof.
  intros w. rewrite extractHomeClusterAndPeerCluster_world.
  destruct (sub_Statuses s); [by apply keepsStatus_called|apply keepsStatus_refl].
Qed.
Hint Resolve Frame_extractHomeClusterAndPeerCluster : frame.

Lemma Frame_selectPlacementDecision s : Frame (selectPlacementDecision env s).
Proof. unfold selectPlacementDecision. frame. Qed.

Hint Resolve Frame_processPausedSubscription Frame_waitForManifest
  Frame_unpauseSubscription Frame_vrgManifestWorkAlreadyExists
  Frame_selectPlacementDecision : frame.

Lemma Frame_processUnpausedSubscription avr s :
  Frame (processUnpausedSubscription env avr s).
Proof.
  unfold processUnpausedSubscription, createOrUpdateVRGRolesManifestWork,
    createOrUpdateVRGManifestWork. frame.
Qed.
Hint Resolve Frame_processUnpausedSubscription : frame.

Lemma Frame_processSubscription avr s : Frame (processSubscription env avr s).
Proof. unfold processSubscription. frame. Qed.
Hint Resolve Frame_processSubscription : frame.

Lemma Frame_processSubscriptionsFrom avr items acc :
  Frame (processSubscriptionsFrom env avr items acc).
Proof.
  revert acc. induction items as [|s rest IH]; intros acc; cbn [processSubscriptionsFrom];
    frame; apply IH.
Qed.

(** No step of the pass over the subscriptions writes the status. *)
Lemma Frame_processSubscriptions avr items : Frame (processSubscriptions env avr items).
Proof. apply Frame_processSubscriptionsFrom. Qed.

End StatusFrame.

Section ReconcilePass.
Context (env : Env).

Lemma Client_Get_AVR_Ok req w avr :
  (Client_Get_AVR env req w).1 = Ok avr ->
  exists stored, avrs w !! req = Some stored /\ avr = avrAt req stored /\ avrKey avr = req.
Proof.
  rewrite Client_Get_AVR_run. cbn [fst]. destruct (fault env _); [done|].
  destruct (avrs w !! req) as [stored|]; [|done]. intros [= <-].
  exists stored. split_and!; [done..|]. by destruct req.
Qed.

(** Reconcile from the point where the intent and its subscriptions
    have been read. *)
Lemma Reconcile_run req w avr items :
  (Client_Get_AVR env req w).1 = Ok avr ->
  (Client_List_Subscriptions env (avr_Namespace avr) (called w (GetAVR req.1 req.2))).1
    = Ok items ->
  let w2 := called (called w (GetAVR req.1 req.2)) (ListSubscriptions (avr_Namespace avr)) in
  let p := processSubscriptions env avr items w2 in
  Reconcile env req w =
  if decide (size p.1.1 = 0%nat) then ((mkResult p.1.2, None), p.2)
  else
    let u := Client_Status_Update env (setDecisions avr (Some p.1.1)) p.2 in
    ((mkResult (match u.1 with Some _ => true | None => p.1.2 end), None), u.2).
Proof.
  intros Hget Hlist. cbn zeta. unfold Reconcile.
  rewrite bind_run. rewrite Hget.
  rewrite Client_Get_AVR_run. cbn [fst snd].
  rewrite bind_run, Hlist. rewrite Client_List_Subscriptions_run. cbn [fst snd].
  rewrite bind_run.
  destruct (processSubscriptions env avr items _) as [[decisions requeue] w3].
  cbn [fst snd]. destruct (decide (size decisions = 0%nat)); [done|].
  rewrite bind_run. unfold updateAVRStatus. rewrite bind_run.
  destruct (Client_Status_Update env _ w3) as [[e|] w4]; done.
Qed.

Lemma keepsStatus_newCalls w w' :
  keepsStatus w w' -> filter isStatusWrite (newCalls w w') = [] /\ avrs w' = avrs w.
Proof.
  intros [Ha (cs & Ht & Hf)]. split; [|done]. by rewrite (newCalls_app _ _ _ Ht).
Qed.

(** C4: a pass that cannot read the intent or list its subscriptions
    issues no status update.  In a pass that has read both, an empty
    aggregated decision map means that no status update is issued, that
    the stored intents are as before, and that the aggregated requeue flag
    is returned; a non-empty map means that the status update is issued
    once, for the intent of the request and with the aggregated map as
    its decisions: when it succeeds the decisions stored for the intent
    are that map, whatever they were, the rest of the stored intent and
    the other intents are as before, and the aggregated requeue flag is
    returned; when it fails the stored intents are as before and the pass
    asks for a requeue. *)
Theorem Reconcile_status_write (req : string * string) (w : World) :
  let r := Reconcile env req w in
  let w1 := called w (GetAVR req.1 req.2) in
  (isErr (Client_Get_AVR env req w).1 = true ->
   filter isStatusWrite (newCalls w r.2) = [] /\ avrs r.2 = avrs w) /\
  (forall avr,
   (Client_Get_AVR env req w).1 = Ok avr ->
   isErr (Client_List_Subscriptions env (avr_Namespace avr) w1).1 = true ->
   filter isStatusWrite (newCalls w r.2) = [] /\ avrs r.2 = avrs w) /\
  (forall avr items,
   (Client_Get_AVR env req w).1 = Ok avr ->
   (Client_List_Subscriptions env (avr_Namespace avr) w1).1 = Ok items ->
   let p := processSubscriptions env avr items
              (called w1 (ListSubscriptions (avr_Namespace avr))) in
   (size p.1.1 = 0%nat ->
    filter isStatusWrite (newCalls w r.2) = [] /\
    avrs r.2 = avrs w /\
    r.1 = (mkResult p.1.2, None)) /\
   (size p.1.1 <> 0%nat ->
    exists written,
      filter isStatusWrite (newCalls w r.2) = [StatusUpdateAVR written] /\
      avrKey written = req /\
      avr_Decisions written = Some p.1.1 /\
      (fault env (length (trace p.2)) = false ->
       r.1 = (mkResult p.1.2, None) /\
       exists stored after,
         avrs w !! req = Some stored /\
         avrs r.2 = <[req := after]> (avrs w) /\
         avr_Decisions after = Some p.1.1 /\
         avr_Name after = avr_Name stored /\
         avr_Namespace after = avr_Namespace stored /\
         avr_FailoverClusters after = avr_FailoverClusters stored /\
         avr_S3Endpoint after = avr_S3Endpoint stored /\
         avr_S3SecretName after = avr_S3SecretName stored) /\
      (fault env (length (trace p.2)) = true ->
       r.1 = (mkResult true, None) /\ avrs r.2 = avrs w))).
Proof.
  cbn zeta. split_and!.
  - intros Herr. apply keepsStatus_newCalls. unfold Reconcile.
    rewrite bind_run. destruct (Client_Get_AVR env req w).1 as [|e] eqn:Hget; [done|].
    rewrite Client_Get_AVR_run. cbn [snd].
    destruct (IsNotFound e); by apply keepsStatus_called.
  - intros avr Hget Herr. apply keepsStatus_newCalls. unfold Reconcile.
    rewrite bind_run, Hget. rewrite Client_Get_AVR_run. cbn [snd].
    rewrite bind_run.
    destruct (Client_List_Subscriptions env _ _).1 as [|e] eqn:Hlist; [done|].
    rewrite Client_List_Subscriptions_run. cbn [snd].
    destruct (negb (IsNotFound e));
      (eapply keepsStatus_trans; [|by apply keepsStatus_called]);
      by apply keepsStatus_called.
  - intros avr items Hget Hlist. rewrite (Reconcile_run _ _ _ _ Hget Hlist). cbn zeta.
    pose proof (Frame_processSubscriptions env avr items
      (called (called w (GetAVR req.1 req.2)) (ListSubscriptions (avr_Namespace avr))))
      as [Havrs (cs & Htrace & Hcs)].
    destruct (Client_Get_AVR_Ok _ _ _ Hget) as (stored & Hstored & Havr & Hkey).
    set (p := processSubscriptions env avr items _) in *. clearbody p.
    cbn [trace called setTrace avrs] in Htrace, Havrs.
    split.
    + intros Hsize. rewrite decide_True by done. cbn [fst snd]. split_and!; [|done..].
      erewrite newCalls_app by (rewrite Htrace, <- !app_assoc; reflexivity).
      by rewrite !filter_app, Hcs.
    + intros Hsize. rewrite decide_False by done. cbn zeta. cbn [fst snd].
      exists (setDecisions avr (Some p.1.1)).
      rewrite Client_Status_Update_run. unfold avrKey in *.
      cbn [setDecisions avr_Namespace avr_Name avr_Decisions].
      rewrite Hkey, Havrs, Hstored.
      split_and!; [|done|done| |].
      * destruct (fault env _); cbn [snd];
          (erewrite newCalls_app
             by (cbn [trace called setTrace setAvrs];
                 rewrite Htrace, <- !app_assoc; reflexivity));
          by rewrite !filter_app, Hcs.
      * intros ->. cbn [fst snd]. split; [done|].
        exists stored, (setDecisions stored (Some p.1.1)). by split_and!.
      * intros ->. done.
Qed.

End ReconcilePass.

(** * The claims on the scenarios *)

Lemma getManagedClustersUsingPlacementRule_spec_witness :
  let w := worldOf [] [] in
  isErr (getManagedClustersUsingPlacementRule (envOf noFault []) ruleTwoReplicas 2 w).1
    = true /\
  (getManagedClustersUsingPlacementRule (envOf noFault []) ruleOnePerPair 2 w).1 =
    Ok {["east" := mkManagedCluster "east"; "west" := mkManagedCluster "west"]} /\
  isErr (getManagedClustersUsingPlacementRule (envOf (faultAt 0) []) ruleOnePerPair 2 w).1
    = true.
Proof.
  cbn zeta. split_and!.
  - apply (proj1 (getManagedClustersUsingPlacementRule_spec (envOf noFault [])
                    ruleTwoReplicas (worldOf [] [])) 2); [reflexivity|discriminate].
  - apply (proj1 (proj2 (proj2 (proj2
             (getManagedClustersUsingPlacementRule_spec (envOf noFault []) ruleOnePerPair
                (worldOf [] []))))));
      [reflexivity|vm_compute; reflexivity|right; reflexivity].
  - destruct (getManagedClustersUsingPlacementRule (envOf (faultAt 0) []) ruleOnePerPair 2
                (worldOf [] [])).1 as [clmap|e] eqn:Hr; [|reflexivity].
    apply (proj1 (proj2 (proj2 (proj2 (proj2
             (getManagedClustersUsingPlacementRule_spec (envOf (faultAt 0) [])
                ruleOnePerPair (worldOf [] []))))))) in Hr as [Hplaced _].
    discriminate Hplaced.
Defined.

Lemma extractHomeClusterAndPeerCluster_spec_witness :
  let env := envOf noFault [] in
  let w := worldOf [] [] in
  let east := mkManagedCluster "east" in
  let west := mkManagedCluster "west" in
  sub_Statuses subEast = Some {["east" := Some "ok"]} /\
  (extractHomeClusterAndPeerCluster env subEast ruleOnePerPair w).1 = Ok ("east", "west") /\
  rangeOrder env {["east" := east; "west" := west]} = [("west", west); ("east", east)] /\
  (extractHomeClusterAndPeerCluster env subBoth ruleOnePerPair w).1 = Ok ("west", "east").
Proof.
  cbn zeta.
  assert ((getManagedClustersUsingPlacementRule (envOf noFault []) ruleOnePerPair 2
             (worldOf [] [])).1 =
          Ok {["east" := mkManagedCluster "east"; "west" := mkManagedCluster "west"]})
    as Hcl by (vm_compute; reflexivity).
  assert (rangeOrder (envOf noFault [])
            {["east" := mkManagedCluster "east"; "west" := mkManagedCluster "west"]} =
          [("west", mkManagedCluster "west"); ("east", mkManagedCluster "east")])
    as Hrange by (vm_compute; reflexivity).
  split_and!; [reflexivity| |exact Hrange|].
  - refine (proj1 (extractHomeClusterAndPeerCluster_spec (envOf noFault []) subEast
                     ruleOnePerPair {["east" := Some "ok"]} "east" "west"
                     (mkManagedCluster "east") (mkManagedCluster "west") (worldOf [] [])
                     eq_refl _ Hcl) _ _);
      [discriminate|vm_compute; reflexivity|vm_compute; reflexivity].
  - refine (proj2 (proj1 (proj2 (proj2 (proj2
             (extractHomeClusterAndPeerCluster_spec (envOf noFault []) subBoth
                ruleOnePerPair {["east" := Some "ok"; "west" := Some "ok"]} "east" "west"
                (mkManagedCluster "east") (mkManagedCluster "west") (worldOf [] [])
                eq_refl _ Hcl)))) _ _) Hrange);
      [discriminate|vm_compute; reflexivity|vm_compute; reflexivity].
Defined.

(** C2 as stated fails: with a status entry for both resolved clusters
    the extraction returns a home and a peer, not an error. *)
Lemma extractHomeClusterAndPeerCluster_both :
  sub_Statuses subBoth = Some {["east" := Some "ok"; "west" := Some "ok"]} /\
  (getManagedClustersUsingPlacementRule (envOf noFault []) ruleOnePerPair 2
     (worldOf [] [])).1 =
    Ok {["east" := mkManagedCluster "east"; "west" := mkManagedCluster "west"]} /\
  hasStatus {["east" := Some "ok"; "west" := Some "ok"]} "east" = true /\
  hasStatus {["east" := Some "ok"; "west" := Some "ok"]} "west" = true /\
  isErr (extractHomeClusterAndPeerCluster (envOf noFault []) subBoth ruleOnePerPair
           (worldOf [] [])).1 = false.
Proof. split_and!; vm_compute; reflexivity. Qed.

Lemma createOrUpdateManifestWork_spec_witness :
  let w := worldOf [] [] in
  let r := createOrUpdateManifestWork (envOf noFault []) workEast "east" w in
  let r' := createOrUpdateManifestWork (envOf noFault []) workEast "east" r.2 in
  let ws := worldOf [] [workEastStale] in
  let rs := createOrUpdateManifestWork (envOf noFault []) workEast "east" ws in
  (Client_Get_ManifestWork (envOf noFault []) ("east", mw_Name workEast) w).1 = Err NotFound /\
  r.1 = None /\
  filter isCreate (newCalls w r'.2) = [CreateManifestWork workEast] /\
  filter isUpdate (newCalls w r'.2) = [] /\
  (Client_Get_ManifestWork (envOf noFault []) ("east", mw_Name workEast) ws).1
    = Ok workEastStale /\
  exists updated,
    newCalls ws rs.2 = [GetManifestWork "east" "app1-ns-vrg-mw"; UpdateManifestWork updated] /\
    mw_Spec updated = mkManifestWorkSpec ["{}"] /\
    mw_Labels updated = {["app" := "old"]} /\
    manifestWorks rs.2 !! ("east", "app1-ns-vrg-mw") = Some updated.
Proof.
  cbn zeta.
  assert ((Client_Get_ManifestWork (envOf noFault []) ("east", mw_Name workEast)
             (worldOf [] [])).1 = Err NotFound) as Hread by (vm_compute; reflexivity).
  assert ((createOrUpdateManifestWork (envOf noFault []) workEast "east"
             (worldOf [] [])).1 = None) as Hok by (vm_compute; reflexivity).
  assert ((Client_Get_ManifestWork (envOf noFault []) ("east", mw_Name workEast)
             (worldOf [] [workEastStale])).1 = Ok workEastStale) as Hstale
    by (vm_compute; reflexivity).
  assert ((createOrUpdateManifestWork (envOf noFault []) workEast "east"
             (worldOf [] [workEastStale])).1 = None) as Hoks by (vm_compute; reflexivity).
  split_and!; [exact Hread|exact Hok|..|exact Hstale|].
  1-2: apply (proj2 (proj2 (proj2
             (createOrUpdateManifestWork_spec (envOf noFault []) workEast "east"
                (worldOf [] [])))) Hread Hok eq_refl).
  destruct (proj1 (proj2 (proj2
             (createOrUpdateManifestWork_spec (envOf noFault []) workEast "east"
                (worldOf [] [workEastStale])))) workEastStale Hstale)
    as (updated & Hcalls & Hspec & _ & _ & Hlabels & _ & Hstored); [discriminate|].
  exists updated. split_and!; [exact Hcalls|exact Hspec|exact Hlabels|].
  rewrite (Hstored Hoks). apply lookup_insert_eq.
Defined.

Lemma unpauseSubscription_spec_witness :
  let labels : gmap string string :=
    {["ramendr" := "protected"; "subscription-pause" := "true"; "app" := "busybox"]} in
  let r := unpauseSubscription (envOf noFault []) subPaused (worldOf [subPaused] []) in
  sub_Labels subPaused = Some labels /\
  newCalls (worldOf [subPaused] []) r.2 = [UpdateSubscription r.1.2] /\
  setLabels r.1.2 (Some labels) = subPaused.
Proof.
  cbn zeta. split; [reflexivity|].
  destruct (proj2 (unpauseSubscription_spec (envOf noFault []) subPaused
                     (worldOf [subPaused] [])) _ eq_refl) as (Hcalls & Hsame & _).
  split; [exact Hcalls|exact Hsame].
Defined.

Lemma processSubscription_restore_exists_witness :
  let w := worldOf [subPaused] [pvWorkPending] in
  let r1 := processSubscription (envOf noFault ["pv1"]) avrWest subPaused w in
  let r2 := processSubscription (envOf noFault ["pv1"]) avrWest subPaused r1.2 in
  isSubsriptionPausedForDR (sub_Labels subPaused) = true /\
  manifestWorks w !! ("west", "app1-ns-pv-mw") = Some pvWorkPending /\
  r1.1 = (None, true) /\ r2.1 = (None, true) /\
  newCalls w r2.2 = [GetManifestWork "west" "app1-ns-pv-mw";
                     GetManifestWork "west" "app1-ns-pv-mw"].
Proof.
  cbn zeta.
  assert (isSubsriptionPausedForDR (sub_Labels subPaused) = true) as Hpaused
    by (vm_compute; reflexivity).
  assert (manifestWorks (worldOf [subPaused] [pvWorkPending])
            !! (findNextHomeCluster avrWest subPaused,
                ManifestWorkName (sub_Name subPaused) (sub_Namespace subPaused) MWTypePV)
          = Some pvWorkPending) as Hfound by (vm_compute; reflexivity).
  assert (findNextHomeCluster avrWest subPaused <> "") as Hne
    by (vm_compute; discriminate).
  split_and!; [exact Hpaused|exact Hfound|..];
    apply (proj2 (processSubscription_restore_exists (envOf noFault ["pv1"]) avrWest subPaused
                    (worldOf [subPaused] [pvWorkPending]) pvWorkPending Hpaused Hne Hfound));
    vm_compute; reflexivity.
Defined.

Lemma processSubscription_empty_restore_witness :
  let env := envOf noFault [] in
  let w := worldOf [subPaused] [] in
  let w1 := (processPausedSubscription env avrWest subPaused w).2 in
  let r := processSubscription env avrWest subPaused w in
  isSubsriptionPausedForDR (sub_Labels subPaused) = true /\
  processPausedSubscription env avrWest subPaused w = (Ok ("west", None), w1) /\
  fault env (length (trace w1)) = false /\
  r.1 = (None, true) /\
  filter isCreate (newCalls w w1) = [] /\
  filter isUnpause (newCalls w1 r.2) =
    [UpdateSubscription
       (setLabels subPaused
          (Some {["ramendr" := "protected"; "subscription-pause" := "false";
                  "app" := "busybox"]}))].
Proof.
  cbn zeta.
  assert (isSubsriptionPausedForDR (sub_Labels subPaused) = true) as Hpaused
    by (vm_compute; reflexivity).
  assert (processPausedSubscription (envOf noFault []) avrWest subPaused
            (worldOf [subPaused] []) =
          (Ok ("west", None),
           (processPausedSubscription (envOf noFault []) avrWest subPaused
              (worldOf [subPaused] [])).2)) as Hpp by (vm_compute; reflexivity).
  destruct (processSubscription_empty_restore (envOf noFault []) avrWest subPaused
              {["ramendr" := "protected"; "subscription-pause" := "true"; "app" := "busybox"]}
              (worldOf [subPaused] []) _ "west" Hpaused eq_refl eq_refl Hpp)
    as (Hc & _ & _ & Hr & _ & Hcalls).
  split_and!; [exact Hpaused|exact Hpp|reflexivity|exact Hr|exact Hc|].
  rewrite (Hcalls eq_refl). vm_compute. reflexivity.
Defined.

(** C8 as stated fails: the backup store returns no volume record, the
    lookup of the wait step fails, and the pass ends without the update
    that unpauses; the stored subscription keeps its pause label. *)
Lemma processSubscription_empty_restore_lookup_fails :
  let env := envOf (faultAt 2) [] in
  let w := worldOf [subPaused] [] in
  let r := processSubscription env avrWest subPaused w in
  isSubsriptionPausedForDR (sub_Labels subPaused) = true /\
  S3_DownloadPVs env "s3.example" ("ns", "secret") "avr" "ns-app1" = Ok [] /\
  r.1 = (None, true) /\
  trace r.2 = [GetManifestWork "west" "app1-ns-pv-mw";
               DownloadPVs "s3.example" ("ns", "secret") "avr" "ns-app1";
               GetManifestWork "west" "app1-ns-pv-mw"] /\
  filter isUnpause (trace r.2) = [] /\
  subscriptions r.2 !! ("ns", "app1") = Some subPaused.
Proof. cbn zeta. split_and!; vm_compute; reflexivity. Qed.

Lemma processSubscriptions_spec_witness :
  let env := envOf (faultAt 6) [] in
  let r := processSubscriptions env avrWest threeSubs (worldOf threeSubs []) in
  NoDup (map sub_Name threeSubs) /\
  r.1.2 = true /\
  r.1.1 !! "app1" = Some (mkDecision "east" "west") /\
  r.1.1 !! "app3" = Some (mkDecision "west" "east").
Proof.
  cbn zeta.
  assert (NoDup (map sub_Name threeSubs)) as Hnd
    by (apply (bool_decide_unpack _); vm_compute; exact I).
  destruct (processSubscriptions_spec (envOf (faultAt 6) []) avrWest threeSubs
              (worldOf threeSubs [])) as (_ & _ & Hrq & _ & Hmem).
  split_and!; [exact Hnd| |apply (Hmem Hnd)..].
  - rewrite Hrq. vm_compute. reflexivity.
  - apply (bool_decide_unpack _). vm_compute. exact I.
  - apply (bool_decide_unpack _). vm_compute. exact I.
Defined.

(** Partial-failure isolation on three subscriptions: the second fails
    on the read of its placement rule, the first and the third get their
    decisions, and the pass asks for a requeue. *)
Example processSubscriptions_isolation :
  (passOutcomes (envOf (faultAt 6) []) avrWest threeSubs (worldOf threeSubs [])).1 =
  [("app1", Decided (mkDecision "east" "west"));
   ("app2", RequeueOutcome);
   ("app3", Decided (mkDecision "west" "east"))].
Proof. vm_compute. reflexivity. Qed.

Lemma Reconcile_status_write_witness :
  let env := envOf noFault [] in
  let w := worldOf [subEast] [] in
  let r := Reconcile env ("ns", "avr") w in
  (Client_Get_AVR env ("ns", "avr") w).1 = Ok avrWest /\
  (Client_List_Subscriptions env "ns" (called w (GetAVR "ns" "avr"))).1 = Ok [subEast] /\
  (exists written,
     filter isStatusWrite (newCalls w r.2) = [StatusUpdateAVR written] /\
     avr_Decisions written = Some {["app1" := mkDecision "east" "west"]}) /\
  r.1 = (mkResult false, None) /\
  (exists after,
     avrs r.2 !! ("ns", "avr") = Some after /\
     avr_Decisions after = Some {["app1" := mkDecision "east" "west"]}).
Proof.
  cbn zeta.
  assert ((Client_Get_AVR (envOf noFault []) ("ns", "avr") (worldOf [subEast] [])).1
          = Ok avrWest) as Hget by (vm_compute; reflexivity).
  assert ((Client_List_Subscriptions (envOf noFault []) (avr_Namespace avrWest)
             (called (worldOf [subEast] []) (GetAVR ("ns", "avr").1 ("ns", "avr").2))).1
          = Ok [subEast]) as Hlist by (vm_compute; reflexivity).
  destruct (proj2 (proj2 (Reconcile_status_write (envOf noFault []) ("ns", "avr")
                            (worldOf [subEast] []))) avrWest [subEast] Hget Hlist)
    as [_ Hwrite].
  destruct Hwrite as (written & Hcalls & _ & Hdec & Hok & _); [vm_compute; discriminate|].
  destruct (Hok eq_refl) as (Hres & stored & after & _ & Havrs & Hafter & _).
  split_and!; [exact Hget|exact Hlist| | |].
  - exists written. split; [exact Hcalls|]. rewrite Hdec. vm_compute. reflexivity.
  - rewrite Hres. vm_compute. reflexivity.
  - exists after. split; [rewrite Havrs; apply lookup_insert_eq|].
    rewrite Hafter. vm_compute. reflexivity.
Defined.

(** A pass with nothing to decide writes no status: the subscription is
    paused and its restore bundle is not applied yet. *)
Example Reconcile_no_decision :
  let r := Reconcile (envOf noFault []) ("ns", "avr") (worldOf [subPaused] [pvWorkPending]) in
  r.1 = (mkResult true, None) /\
  trace r.2 = [GetAVR "ns" "avr"; ListSubscriptions "ns";
               GetManifestWork "west" "app1-ns-pv-mw"].
Proof. cbn zeta. split; vm_compute; reflexivity. Qed.

(** * Further properties of the controller *)

(** ** Names of the work bundles *)

Lemma list_ascii_append a b :
  list_ascii_of_string (a +:+ b) = list_ascii_of_string a ++ list_ascii_of_string b.
Proof. induction a as [|c a IH]; [done|]. simpl. by f_equal. Qed.

Lemma list_ascii_inj s t : list_ascii_of_string s = list_ascii_of_string t -> s = t.
Proof.
  intros H. rewrite <- (string_of_list_ascii_of_string s), H.
  apply string_of_list_ascii_of_string.
Qed.

Lemma append_inj_r s1 s2 t : s1 +:+ t = s2 +:+ t -> s1 = s2.
Proof.
  intros H. apply list_ascii_inj.
  apply (f_equal list_ascii_of_string) in H. rewrite !list_ascii_append in H.
  by apply app_inv_tail in H.
Qed.

Lemma ManifestWorkName_suffix name namespace mwType :
  ManifestWorkName name namespace mwType =
  (name +:+ "-" +:+ namespace +:+ "-" +:+ mwType) +:+ "-mw".
Proof.
  unfold ManifestWorkName.
  apply list_ascii_inj. by rewrite !list_ascii_append, <- !app_assoc.
Qed.

Lemma ManifestWorkName_not_roles name namespace mwType :
  ManifestWorkName name namespace mwType <> "ramendr-vrg-roles".
Proof.
  rewrite ManifestWorkName_suffix. intros H.
  apply (f_equal list_ascii_of_string) in H. rewrite list_ascii_append in H.
  change (list_ascii_of_string "ramendr-vrg-roles")
    with (list_ascii_of_string "ramendr-vrg-ro" ++ list_ascii_of_string "les") in H.
  apply app_inj_2 in H as [_ H]; [|done]. discriminate H.
Qed.

(** X1: the name of a work bundle determines the subscription name once
    the namespace and the type are fixed; the bundles of type vrg and pv of
    one subscription have different names; and no such name is the name of
    the roles bundle. *)
Theorem ManifestWorkName_distinct :
  (forall name1 name2 namespace mwType,
     ManifestWorkName name1 namespace mwType = ManifestWorkName name2 namespace mwType ->
     name1 = name2) /\
  (forall name namespace,
     ManifestWorkName name namespace MWTypeVRG <> ManifestWorkName name namespace MWTypePV) /\
  (forall name namespace mwType,
     ManifestWorkName name namespace mwType <> "ramendr-vrg-roles").
Proof.
  split_and!.
  - intros name1 name2 namespace mwType H. unfold ManifestWorkName in H.
    by apply append_inj_r in H.
  - intros name namespace H. unfold ManifestWorkName in H.
    do 4 apply (String.app_inj _) in H. discriminate H.
  - apply ManifestWorkName_not_roles.
Qed.

(** ** More on the condition evaluator *)

(** X2: getMostRecentConditions fails on the empty slice only (the read
    of its first element); on any other it leaves the slice a descending
    reordering of itself and returns the leading run of that slice: the
    conditions from the first one up to, and without, the first whose
    timestamp is not [==] to that of the first.  The first one carries the
    maximum instant.  When conditions of one instant carry timestamps
    that are [==], the run is exactly the conditions at the maximum
    instant, in the order of the slice. *)
Theorem getMostRecentConditions_spec (conditions : list Condition) :
  (getMostRecentConditions conditions = None <-> conditions = []) /\
  (forall sorted recent,
     getMostRecentConditions conditions = Some (sorted, recent) ->
     sorted ≡ₚ conditions /\ descending sorted /\
     exists c0 rest,
       sorted = recent ++ rest /\ head recent = Some c0 /\
       isMaxTimestamp (condInstant c0) conditions /\
       Forall (fun c => cond_LastTransitionTime c = cond_LastTransitionTime c0) recent /\
       (forall c, head rest = Some c ->
          cond_LastTransitionTime c <> cond_LastTransitionTime c0) /\
       (tiesIdentical conditions ->
        recent = filter (fun c => condInstant c = condInstant c0) sorted /\
        recent ≡ₚ filter (fun c => condInstant c = condInstant c0) conditions)).
Proof.
  pose proof (sortSlice_perm moreRecent conditions) as Hp.
  pose proof (sortSlice_descending conditions) as Hd.
  unfold getMostRecentConditions.
  destruct (sortSlice moreRecent conditions) as [|c0 rest0] eqn:Hs.
  - apply Permutation_nil_l in Hp. subst. split; [done|]. intros ?? [=].
  - split.
    + split; [done|]. intros ->. by apply Permutation_nil_r in Hp.
    + pose proof (descending_head_max _ _ Hd) as Hmax.
      destruct (keepMostRecent_prefix (cond_LastTransitionTime c0) (c0 :: rest0))
        as (rest & Hsplit & Hall & Hrest).
      assert (head (keepMostRecent (cond_LastTransitionTime c0) (c0 :: rest0)) = Some c0)
        as Hhead by (cbn [keepMostRecent]; by rewrite decide_True).
      assert (tiesIdentical conditions ->
              keepMostRecent (cond_LastTransitionTime c0) (c0 :: rest0) =
              filter (fun c => condInstant c = condInstant c0) (c0 :: rest0)) as Hfilter.
      { intros Hties. apply keepMostRecent_filter; [done|apply Forall_forall, Hmax|].
        intros c Hc Hi. apply Hties; [by rewrite <- Hp|rewrite <- Hp; left|done]. }
      set (recent0 := keepMostRecent _ _) in *. clearbody recent0.
      intros sorted recent [= <- <-]. split_and!; [done..|].
      exists c0, rest. split_and!; [done|done| |done|done|].
      * by apply (isMaxTimestamp_perm _ _ _ Hp).
      * intros Hties. rewrite (Hfilter Hties). split; [done|by rewrite Hp].
Qed.

Lemma isMaxTimestamp_older T older conditions :
  Forall (fun o => exists c, c ∈ conditions /\ condInstant o < condInstant c) older ->
  isMaxTimestamp T (older ++ conditions) <-> isMaxTimestamp T conditions.
Proof.
  intros Hold. rewrite Forall_forall in Hold. unfold isMaxTimestamp. split.
  - intros [(c & Hc & HT) Hle]. split.
    + apply elem_of_app in Hc as [Hc|Hc]; [|by exists c].
      destruct (Hold _ Hc) as (c' & Hc' & Hlt).
      assert (condInstant c' <= T); [|lia].
      apply Hle, elem_of_app. by right.
    + intros d Hd. apply Hle, elem_of_app. by right.
  - intros [(c & Hc & HT) Hle]. split.
    + exists c. split; [|done]. apply elem_of_app. by right.
    + intros d Hd. apply elem_of_app in Hd as [Hd|Hd]; [|by apply Hle].
      destruct (Hold _ Hd) as (c' & Hc' & Hlt). apply Hle in Hc'. lia.
Qed.

(** An older condition is not at the maximum timestamp. *)
Lemma older_not_max T older conditions o :
  Forall (fun o => exists c, c ∈ conditions /\ condInstant o < condInstant c) older ->
  isMaxTimestamp T conditions -> o ∈ older -> condInstant o <> T.
Proof.
  intros Hold [_ Hle] Ho. rewrite Forall_forall in Hold.
  destruct (Hold _ Ho) as (c' & Hc' & Hlt). apply Hle in Hc'. lia.
Qed.

Lemma trueAt_older type T older conditions :
  Forall (fun o => exists c, c ∈ conditions /\ condInstant o < condInstant c) older ->
  isMaxTimestamp T conditions ->
  trueAt type T (older ++ conditions) <-> trueAt type T conditions.
Proof.
  intros Hold HT. unfold trueAt. split.
  - intros (c & Hc & Hi & H). exists c. split; [|done].
    apply elem_of_app in Hc as [Hc|Hc]; [|done].
    by apply (older_not_max T _ _ _ Hold HT) in Hc.
  - intros (c & Hc & H). exists c. split; [|done]. apply elem_of_app. by right.
Qed.

(** Timestamps of one location tie only when they are [==]. *)
Lemma oneLocation_tiesIdentical z conditions :
  Forall (fun c => location (cond_LastTransitionTime c) = z) conditions ->
  tiesIdentical conditions.
Proof.
  rewrite Forall_forall. intros Hz c d Hc Hd Hi.
  apply Hz in Hc, Hd. unfold condInstant in Hi.
  destruct (cond_LastTransitionTime c), (cond_LastTransitionTime d). cbn in *. congruence.
Qed.

(** X3: on a list whose conditions of one instant carry timestamps that
    are [==], conditions older than some condition of the list never change
    the answer of the evaluator, wherever they stand in the list and
    whatever their locations; and a condition of type Degraded with status
    true that is at least as recent as every other makes the answer
    false. *)
Theorem IsManifestInAppliedState_history (mw : ManifestWork) :
  tiesIdentical (mw_Conditions mw) ->
  (forall older,
     Forall (fun o => exists c, c ∈ mw_Conditions mw /\ condInstant o < condInstant c)
            older ->
     forall conditions, conditions ≡ₚ older ++ mw_Conditions mw ->
     (IsManifestInAppliedState (setConditions mw conditions)).1 =
     (IsManifestInAppliedState mw).1) /\
  (forall degraded,
     degraded ∈ mw_Conditions mw ->
     cond_Type degraded = WorkDegraded -> cond_Status degraded = ConditionTrue ->
     (forall c, c ∈ mw_Conditions mw -> condInstant c <= condInstant degraded) ->
     (IsManifestInAppliedState mw).1 = false).
Proof.
  intros Hties. split.
  - intros older Hold conditions Hp.
    destruct (decide (mw_Conditions mw = [])) as [Hnil|Hne].
    { rewrite Hnil in *. destruct older as [|o older].
      - apply Permutation_nil_r in Hp. subst.
        unfold IsManifestInAppliedState. cbn [mw_Conditions setConditions]. by rewrite Hnil.
      - apply Forall_cons in Hold as [(c & Hc & _) _]. by apply elem_of_nil in Hc. }
    destruct (isMaxTimestamp_exists _ Hne) as (T & HT).
    assert ((IsManifestInAppliedState (setConditions mw conditions)).1 = true
            <-> (IsManifestInAppliedState mw).1 = true) as Hiff.
    { rewrite (IsManifestInAppliedState_at mw T HT)
        by (intros c d Hc Hd Hi Hi'; apply Hties; [done|done|congruence]).
      rewrite (IsManifestInAppliedState_at (setConditions mw conditions) T).
      - cbn [mw_Conditions setConditions].
        assert (forall type, trueAt type T conditions <-> trueAt type T (mw_Conditions mw))
          as Htrue.
        { intros type. rewrite <- (trueAt_older type T older (mw_Conditions mw)) by done.
          split; apply trueAt_perm; [done|by symmetry]. }
        split; intros [Ha Hd]; (split; [by apply Htrue|intros Hd'; by apply Hd, Htrue]).
      - cbn [mw_Conditions setConditions]. symmetry in Hp.
        apply (isMaxTimestamp_perm _ _ _ Hp). by apply isMaxTimestamp_older.
      - cbn [mw_Conditions setConditions]. intros c d Hc Hd Hi Hi'.
        rewrite Hp in Hc, Hd.
        apply elem_of_app in Hc as [Hc|Hc];
          [by apply (older_not_max T _ _ _ Hold HT) in Hc|].
        apply elem_of_app in Hd as [Hd|Hd];
          [by apply (older_not_max T _ _ _ Hold HT) in Hd|].
        apply Hties; [done|done|congruence]. }
    destruct (IsManifestInAppliedState (setConditions mw _)).1,
      (IsManifestInAppliedState mw).1; try done; [symmetry|]; by apply Hiff.
  - intros degraded Hin Htype Hstatus Hmax.
    destruct (IsManifestInAppliedState mw).1 eqn:Hr; [|done].
    apply IsManifestInAppliedState_true in Hr as (T & HT & _ & Hd); [|done].
    exfalso. apply Hd. exists degraded. split_and!; try done.
    eapply isMaxTimestamp_unique; [|exact HT]. split; [by exists degraded|done].
Qed.

Lemma IsManifestInAppliedState_history_witness :
  tiesIdentical [mkCondition "Applied" "True" (atServer 5)] /\
  (IsManifestInAppliedState
     (setConditions (mwOfConditions [mkCondition "Applied" "True" (atServer 5)])
        [mkCondition "Degraded" "True" (elsewhere 3);
         mkCondition "Applied" "True" (atServer 5)])).1 =
  (IsManifestInAppliedState (mwOfConditions [mkCondition "Applied" "True" (atServer 5)])).1 /\
  tiesIdentical conditionsTie /\
  (IsManifestInAppliedState (mwOfConditions conditionsTie)).1 = false.
Proof.
  assert (tiesIdentical [mkCondition "Applied" "True" (atServer 5)]) as Hone
    by (apply (oneLocation_tiesIdentical 0); repeat constructor).
  assert (tiesIdentical conditionsTie) as Htie
    by (apply (oneLocation_tiesIdentical 0); repeat constructor).
  split_and!; [exact Hone| |exact Htie|].
  - apply (proj1 (IsManifestInAppliedState_history
                    (mwOfConditions [mkCondition "Applied" "True" (atServer 5)]) Hone)
             [mkCondition "Degraded" "True" (elsewhere 3)]); [|done].
    constructor; [|constructor]. exists (mkCondition "Applied" "True" (atServer 5)).
    split; [left|cbn; lia].
  - apply (proj2 (IsManifestInAppliedState_history (mwOfConditions conditionsTie) Htie)
             (mkCondition "Degraded" "True" (atServer 5))); [right; left|done|done|].
    intros c Hc. cbn in Hc. apply elem_of_cons in Hc as [->|Hc]; [cbn; lia|].
    apply list_elem_of_singleton in Hc as ->. cbn. lia.
Defined.

(** X24: on a list whose conditions of one instant carry timestamps
    that are [==], as when all are in one location, the applied-state
    evaluator returns false on the empty list; otherwise it returns true
    exactly when, among the conditions whose timestamp is the maximum of
    the list, one has type Applied and status true and none has type
    Degraded and status true; and the answer is the same for every
    reordering of the list. *)
Theorem IsManifestInAppliedState_spec (mw : ManifestWork) :
  tiesIdentical (mw_Conditions mw) ->
  (mw_Conditions mw = [] -> (IsManifestInAppliedState mw).1 = false) /\
  ((IsManifestInAppliedState mw).1 = true <->
   exists T, isMaxTimestamp T (mw_Conditions mw) /\
             trueAt WorkApplied T (mw_Conditions mw) /\
             ~ trueAt WorkDegraded T (mw_Conditions mw)) /\
  (forall mw', mw_Conditions mw ≡ₚ mw_Conditions mw' ->
               (IsManifestInAppliedState mw').1 = (IsManifestInAppliedState mw).1).
Proof.
  intros Hties. split_and!.
  - intros Hnil. unfold IsManifestInAppliedState. by rewrite Hnil.
  - by apply IsManifestInAppliedState_true.
  - intros mw'. by apply IsManifestInAppliedState_perm.
Qed.

Lemma IsManifestInAppliedState_spec_witness :
  tiesIdentical conditionsOlderDegraded /\
  (IsManifestInAppliedState (mwOfConditions conditionsOlderDegraded)).1 = true /\
  (IsManifestInAppliedState (mwOfConditions conditionsOlderFirst)).1 =
  (IsManifestInAppliedState (mwOfConditions conditionsOlderDegraded)).1.
Proof.
  assert (tiesIdentical conditionsOlderDegraded) as Hties
    by (apply (oneLocation_tiesIdentical 0); repeat constructor).
  destruct (IsManifestInAppliedState_spec (mwOfConditions conditionsOlderDegraded) Hties)
    as (_ & Htrue & Hperm).
  split_and!; [exact Hties| |].
  - apply Htrue. exists 5. split_and!.
    + split.
      * eexists. split; [left|reflexivity].
      * intros c Hc. repeat (apply elem_of_cons in Hc as [->|Hc]; [cbn; lia|]).
        by apply elem_of_nil in Hc.
    + eexists. split; [left|by split_and!].
    + intros (c & Hc & Hi & Ht & _).
      repeat (apply elem_of_cons in Hc as [->|Hc]; [cbn in *; (discriminate || lia)|]).
      by apply elem_of_nil in Hc.
  - apply Hperm. apply perm_swap.
Defined.

(** ** The pause labels *)

Lemma EqualFold_toLower s t : EqualFold s t = true <-> toLower s = toLower t.
Proof.
  revert t. induction s as [|a s IH]; intros [|b t]; cbn; try done.
  rewrite andb_true_iff, Ascii.eqb_eq, IH. split.
  - by intros [-> ->].
  - by intros [= -> ->].
Qed.

Lemma index_Some (l : gmap string string) k v : l !! k = Some v -> index l k = v.
Proof. unfold index. by intros ->. Qed.

(** X4: a subscription is paused for DR exactly when its label map is
    not nil and holds both the ramendr label, with a value that is
    protected up to the case of its letters, and the pause label, with a
    value that is true up to case; a missing label means not paused. *)
Theorem isSubsriptionPausedForDR_spec (labels : option (gmap string string)) :
  isSubsriptionPausedForDR labels = true <->
  exists l state pause,
    labels = Some l /\
    l !! RamenDRLabelName = Some state /\ toLower state = "protected" /\
    l !! LabelSubscriptionPause = Some pause /\ toLower pause = "true".
Proof.
  unfold isSubsriptionPausedForDR. destruct labels as [l|].
  - rewrite !andb_true_iff, !EqualFold_toLower. unfold index. split.
    + intros [[[_ Hs] _] Hp].
      destruct (l !! RamenDRLabelName) as [state|] eqn:Hstate; [|discriminate Hs].
      destruct (l !! LabelSubscriptionPause) as [pause|] eqn:Hpause; [|discriminate Hp].
      exists l, state, pause. split_and!; [done|done|exact Hs|done|exact Hp].
    + intros (l' & state & pause & [= <-] & -> & Hs & -> & Hp). cbn.
      split_and!; try done.
      * destruct state; [discriminate Hs|done].
      * destruct pause; [discriminate Hp|done].
  - split; [done|]. by intros (? & ? & ? & ? & _).
Qed.

Lemma unpaused_not_paused (labels : gmap string string) :
  isSubsriptionPausedForDR (Some (<[LabelSubscriptionPause := "false"]> labels)) = false.
Proof.
  unfold isSubsriptionPausedForDR.
  rewrite (index_Some _ LabelSubscriptionPause "false") by apply lookup_insert_eq.
  by rewrite andb_false_r.
Qed.

Section UnpauseEffect.
Context (env : Env).

(** X5: after unpause the subscription in memory is no longer paused
    for DR, whatever its labels were; when the update succeeds the
    subscription stored under its key is that unpaused one and the others
    are untouched, and when it fails the stored subscriptions are as
    before. *)
Theorem unpauseSubscription_unpauses
    (subscription : Subscription) (labels : gmap string string) (w : World) :
  sub_Labels subscription = Some labels ->
  let r := unpauseSubscription env subscription w in
  isSubsriptionPausedForDR (sub_Labels r.1.2) = false /\
  (r.1.1 = None ->
   subscriptions r.2 !! subKey subscription = Some r.1.2 /\
   forall key, key <> subKey subscription ->
     subscriptions r.2 !! key = subscriptions w !! key) /\
  (r.1.1 <> None -> subscriptions r.2 = subscriptions w).
Proof.
  intros Hl. cbn zeta. rewrite (unpauseSubscription_run env _ _ _ Hl). cbn [fst snd].
  split; [apply unpaused_not_paused|].
  rewrite Client_Update_Subscription_run.
  change (subKey (setLabels subscription _)) with (subKey subscription).
  destruct (fault env _); [split; [done|by intros _]|].
  destruct (subscriptions w !! subKey subscription); cbn [fst snd].
  - split; [|done]. intros _. cbn. split; [apply lookup_insert_eq|].
    intros key Hkey. by apply lookup_insert_ne.
  - split; [done|by intros _].
Qed.

End UnpauseEffect.

Lemma unpauseSubscription_unpauses_witness :
  let r := unpauseSubscription (envOf noFault []) subPaused (worldOf [subPaused] []) in
  isSubsriptionPausedForDR (sub_Labels subPaused) = true /\
  r.1.1 = None /\
  isSubsriptionPausedForDR (sub_Labels r.1.2) = false /\
  subscriptions r.2 !! subKey subPaused = Some r.1.2.
Proof.
  cbn zeta.
  destruct (unpauseSubscription_unpauses (envOf noFault []) subPaused _
              (worldOf [subPaused] []) eq_refl) as (Hnot & Hok & _).
  assert ((unpauseSubscription (envOf noFault []) subPaused (worldOf [subPaused] [])).1.1
          = None) as Hnone by (vm_compute; reflexivity).
  split_and!; [vm_compute; reflexivity|exact Hnone|exact Hnot|exact (proj1 (Hok Hnone))].
Defined.

(** ** Lookups of work bundles *)

Lemma sameStore_refl w : sameStore w w.
Proof. by repeat split. Qed.

Lemma sameStore_called w c : sameStore w (called w c).
Proof. by repeat split. Qed.

Lemma sameStore_trans w1 w2 w3 : sameStore w1 w2 -> sameStore w2 w3 -> sameStore w1 w3.
Proof.
  intros (H1 & H2 & H3 & H4) (H1' & H2' & H3' & H4').
  repeat split; congruence.
Qed.

Section Lookups.
Context (env : Env).

(** X6: findManifestWork with an empty cluster name makes no call and
    returns nil without error; otherwise it makes one read, of the bundle
    named after the subscription and the type in the namespace of the
    cluster, and returns the bundle read, nil without error when there is
    none, and an error when the read fails; it never changes a stored
    object. *)
Theorem findManifestWork_spec
    (subscription : Subscription) (homeCluster mwType : string) (w : World) :
  let mwName := ManifestWorkName (sub_Name subscription) (sub_Namespace subscription) mwType in
  let r := findManifestWork env subscription homeCluster mwType w in
  sameStore w r.2 /\
  (homeCluster = "" -> r = (Ok None, w)) /\
  (homeCluster <> "" ->
   newCalls w r.2 = [GetManifestWork homeCluster mwName] /\
   (fault env (length (trace w)) = true -> isErr r.1 = true) /\
   (fault env (length (trace w)) = false ->
    r.1 = Ok (mwAt (homeCluster, mwName) <$> manifestWorks w !! (homeCluster, mwName)))).
Proof.
  cbn zeta. destruct (decide (homeCluster = "")) as [->|Hne].
  - split_and!; [apply sameStore_refl|done|done].
  - rewrite findManifestWork_run by done. cbn [fst snd].
    split_and!; [apply sameStore_called|done|]. intros _. split_and!.
    + by apply newCalls_app.
    + by intros ->.
    + intros ->. by destruct (manifestWorks w !! _).
Qed.

(** X7: deleteExistingManfiestWork makes no call when no decision is
    recorded for the subscription.  With a decision recorded, a nil return
    means that no vrg bundle of the subscription is left in the namespace
    of the recorded home cluster; a bundle that was not there is not an
    error; and no bundle under any other key, and no other stored object,
    is changed. *)
Theorem deleteExistingManfiestWork_spec
    (avr : ApplicationVolumeReplication) (subscription : Subscription) (w : World) :
  let r := deleteExistingManfiestWork env avr subscription w in
  (lookupDecision avr (sub_Name subscription) = None -> r = (None, w)) /\
  (forall d, lookupDecision avr (sub_Name subscription) = Some d ->
   let key := (HomeCluster d,
               ManifestWorkName (sub_Name subscription) (sub_Namespace subscription)
                 MWTypeVRG) in
   (r.1 = None -> manifestWorks r.2 !! key = None) /\
   (manifestWorks w !! key = None -> fault env (length (trace w)) = false ->
    r = (None, called w (GetManifestWork key.1 key.2))) /\
   (forall k, k <> key -> manifestWorks r.2 !! k = manifestWorks w !! k) /\
   avrs r.2 = avrs w /\ subscriptions r.2 = subscriptions w /\
   placementRules r.2 = placementRules w).
Proof.
  cbn zeta. unfold deleteExistingManfiestWork. split.
  - by intros ->.
  - intros d ->. rewrite bind_run, Client_Get_ManifestWork_run. cbn [fst snd].
    destruct (fault env (length (trace w))); [by split_and!|].
    destruct (manifestWorks w !! _) as [stored|] eqn:Hstored; [|by split_and!].
    rewrite Client_Delete_ManifestWork_run. unfold mwKey, mwAt. cbn [mw_Name mw_Namespace fst snd].
    destruct (fault env _); [by split_and!|].
    cbn [manifestWorks called setTrace]. rewrite Hstored. cbn.
    split_and!; try done.
    + intros _. apply lookup_delete_eq.
    + intros k Hk. by apply lookup_delete_ne.
Qed.

(** X8: vrgManifestWorkAlreadyExists answers true exactly when a
    decision is recorded for the subscription, its home cluster is not the
    empty name, and the read finds the vrg bundle of the subscription
    there; it never answers true together with an error, makes no call
    when no decision is recorded, and never changes a stored object. *)
Theorem vrgManifestWorkAlreadyExists_spec
    (avr : ApplicationVolumeReplication) (subscription : Subscription) (w : World) :
  let r := vrgManifestWorkAlreadyExists env avr subscription w in
  sameStore w r.2 /\
  (r.1.1 = true -> r.1.2 = None) /\
  (lookupDecision avr (sub_Name subscription) = None -> r = ((false, None), w)) /\
  (r.1.1 = true <->
   exists d, lookupDecision avr (sub_Name subscription) = Some d /\
     HomeCluster d <> "" /\
     fault env (length (trace w)) = false /\
     is_Some (manifestWorks w !! (HomeCluster d,
       ManifestWorkName (sub_Name subscription) (sub_Namespace subscription) MWTypeVRG))).
Proof.
  cbn zeta. unfold vrgManifestWorkAlreadyExists, lookupDecision.
  destruct (avr_Decisions avr) as [decisions|];
    [destruct (decisions !! sub_Name subscription) as [d|]|].
  - rewrite bind_run.
    pose proof (findManifestWork_run env subscription (HomeCluster d) MWTypeVRG w) as Hrun.
    destruct (decide (HomeCluster d = "")) as [Hd|Hd].
    + unfold findManifestWork. rewrite Hd. cbn.
      split_and!; [apply sameStore_refl|done|done|].
      split; [done|]. intros (d' & [= <-] & Hne & _). done.
    + rewrite (Hrun Hd). cbn [fst snd].
      destruct (fault env (length (trace w))).
      { cbn. split_and!; [apply sameStore_called|done|done|].
        split; [done|]. by intros (d' & _ & _ & ? & _). }
      destruct (manifestWorks w !! _) as [stored|] eqn:Hstored; cbn.
      * split_and!; [apply sameStore_called|done|done|].
        split; [|done]. intros _. exists d. by rewrite Hstored.
      * split_and!; [apply sameStore_called|done|done|].
        split; [done|]. intros (d' & [= <-] & _ & _ & Hsome).
        rewrite Hstored in Hsome. by destruct Hsome.
  - cbn. split_and!; [apply sameStore_refl|done|done|].
    split; [done|]. by intros (d' & ? & _).
  - cbn. split_and!; [apply sameStore_refl|done|done|].
    split; [done|]. by intros (d' & ? & _).
Qed.

(** X9: waitForManifest handed a bundle makes no call and asks to wait
    exactly when the bundle is not applied.  Handed none, it reads the
    restore bundle on the cluster once: a failed read means wait, no
    bundle means no wait, and a bundle means wait exactly when it is not
    applied.  It never changes a stored object. *)
Theorem waitForManifest_spec
    (subscription : Subscription) (clusterName : string) (w : World) :
  let key := (clusterName,
              ManifestWorkName (sub_Name subscription) (sub_Namespace subscription) MWTypePV) in
  (forall mw, waitForManifest env subscription clusterName (Some mw) w =
              (negb (IsManifestInAppliedState mw).1, w)) /\
  (clusterName = "" -> waitForManifest env subscription clusterName None w = (false, w)) /\
  (clusterName <> "" ->
   let r := waitForManifest env subscription clusterName None w in
   r.2 = called w (GetManifestWork key.1 key.2) /\
   (fault env (length (trace w)) = true -> r.1 = true) /\
   (fault env (length (trace w)) = false ->
    r.1 = match manifestWorks w !! key with
          | Some stored => negb (IsManifestInAppliedState (mwAt key stored)).1
          | None => false
          end)).
Proof.
  cbn zeta. unfold waitForManifest. split_and!.
  - intros mw. rewrite bind_run. cbn [ret fst snd].
    by destruct (IsManifestInAppliedState mw).1.
  - intros ->. rewrite bind_run. done.
  - intros Hne. rewrite bind_run, findManifestWork_run by done. cbn [fst snd].
    destruct (fault env (length (trace w))); [by split_and!|].
    destruct (manifestWorks w !! _) as [stored|]; cbn [fst snd].
    + split_and!; try done; by destruct (IsManifestInAppliedState _).1.
    + by split_and!.
Qed.

End Lookups.

(** ** Convergence of a work bundle, once more *)

Section ConvergenceMore.
Context (env : Env).

(** What a nil return of the convergence step leaves on the server. *)
Lemma createOrUpdateManifestWork_stored mw ns w :
  let r := createOrUpdateManifestWork env mw ns w in
  r.1 = None -> mw_Namespace mw = ns ->
  (exists stored, manifestWorks r.2 !! (ns, mw_Name mw) = Some stored /\
                  mw_Spec stored = mw_Spec mw /\
                  forall old, manifestWorks w !! (ns, mw_Name mw) = Some old ->
                    mw_Labels stored = mw_Labels old /\
                    mw_Conditions stored = mw_Conditions old).
Proof.
  cbn zeta. rewrite createOrUpdateManifestWork_run, Client_Get_ManifestWork_run.
  cbn [fst snd]. intros Hok Hns.
  destruct (fault env (length (trace w))); [done|].
  destruct (manifestWorks w !! (ns, mw_Name mw)) as [old|] eqn:Hold.
  - destruct (decide (mw_Spec (mwAt (ns, mw_Name mw) old) <> mw_Spec mw)) as [Hne|Heq].
    + rewrite Client_Update_ManifestWork_run in *.
      unfold mwKey, setSpec, mwAt in *. cbn [mw_Name mw_Namespace fst snd] in *.
      destruct (fault env _); [done|].
      cbn [manifestWorks called setTrace] in *. rewrite Hold in *.
      cbn. rewrite lookup_insert_eq. eexists. split_and!; [done|done|].
      by intros ? [= <-].
    + cbn. rewrite Hold. exists old. split_and!; [done| |by intros ? [= <-]].
      destruct (decide (mw_Spec old = mw_Spec mw)) as [|Hn]; [done|].
      exfalso. apply Heq. exact Hn.
  - cbn [negb IsNotFound] in *. rewrite Client_Create_ManifestWork_run in *.
    unfold mwKey in *. rewrite Hns in *.
    destruct (fault env _); [done|].
    cbn [manifestWorks called setTrace] in *. rewrite Hold in *.
    cbn. rewrite lookup_insert_eq. exists mw. by split_and!.
Qed.

(** The convergence step touches the bundle under one key at most. *)
Lemma createOrUpdateManifestWork_frame mw ns w :
  let r := createOrUpdateManifestWork env mw ns w in
  avrs r.2 = avrs w /\ subscriptions r.2 = subscriptions w /\
  placementRules r.2 = placementRules w /\
  (forall k, k <> (ns, mw_Name mw) -> k <> mwKey mw ->
     manifestWorks r.2 !! k = manifestWorks w !! k) /\
  exists cs, trace r.2 = trace w ++ GetManifestWork ns (mw_Name mw) :: cs /\
    forallb (fun c => isCreate c || isUpdate c) cs = true /\ (length cs <= 1)%nat.
Proof.
  cbn zeta. rewrite createOrUpdateManifestWork_run, Client_Get_ManifestWork_run.
  cbn [fst snd].
  destruct (fault env (length (trace w))).
  { cbn. split_and!; try done. exists []. split_and!; [done|done|cbn; lia]. }
  destruct (manifestWorks w !! (ns, mw_Name mw)) as [old|] eqn:Hold.
  - destruct (decide _).
    + rewrite Client_Update_ManifestWork_run.
      unfold mwKey, setSpec, mwAt. cbn [mw_Name mw_Namespace fst snd].
      destruct (fault env _);
        [|cbn [manifestWorks called setTrace]; rewrite Hold]; cbn;
        (split_and!; try done;
         [..|eexists [_]; split_and!;
              [by rewrite <- app_assoc|done|cbn; lia]]).
      intros k Hk _. by rewrite lookup_insert_ne.
    + cbn. split_and!; try done. exists []. split_and!; [done|done|cbn; lia].
  - cbn [negb IsNotFound]. rewrite Client_Create_ManifestWork_run.
    destruct (fault env _); [|destruct (manifestWorks _ !! mwKey mw)]; cbn;
      (split_and!; try done;
       [..|eexists [_]; split_and!;
            [by rewrite <- app_assoc|done|cbn; lia]]).
    intros k _ Hk. by rewrite lookup_insert_ne.
Qed.

(** Over a stored bundle with the desired spec the step is one read. *)
Lemma createOrUpdateManifestWork_noop mw ns w stored :
  manifestWorks w !! (ns, mw_Name mw) = Some stored ->
  mw_Spec stored = mw_Spec mw ->
  createOrUpdateManifestWork env mw ns w =
  (if fault env (length (trace w)) then Some (Failure "failed to fetch ManifestWork") else None,
   called w (GetManifestWork ns (mw_Name mw))).
Proof.
  intros Hstored Hspec.
  rewrite createOrUpdateManifestWork_run, Client_Get_ManifestWork_run. cbn [fst snd].
  destruct (fault env _); [done|]. rewrite Hstored.
  rewrite decide_False; [done|]. intros Hne. by apply Hne.
Qed.

Lemma createOrUpdateManifestWork_again mw ns w :
  let r := createOrUpdateManifestWork env mw ns w in
  r.1 = None -> mw_Namespace mw = ns ->
  createOrUpdateManifestWork env mw ns r.2 =
  (if fault env (length (trace r.2)) then Some (Failure "failed to fetch ManifestWork")
   else None,
   called r.2 (GetManifestWork ns (mw_Name mw))).
Proof.
  cbn zeta. intros Hok Hns.
  destruct (createOrUpdateManifestWork_stored mw ns w Hok Hns) as (stored & Hs & Hspec & _).
  by apply (createOrUpdateManifestWork_noop _ _ _ stored).
Qed.

(** X10: when the convergence step returns nil for a bundle of the
    target namespace, the server holds under that name a bundle with the
    desired spec; if a bundle was there before, its labels and conditions
    are the ones it had (the labels of the desired bundle are not
    applied).  Whatever it returns, the step makes the read and at most
    one further call, a create or an update, never a delete, and changes
    no other bundle and no other stored object. *)
Theorem createOrUpdateManifestWork_converges
    (mw : ManifestWork) (ns : string) (w : World) :
  let r := createOrUpdateManifestWork env mw ns w in
  (r.1 = None -> mw_Namespace mw = ns ->
   exists stored, manifestWorks r.2 !! (ns, mw_Name mw) = Some stored /\
     mw_Spec stored = mw_Spec mw /\
     forall old, manifestWorks w !! (ns, mw_Name mw) = Some old ->
       mw_Labels stored = mw_Labels old /\ mw_Conditions stored = mw_Conditions old) /\
  avrs r.2 = avrs w /\ subscriptions r.2 = subscriptions w /\
  placementRules r.2 = placementRules w /\
  (forall k, k <> (ns, mw_Name mw) -> k <> mwKey mw ->
     manifestWorks r.2 !! k = manifestWorks w !! k) /\
  exists cs, newCalls w r.2 = GetManifestWork ns (mw_Name mw) :: cs /\
    forallb (fun c => isCreate c || isUpdate c) cs = true /\ (length cs <= 1)%nat.
Proof.
  cbn zeta. split; [apply createOrUpdateManifestWork_stored|].
  destruct (createOrUpdateManifestWork_frame mw ns w) as (Ha & Hs & Hp & Hk & cs & Ht & Hcs).
  split_and!; try done. exists cs. split; [by apply newCalls_app|done].
Qed.

(** X11: after a nil return for a bundle of the target namespace, the
    step repeated at once makes its read and nothing else: no create, no
    update, the server unchanged, and nil again unless the read fails. *)
Theorem createOrUpdateManifestWork_idempotent
    (mw : ManifestWork) (ns : string) (w : World) :
  let r := createOrUpdateManifestWork env mw ns w in
  let r' := createOrUpdateManifestWork env mw ns r.2 in
  r.1 = None -> mw_Namespace mw = ns ->
  r'.2 = called r.2 (GetManifestWork ns (mw_Name mw)) /\
  (fault env (length (trace r.2)) = false -> r'.1 = None).
Proof.
  cbn zeta. intros Hok Hns. rewrite (createOrUpdateManifestWork_again mw ns w Hok Hns).
  cbn [fst snd]. split; [done|]. by intros ->.
Qed.

End ConvergenceMore.

(** ** Generated bundles *)

Section Generation.
Context (env : Env).

Lemma generatePVManifestFrom_Ok manifests pvList result :
  generatePVManifestFrom env manifests pvList = Ok result <->
  exists generated,
    Forall2 (fun pv manifest => jsonMarshal env (PV pv) = Ok manifest) pvList generated /\
    result = manifests ++ generated.
Proof.
  revert manifests. induction pvList as [|pv rest IH]; intros manifests; cbn.
  - split.
    + intros [= <-]. exists []. split; [constructor|by rewrite app_nil_r].
    + intros (generated & Hgen & ->). apply Forall2_nil_inv_l in Hgen as ->.
      by rewrite app_nil_r.
  - unfold generateManifest. destruct (jsonMarshal env (PV pv)) as [json|e] eqn:Hpv.
    + rewrite IH. split.
      * intros (generated & Hgen & ->). exists (json :: generated).
        split; [by constructor|by rewrite <- app_assoc].
      * intros (generated & Hgen & ->).
        apply Forall2_cons_inv_l in Hgen as (json' & generated' & Hj & Hgen & ->).
        rewrite Hpv in Hj. injection Hj as <-.
        exists generated'. split; [done|by rewrite <- app_assoc].
    + split; [done|]. intros (generated & Hgen & _).
      apply Forall2_cons_inv_l in Hgen as (json' & generated' & Hj & _).
      by rewrite Hpv in Hj.
Qed.

Lemma generatePVManifestFrom_Err manifests pvList :
  isErr (generatePVManifestFrom env manifests pvList) = true <->
  Exists (fun pv => isErr (jsonMarshal env (PV pv)) = true) pvList.
Proof.
  revert manifests. induction pvList as [|pv rest IH]; intros manifests; cbn.
  - rewrite Exists_nil. done.
  - rewrite Exists_cons. unfold generateManifest.
    destruct (jsonMarshal env (PV pv)) as [json|e]; cbn.
    + rewrite IH. split; [by right|]. by intros [|].
    + split; [by left|done].
Qed.

(** X12: generatePVManifest succeeds exactly when every volume of the
    list serialises, and then returns one manifest per volume, in the order
    of the list, each the serialisation of its volume; it fails exactly
    when some volume does not serialise, whatever the others do. *)
Theorem generatePVManifest_spec (pvList : list PersistentVolume) :
  (forall manifests,
     generatePVManifest env pvList = Ok manifests <->
     Forall2 (fun pv manifest => jsonMarshal env (PV pv) = Ok manifest) pvList manifests) /\
  (isErr (generatePVManifest env pvList) = true <->
   Exists (fun pv => isErr (jsonMarshal env (PV pv)) = true) pvList).
Proof.
  unfold generatePVManifest. split.
  - intros manifests. rewrite generatePVManifestFrom_Ok. cbn. split.
    + by intros (generated & Hgen & ->).
    + intros Hgen. by exists manifests.
  - apply generatePVManifestFrom_Err.
Qed.

(** The three bundles the controller generates are bundles of the
    cluster namespace it hands to the convergence step. *)
Lemma generatePVManifestWork_Ok name namespace homeClusterName pvList mw :
  generatePVManifestWork env name namespace homeClusterName pvList = Ok mw ->
  mw_Name mw = ManifestWorkName name namespace MWTypePV /\
  mw_Namespace mw = homeClusterName /\
  generatePVManifest env pvList = Ok (Manifests (mw_Spec mw)).
Proof.
  unfold generatePVManifestWork.
  destruct (generatePVManifest env pvList); [|done]. by intros [= <-].
Qed.

Lemma generateVRGManifestWork_Ok name namespace homeCluster s3Endpoint s3SecretName mw :
  generateVRGManifestWork env name namespace homeCluster s3Endpoint s3SecretName = Ok mw ->
  mw_Name mw = ManifestWorkName name namespace MWTypeVRG /\
  mw_Namespace mw = homeCluster.
Proof.
  unfold generateVRGManifestWork.
  destruct (generateVRGManifest env _ _ _ _); [|done]. by intros [= <-].
Qed.

Lemma generateVRGRolesManifestWork_Ok namespace mw :
  generateVRGRolesManifestWork env namespace = Ok mw ->
  mw_Name mw = "ramendr-vrg-roles" /\ mw_Namespace mw = namespace.
Proof.
  unfold generateVRGRolesManifestWork.
  destruct (generateManifest env ClusterRole); [|done].
  destruct (generateManifest env ClusterRoleBinding); [|done]. by intros [= <-].
Qed.

(** X13: each of the three wrappers of the convergence step returns
    the error of a failed generation without making any call; and when a
    wrapper has returned nil, the same wrapper called again at once with
    the same arguments makes one read and no create or update. *)
Theorem createOrUpdate_wrappers (w : World) :
  (forall namespace,
     let r := createOrUpdateVRGRolesManifestWork env namespace w in
     (isErr (generateVRGRolesManifestWork env namespace) = true -> r.2 = w /\ r.1 <> None) /\
     (r.1 = None ->
      (createOrUpdateVRGRolesManifestWork env namespace r.2).2 =
        called r.2 (GetManifestWork namespace "ramendr-vrg-roles"))) /\
  (forall name namespace homeCluster s3Endpoint s3SecretName,
     let r := createOrUpdateVRGManifestWork env name namespace homeCluster
                s3Endpoint s3SecretName w in
     (isErr (generateVRGManifestWork env name namespace homeCluster
               s3Endpoint s3SecretName) = true -> r.2 = w /\ r.1 <> None) /\
     (r.1 = None ->
      (createOrUpdateVRGManifestWork env name namespace homeCluster
         s3Endpoint s3SecretName r.2).2 =
        called r.2 (GetManifestWork homeCluster
                      (ManifestWorkName name namespace MWTypeVRG)))) /\
  (forall name namespace homeClusterName pvList,
     let r := createOrUpdatePVsManifestWork env name namespace homeClusterName pvList w in
     (isErr (generatePVManifestWork env name namespace homeClusterName pvList) = true ->
      r.2 = w /\ r.1 <> None) /\
     (r.1 = None ->
      (createOrUpdatePVsManifestWork env name namespace homeClusterName pvList r.2).2 =
        called r.2 (GetManifestWork homeClusterName
                      (ManifestWorkName name namespace MWTypePV)))).
Proof.
  split_and!.
  - intros namespace. cbn zeta. unfold createOrUpdateVRGRolesManifestWork.
    destruct (generateVRGRolesManifestWork env namespace) as [mw|e] eqn:Hgen; [|done].
    destruct (generateVRGRolesManifestWork_Ok _ _ Hgen) as [Hname Hns].
    split; [done|]. intros Hok.
    rewrite (createOrUpdateManifestWork_again env mw namespace w Hok Hns).
    by rewrite Hname.
  - intros name namespace homeCluster s3Endpoint s3SecretName. cbn zeta.
    unfold createOrUpdateVRGManifestWork.
    destruct (generateVRGManifestWork env _ _ _ _ _) as [mw|e] eqn:Hgen; [|done].
    destruct (generateVRGManifestWork_Ok _ _ _ _ _ _ Hgen) as [Hname Hns].
    split; [done|]. intros Hok.
    rewrite (createOrUpdateManifestWork_again env mw homeCluster w Hok Hns).
    by rewrite Hname.
  - intros name namespace homeClusterName pvList. cbn zeta.
    unfold createOrUpdatePVsManifestWork.
    destruct (generatePVManifestWork env _ _ _ _) as [mw|e] eqn:Hgen; [|done].
    destruct (generatePVManifestWork_Ok _ _ _ _ _ Hgen) as (Hname & Hns & _).
    split; [done|]. intros Hok.
    rewrite (createOrUpdateManifestWork_again env mw homeClusterName w Hok Hns).
    by rewrite Hname.
Qed.

End Generation.

(** ** Restore and the order of a failover pass *)

Lemma forallb_weaken {A} (f g : A -> bool) l :
  (forall x, f x = true -> g x = true) -> forallb f l = true -> forallb g l = true.
Proof.
  intros Hfg. rewrite !forallb_forall. intros Hf x Hx. by apply Hfg, Hf.
Qed.

Section Restore.
Context (env : Env).

(** X14: restorePVFromBackup starts with the download and goes on with
    reads, creates and updates of work bundles only.  When the download
    fails, or when a volume of a non-empty download does not serialise, it
    returns an error and the download is its only call: no part of a
    bundle reaches the server.  When it returns nil on a non-empty
    download, the server holds the restore bundle of the subscription in
    the namespace of the cluster, with one manifest per volume in the
    order of the download. *)
Theorem restorePVFromBackup_spec
    (avr : ApplicationVolumeReplication) (subscription : Subscription)
    (homeCluster : string) (w : World) :
  let bucket := constructBucketName env (sub_Namespace subscription) (sub_Name subscription) in
  let download := DownloadPVs (avr_S3Endpoint avr) (avr_Namespace avr, avr_S3SecretName avr)
                    (avr_Name avr) bucket in
  let s3 := S3_DownloadPVs env (avr_S3Endpoint avr) (avr_Namespace avr, avr_S3SecretName avr)
              (avr_Name avr) bucket in
  let key := (homeCluster,
              ManifestWorkName (sub_Name subscription) (sub_Namespace subscription) MWTypePV) in
  let r := restorePVFromBackup env avr subscription homeCluster w in
  (exists rest, newCalls w r.2 = download :: rest /\
     forallb (fun c => isGet c || isCreate c || isUpdate c) rest = true) /\
  (fault env (length (trace w)) = true \/ isErr s3 = true ->
   r.1 <> None /\ r.2 = called w download) /\
  (forall pvList, fault env (length (trace w)) = false -> s3 = Ok pvList ->
   pvList <> [] -> isErr (generatePVManifest env pvList) = true ->
   r.1 <> None /\ r.2 = called w download) /\
  (forall pvList, fault env (length (trace w)) = false -> s3 = Ok pvList ->
   pvList <> [] -> r.1 = None ->
   exists stored, manifestWorks r.2 !! key = Some stored /\
     generatePVManifest env pvList = Ok (Manifests (mw_Spec stored))).
Proof.
  cbn zeta. unfold restorePVFromBackup, listPVsFromS3Store.
  rewrite bind_run, S3_Download_run. cbn [fst snd].
  destruct (fault env (length (trace w))).
  { cbn. split_and!; try done. exists []. split; [by apply newCalls_app|done]. }
  destruct (S3_DownloadPVs env _ _ _ _) as [pvList|e].
  2:{ cbn. split_and!; try done. exists []. split; [by apply newCalls_app|done]. }
  destruct (decide (length pvList = 0%nat)) as [Hlen|Hlen].
  { destruct pvList; [|done]. cbn. split_and!.
    - exists []. split; [by apply newCalls_app|done].
    - by intros [|].
    - by intros ? _ [= <-].
    - by intros ? _ [= <-]. }
  unfold createOrUpdatePVsManifestWork.
  destruct (generatePVManifestWork env _ _ _ _) as [mw|e] eqn:Hgen.
  - destruct (generatePVManifestWork_Ok env _ _ _ _ _ Hgen) as (Hname & Hns & Hms).
    pose proof (createOrUpdateManifestWork_frame env mw homeCluster
                  (called w (DownloadPVs (avr_S3Endpoint avr)
                     (avr_Namespace avr, avr_S3SecretName avr) (avr_Name avr)
                     (constructBucketName env (sub_Namespace subscription)
                        (sub_Name subscription)))))
      as (_ & _ & _ & _ & cs & Ht & Hcs & _).
    pose proof (createOrUpdateManifestWork_stored env mw homeCluster
                  (called w (DownloadPVs (avr_S3Endpoint avr)
                     (avr_Namespace avr, avr_S3SecretName avr) (avr_Name avr)
                     (constructBucketName env (sub_Namespace subscription)
                        (sub_Name subscription))))) as Hstored.
    cbn zeta in *.
    destruct (createOrUpdateManifestWork env mw homeCluster _) as [e w'].
    cbn [fst snd] in *. split_and!.
    + eexists. split.
      * apply newCalls_app. rewrite Ht. cbn. rewrite <- app_assoc. reflexivity.
      * cbn [forallb isGet orb andb].
        apply (forallb_weaken (fun c => isCreate c || isUpdate c)); [|done].
        intros c. by destruct (isGet c), (isCreate c), (isUpdate c).
    + by intros [|].
    + intros pvs _ [= <-] _ Herr. by rewrite Hms in Herr.
    + intros pvs _ [= <-] _ ->. destruct (Hstored eq_refl Hns) as (stored & Hs & Hspec & _).
      exists stored. rewrite <- Hname. split; [done|]. by rewrite Hspec.
  - unfold generatePVManifestWork in Hgen. cbn. split_and!.
    + exists []. split; [by apply newCalls_app|done].
    + by intros [|].
    + by intros.
    + by intros.
Qed.

(** X15: without a failover cluster named for the subscription (no
    entry, or the empty name), processPausedSubscription fails before any
    call, and a pass over a subscription paused for DR ends in requeue
    with no decision, no call and nothing changed. *)
Theorem processPausedSubscription_no_target
    (avr : ApplicationVolumeReplication) (subscription : Subscription) (w : World) :
  (avr_FailoverClusters avr !! sub_Name subscription = None \/
   avr_FailoverClusters avr !! sub_Name subscription = Some "") ->
  isErr (processPausedSubscription env avr subscription w).1 = true /\
  (processPausedSubscription env avr subscription w).2 = w /\
  (isSubsriptionPausedForDR (sub_Labels subscription) = true ->
   processSubscription env avr subscription w = ((None, true), w)).
Proof.
  intros Hnone.
  assert (findNextHomeCluster avr subscription = "") as Hhome.
  { unfold findNextHomeCluster, index. by destruct Hnone as [-> | ->]. }
  unfold processSubscription, processPausedSubscription. rewrite Hhome. cbn.
  split_and!; [done|done|]. by intros ->.
Qed.

End Restore.

(** ** The kinds of calls of a step *)

Lemma Calls_ret {A} P (a : A) : Calls P (ret a).
Proof. intros w. exists []. by rewrite app_nil_r. Qed.

Lemma Calls_bind {A B} P (m : M A) (k : A -> M B) :
  Calls P m -> (forall a, Calls P (k a)) -> Calls P (bind m k).
Proof.
  intros Hm Hk w. rewrite bind_run.
  destruct (Hm w) as (cs & Ht & Hcs). destruct (Hk (m w).1 (m w).2) as (cs' & Ht' & Hcs').
  exists (cs ++ cs'). rewrite Ht', Ht, <- app_assoc. split; [done|].
  by rewrite forallb_app, Hcs, Hcs'.
Qed.

Lemma Calls_one {A} P (m : M A) c :
  P c = true -> (forall w, trace (m w).2 = trace w ++ [c]) -> Calls P m.
Proof. intros Hc Hm w. exists [c]. split; [done|]. cbn. by rewrite Hc. Qed.

Section CallKinds.
Context (env : Env).

Lemma Calls_Get_ManifestWork P key :
  P (GetManifestWork key.1 key.2) = true -> Calls P (Client_Get_ManifestWork env key).
Proof.
  intros HP. apply (Calls_one P _ _ HP). intros w. by rewrite Client_Get_ManifestWork_run.
Qed.

Lemma Calls_Create_ManifestWork P mw :
  P (CreateManifestWork mw) = true -> Calls P (Client_Create_ManifestWork env mw).
Proof. intros HP. apply (Calls_one P _ _ HP). apply create_trace. Qed.

Lemma Calls_Update_ManifestWork P mw :
  P (UpdateManifestWork mw) = true -> Calls P (Client_Update_ManifestWork env mw).
Proof. intros HP. apply (Calls_one P _ _ HP). apply update_trace. Qed.

Lemma Calls_Delete_ManifestWork P mw :
  P (DeleteManifestWork mw) = true -> Calls P (Client_Delete_ManifestWork env mw).
Proof.
  intros HP. apply (Calls_one P _ _ HP). intros w.
  rewrite Client_Delete_ManifestWork_run.
  destruct (fault env _); [done|]. by destruct (manifestWorks w !! _).
Qed.

Lemma Calls_findManifestWork P s c t :
  (forall ns name, P (GetManifestWork ns name) = true) ->
  Calls P (findManifestWork env s c t).
Proof.
  intros HP. unfold findManifestWork.
  destruct (decide (c <> "")); [|apply Calls_ret].
  apply Calls_bind; [by apply Calls_Get_ManifestWork|].
  intros [mw|e]; [|destruct (IsNotFound e)]; apply Calls_ret.
Qed.

Lemma Calls_deleteExistingManfiestWork avr s :
  Calls (fun c => isGet c || isDelete c) (deleteExistingManfiestWork env avr s).
Proof.
  unfold deleteExistingManfiestWork.
  destruct (lookupDecision avr (sub_Name s)); [|apply Calls_ret].
  apply Calls_bind; [by apply Calls_Get_ManifestWork|].
  intros [mw|e]; [by apply Calls_Delete_ManifestWork|].
  destruct (IsNotFound e); apply Calls_ret.
Qed.

Lemma Calls_createOrUpdateManifestWork mw ns :
  Calls (fun c => isGet c || isCreate c || isUpdate c)
        (createOrUpdateManifestWork env mw ns).
Proof.
  unfold createOrUpdateManifestWork.
  apply Calls_bind; [by apply Calls_Get_ManifestWork|].
  intros [found|e].
  - destruct (decide _); [by apply Calls_Update_ManifestWork|apply Calls_ret].
  - destruct (negb _); [apply Calls_ret|by apply Calls_Create_ManifestWork].
Qed.

Lemma Calls_waitForManifest s c pvMW : Calls isGet (waitForManifest env s c pvMW).
Proof.
  unfold waitForManifest. apply Calls_bind.
  - destruct pvMW; [apply Calls_ret|]. by apply Calls_findManifestWork.
  - intros [[mw|]|e]; [destruct (negb _)| |]; apply Calls_ret.
Qed.

(** The calls of the restore: the download, then reads, creates and
    updates of work bundles. *)
Lemma restorePVFromBackup_calls avr s c w :
  exists d rest,
    trace (restorePVFromBackup env avr s c w).2 = trace w ++ d :: rest /\
    isDownload d = true /\
    forallb (fun c => isGet c || isCreate c || isUpdate c) rest = true.
Proof.
  unfold restorePVFromBackup, listPVsFromS3Store.
  rewrite bind_run, S3_Download_run. cbn [fst snd].
  set (d := DownloadPVs _ _ _ _).
  assert (forall r : Result (list PersistentVolume),
            Calls (fun c => isGet c || isCreate c || isUpdate c)
              (match r with
               | Err _ => ret (Some (Failure "failed to retrieve PVs from S3 store"))
               | Ok pvList =>
                   if decide (length pvList = 0%nat) then ret None
                   else createOrUpdatePVsManifestWork env (sub_Name s) (sub_Namespace s)
                          c pvList
               end)) as Hrest.
  { intros [pvList|e]; [|apply Calls_ret].
    destruct (decide _); [apply Calls_ret|].
    unfold createOrUpdatePVsManifestWork.
    destruct (generatePVManifestWork env _ _ _ _); [|apply Calls_ret].
    apply Calls_createOrUpdateManifestWork. }
  match goal with |- context [match ?r with Ok _ => _ | Err _ => _ end] =>
    destruct (Hrest r (called w d)) as (rest & Ht & Hrest') end.
  exists d, rest. split_and!; [|done|done].
  rewrite Ht. cbn. by rewrite <- app_assoc.
Qed.

(** The calls of processPausedSubscription: reads and deletions, then
    the restore if it is reached. *)
Lemma processPausedSubscription_calls avr s w :
  exists dels restore,
    trace (processPausedSubscription env avr s w).2 = trace w ++ dels ++ restore /\
    forallb (fun c => isGet c || isDelete c) dels = true /\
    (restore = [] \/
     exists d rest, restore = d :: rest /\ isDownload d = true /\
       forallb (fun c => isGet c || isCreate c || isUpdate c) rest = true).
Proof.
  unfold processPausedSubscription.
  destruct (decide (findNextHomeCluster avr s = "")) as [|Hne].
  { exists [], []. cbn. rewrite app_nil_r. by split_and!; [|  |left]. }
  rewrite bind_run, findManifestWork_run by done. cbn [fst snd].
  set (get := GetManifestWork _ _).
  destruct (if fault env _ then _ else _) as [[pvMW|]|e].
  - exists [get], []. cbn. by split_and!; [| |left].
  - rewrite bind_run.
    destruct (Calls_deleteExistingManfiestWork avr s (called w get)) as (dels & Ht & Hdels).
    destruct (deleteExistingManfiestWork env avr s (called w get)) as [[e|] w2];
      cbn [fst snd] in *.
    + exists (get :: dels), []. cbn. rewrite Ht, app_nil_r. cbn.
      rewrite <- app_assoc. by split_and!; [| |left].
    + rewrite bind_run.
      destruct (restorePVFromBackup_calls avr s (findNextHomeCluster avr s) w2)
        as (d & rest & Ht' & Hd & Hrest).
      destruct (restorePVFromBackup env avr s _ w2) as [[e|] w3]; cbn [ret fst snd] in *;
        (exists (get :: dels), (d :: rest); split_and!;
         [rewrite Ht', Ht; cbn; by rewrite <- !app_assoc|done|right; by exists d, rest]).
  - exists [get], []. cbn. by split_and!; [| |left].
Qed.

End CallKinds.

Section FailoverOrder.
Context (env : Env).

Lemma unpauseSubscription_calls s w :
  exists unpause,
    trace (unpauseSubscription env s w).2 = trace w ++ unpause /\
    (unpause = [] \/ exists s', unpause = [UpdateSubscription s']).
Proof.
  unfold unpauseSubscription. destruct (sub_Labels s) as [labels|].
  - rewrite bind_run. cbn [ret fst snd]. eexists. split.
    + apply update_subscription_trace.
    + right. by eexists.
  - exists []. cbn. rewrite app_nil_r. split; [done|by left].
Qed.

(** X16: the calls of a pass over a subscription paused for DR come in
    this order: reads and deletions of work bundles first; then, if the
    restore is reached, the download followed by reads, creates and
    updates of work bundles; then the lookup of the wait step; and last,
    if at all, the one update of the subscription that unpauses it.  No
    deletion follows the download, and nothing follows the unpause. *)
Theorem processSubscription_failover_order
    (avr : ApplicationVolumeReplication) (subscription : Subscription) (w : World) :
  isSubsriptionPausedForDR (sub_Labels subscription) = true ->
  failoverOrder (newCalls w (processSubscription env avr subscription w).2).
Proof.
  intros Hpaused. unfold processSubscription. rewrite Hpaused, bind_run.
  destruct (processPausedSubscription_calls env avr subscription w)
    as (dels & restore & Ht & Hdels & Hrestore).
  destruct (processPausedSubscription env avr subscription w) as [[[home pvMW]|e] w1];
    cbn [ret fst snd] in *.
  - rewrite bind_run.
    destruct (Calls_waitForManifest env subscription home pvMW w1) as (waits & Ht' & Hwaits).
    destruct (waitForManifest env subscription home pvMW w1) as [[|] w2];
      cbn [ret fst snd] in *.
    + exists dels, restore, waits, []. split_and!; [|done|done|done|by left].
      apply newCalls_app. rewrite Ht', Ht, app_nil_r. by rewrite <- !app_assoc.
    + rewrite bind_run.
      destruct (unpauseSubscription_calls subscription w2) as (unpause & Ht'' & Hunpause).
      destruct (unpauseSubscription env subscription w2) as [[e s'] w3];
        cbn [ret fst snd] in *.
      exists dels, restore, waits, unpause. split_and!; [|done..].
      apply newCalls_app.
      destruct e; cbn [ret fst snd]; rewrite Ht'', Ht', Ht; by rewrite <- !app_assoc.
  - exists dels, restore, [], []. split_and!; [|done|done|done|by left].
    apply newCalls_app. rewrite Ht, !app_nil_r. done.
Qed.

End FailoverOrder.

Lemma processSubscription_failover_order_witness :
  isSubsriptionPausedForDR (sub_Labels subPaused) = true /\
  failoverOrder
    (newCalls (worldOf [subPaused] [])
       (processSubscription (envOf noFault ["pv1"; "pv2"]) avrWest subPaused
          (worldOf [subPaused] [])).2).
Proof.
  assert (isSubsriptionPausedForDR (sub_Labels subPaused) = true) as Hpaused
    by (vm_compute; reflexivity).
  split; [exact Hpaused|].
  exact (processSubscription_failover_order (envOf noFault ["pv1"; "pv2"]) avrWest subPaused
           (worldOf [subPaused] []) Hpaused).
Defined.

(** ** Selection of the home and peer clusters *)

Section SelectionMore.
Context (env : Env).

(** [range] over a map of two clusters meets two entries of the map
    under different keys. *)
Lemma rangeOrder_two (clmap : gmap string ManagedCluster) :
  size clmap = 2%nat ->
  exists k1 c1 k2 c2,
    rangeOrder env clmap = [(k1, c1); (k2, c2)] /\ k1 <> k2 /\
    clmap !! k1 = Some c1 /\ clmap !! k2 = Some c2.
Proof.
  intros Hsize. pose proof (rangeOrder_perm env clmap) as Hp.
  pose proof (Permutation_length Hp) as Hlen.
  rewrite length_map_to_list, Hsize in Hlen.
  destruct (rangeOrder env clmap) as [|[k1 c1] [|[k2 c2] [|]]]; try done.
  exists k1, c1, k2, c2. split_and!; [done| | |].
  - pose proof (NoDup_fst_map_to_list clmap) as Hnd. rewrite <- Hp in Hnd.
    cbn in Hnd. apply NoDup_cons in Hnd as [Hnd _]. set_solver.
  - apply elem_of_map_to_list. rewrite <- Hp. left.
  - apply elem_of_map_to_list. rewrite <- Hp. right. left.
Qed.

(** X17: the extraction of home and peer never runs past the end of
    its two-element slice; it fails on a nil status map; and whenever it
    succeeds, home and peer are the names of two clusters that the
    placement resolved under different keys, and home has a status
    entry in the subscription. *)
Theorem extractHomeClusterAndPeerCluster_safe
    (subscription : Subscription) (placementRule : PlacementRule) (w : World) :
  let r := (extractHomeClusterAndPeerCluster env subscription placementRule w).1 in
  (r = Err Panic -> False) /\
  (sub_Statuses subscription = None -> isErr r = true) /\
  (forall home peer, r = Ok (home, peer) ->
   exists subStatuses clmap k1 c1 k2 c2,
     sub_Statuses subscription = Some subStatuses /\
     (getManagedClustersUsingPlacementRule env placementRule 2 w).1 = Ok clmap /\
     k1 <> k2 /\ clmap !! k1 = Some c1 /\ clmap !! k2 = Some c2 /\
     home = mc_Name c1 /\ peer = mc_Name c2 /\
     hasStatus subStatuses home = true).
Proof.
  cbn zeta. unfold extractHomeClusterAndPeerCluster.
  destruct (sub_Statuses subscription) as [subStatuses|]; [|by split_and!].
  cbn zeta. rewrite bind_run.
  destruct (getManagedClustersUsingPlacementRule env placementRule 2 w).1
    as [clmap|e] eqn:Hcl.
  2:{ cbn. split_and!; [|done|done]. intros [= ->].
      rewrite getManagedClustersUsingPlacementRule_run in Hcl. cbn [fst] in Hcl.
      unfold filterClusters in Hcl.
      destruct (Utils_PlaceByGenericPlacmentFields env placementRule w).1; [|done].
      destruct (if match plr_ClusterReplicas placementRule with
                   | Some replicas => bool_decide (replicas <> 1)
                   | None => false
                   end then true else false) eqn:Hif.
      - destruct (plr_ClusterReplicas placementRule); [destruct (bool_decide _)|]; done.
      - destruct (plr_ClusterReplicas placementRule);
          [destruct (bool_decide _); [done|]|]; repeat case_decide; done. }
  destruct (getManagedClustersUsingPlacementRule_Ok env _ _ _ _ Hcl) as (_ & _ & Hsize).
  destruct (rangeOrder_two clmap Hsize) as (k1 & c1 & k2 & c2 & -> & Hne & H1 & H2).
  cbn. rewrite !decide_True by lia. cbn.
  destruct (hasStatus subStatuses (mc_Name c1)) eqn:Hs1;
    [|destruct (hasStatus subStatuses (mc_Name c2)) eqn:Hs2]; cbn;
    (split_and!; [done|done|]).
  - intros home peer [= <- <-]. by exists subStatuses, clmap, k1, c1, k2, c2.
  - intros home peer [= <- <-]. exists subStatuses, clmap, k2, c2, k1, c1.
    by split_and!.
  - done.
Qed.

(** X18: selectPlacementDecision fails without any call when the
    subscription is not propagated, has a nil status map, or has no
    placement reference.  Otherwise its first call is the read of the
    placement rule named by the reference, in the namespace of the
    reference or, when that is empty, in the namespace of the
    subscription.  When the rule cannot be read it fails, and that read is
    its only call.  When the rule is read, the rule goes to the
    placement library, whose call through the client is the second and
    last call, and the result is what the extraction returns on the rule
    read.  It never changes a stored object. *)
Theorem selectPlacementDecision_spec (subscription : Subscription) (w : World) :
  let r := selectPlacementDecision env subscription w in
  sameStore w r.2 /\
  (sub_Phase subscription <> SubscriptionPropagated \/
   sub_Statuses subscription = None \/
   sub_Placement subscription = None \/
   (exists pl, sub_Placement subscription = Some pl /\ pl_PlacementRef pl = None) ->
   isErr r.1 = true /\ r.2 = w) /\
  (forall pl plRef,
   sub_Phase subscription = SubscriptionPropagated ->
   sub_Statuses subscription <> None ->
   sub_Placement subscription = Some pl -> pl_PlacementRef pl = Some plRef ->
   let ns := if decide (ref_Namespace plRef = "") then sub_Namespace subscription
             else ref_Namespace plRef in
   let get := GetPlacementRule ns (ref_Name plRef) in
   (fault env (length (trace w)) = true \/
    placementRules w !! (ns, ref_Name plRef) = None ->
    isErr r.1 = true /\ r.2 = called w get) /\
   (forall rule, fault env (length (trace w)) = false ->
      placementRules w !! (ns, ref_Name plRef) = Some rule ->
      let placementRule := plrAt (ns, ref_Name plRef) rule in
      newCalls w r.2 = [get; PlaceClusters placementRule] /\
      r.2 = called (called w get) (PlaceClusters placementRule) /\
      r.1 = (extractHomeClusterAndPeerCluster env subscription placementRule
               (called w get)).1)).
Proof.
  cbn zeta. unfold selectPlacementDecision.
  destruct (decide (sub_Phase subscription = SubscriptionPropagated)) as [Hphase|Hphase].
  2:{ rewrite bool_decide_eq_true_2 by done. cbn.
      split_and!; [apply sameStore_refl|done|]. by intros. }
  rewrite (bool_decide_eq_false_2 (sub_Phase subscription <> _)) by (intros H; by apply H).
  destruct (sub_Statuses subscription) as [st|] eqn:Hst.
  2:{ cbn. split_and!; [apply sameStore_refl|done|]. by intros. }
  rewrite bool_decide_eq_false_2 by done. cbn [orb].
  destruct (sub_Placement subscription) as [pl|].
  2:{ cbn. split_and!; [apply sameStore_refl|done|]. by intros. }
  destruct (pl_PlacementRef pl) as [plRef|] eqn:Href.
  2:{ cbn. split_and!; [apply sameStore_refl|done|]. intros ?? _ _ [= <-]. by rewrite Href. }
  rewrite bind_run, Client_Get_PlacementRule_run. cbn [fst snd].
  destruct (fault env (length (trace w))) eqn:Hfault;
    [|destruct (placementRules w !! _) as [rule|] eqn:Hrule]; cbn [ret fst snd].
  - split_and!; [apply sameStore_called| |].
    + intros [?|[?|[?|(pl' & [= <-] & Hnone)]]]; try done. by rewrite Href in Hnone.
    + intros pl' plRef' _ _ [= <-]. rewrite Href. intros [= <-]. by split_and!; [|intros].
  - pose proof (extractHomeClusterAndPeerCluster_world env subscription
                  (plrAt (if decide (ref_Namespace plRef = "") then sub_Namespace subscription
                          else ref_Namespace plRef, ref_Name plRef) rule)
                  (called w (GetPlacementRule
                     (if decide (ref_Namespace plRef = "") then sub_Namespace subscription
                      else ref_Namespace plRef) (ref_Name plRef)))) as Hworld.
    rewrite Hst in Hworld. rewrite Hworld.
    split_and!; [eapply sameStore_trans; apply sameStore_called| |].
    + intros [?|[?|[?|(pl' & [= <-] & Hnone)]]]; try done. by rewrite Href in Hnone.
    + intros pl' plRef' _ _ [= <-]. rewrite Href. intros [= <-]. rewrite Hrule.
      split; [by intros [|]|]. intros ? _ [= <-]. split_and!; [|done|done].
      apply newCalls_app. cbn. by rewrite <- app_assoc.
  - split_and!; [apply sameStore_called| |].
    + intros [?|[?|[?|(pl' & [= <-] & Hnone)]]]; try done. by rewrite Href in Hnone.
    + intros pl' plRef' _ _ [= <-]. rewrite Href. intros [= <-]. rewrite Hrule.
      by split_and!; [|intros].
Qed.

End SelectionMore.

(** ** The outcome of one subscription *)

Section Outcome.
Context (env : Env).

(** A decision comes with the two bundles on its home cluster. *)
Lemma processUnpausedSubscription_Ok avr s w d w' :
  processUnpausedSubscription env avr s w = (Ok d, w') ->
  (selectPlacementDecision env s w).1 = Ok (HomeCluster d, PeerCluster d) /\
  (exists mwR stored,
     generateVRGRolesManifestWork env (HomeCluster d) = Ok mwR /\
     manifestWorks w' !! (HomeCluster d, "ramendr-vrg-roles") = Some stored /\
     mw_Spec stored = mw_Spec mwR) /\
  (exists mwV stored,
     generateVRGManifestWork env (sub_Name s) (sub_Namespace s) (HomeCluster d)
       (avr_S3Endpoint avr) (avr_S3SecretName avr) = Ok mwV /\
     manifestWorks w' !! (HomeCluster d,
       ManifestWorkName (sub_Name s) (sub_Namespace s) MWTypeVRG) = Some stored /\
     mw_Spec stored = mw_Spec mwV).
Proof.
  unfold processUnpausedSubscription. rewrite bind_run.
  destruct (selectPlacementDecision env s w) as [[[home peer]|e] w1]; cbn [fst snd];
    [|by intros [=]].
  rewrite bind_run. unfold createOrUpdateVRGRolesManifestWork.
  destruct (generateVRGRolesManifestWork env home) as [mwR|eR] eqn:HgenR;
    [|by intros [=]].
  destruct (generateVRGRolesManifestWork_Ok env _ _ HgenR) as [HnameR HnsR].
  pose proof (createOrUpdateManifestWork_stored env mwR home w1) as HR. cbn zeta in HR.
  destruct (createOrUpdateManifestWork env mwR home w1) as [[e|] w2]; cbn [fst snd] in *;
    [by intros [=]|].
  destruct (HR eq_refl HnsR) as (storedR & HlookR & HspecR & _). rewrite HnameR in HlookR.
  rewrite bind_run. unfold createOrUpdateVRGManifestWork.
  destruct (generateVRGManifestWork env _ _ _ _ _) as [mwV|eV] eqn:HgenV;
    [|by intros [=]].
  destruct (generateVRGManifestWork_Ok env _ _ _ _ _ _ HgenV) as [HnameV HnsV].
  pose proof (createOrUpdateManifestWork_stored env mwV home w2) as HV. cbn zeta in HV.
  pose proof (createOrUpdateManifestWork_frame env mwV home w2) as (_ & _ & _ & Hframe & _).
  destruct (createOrUpdateManifestWork env mwV home w2) as [[e|] w3]; cbn [fst snd] in *;
    [by intros [=]|].
  destruct (HV eq_refl HnsV) as (storedV & HlookV & HspecV & _). rewrite HnameV in HlookV.
  intros [= <- <-]. cbn [HomeCluster PeerCluster]. split_and!; [done| |].
  - exists mwR, storedR. split_and!; [done| |done].
    rewrite Hframe; [done| |].
    + intros [= Heq]. symmetry in Heq. rewrite HnameV in Heq.
      by apply ManifestWorkName_not_roles in Heq.
    + unfold mwKey. intros [= _ Heq]. symmetry in Heq. rewrite HnameV in Heq.
      by apply ManifestWorkName_not_roles in Heq.
  - by exists mwV, storedV.
Qed.

Lemma processSubscription_paused avr s w :
  isSubsriptionPausedForDR (sub_Labels s) = true ->
  (processSubscription env avr s w).1 = (None, true).
Proof.
  intros Hp. unfold processSubscription. rewrite Hp, bind_run.
  destruct (processPausedSubscription env avr s w) as [[[home pvMW]|e] w1];
    cbn [fst snd]; [|done].
  rewrite bind_run. destruct (waitForManifest env _ _ _ _) as [[|] w2];
    cbn [fst snd]; [done|].
  rewrite bind_run.
  by destruct (unpauseSubscription env s w2) as [[[e|] s'] w3].
Qed.

(** X19: a pass over a subscription paused for DR always ends in
    requeue with no decision.  A decision never comes with a requeue, is
    given to unpaused subscriptions only, names the home and peer that the
    placement selection returned, and is returned only once the server
    holds, in the namespace of the home cluster, the roles bundle and the
    vrg bundle of the subscription with the generated specs. *)
Theorem processSubscription_outcome
    (avr : ApplicationVolumeReplication) (subscription : Subscription) (w : World) :
  let r := processSubscription env avr subscription w in
  (isSubsriptionPausedForDR (sub_Labels subscription) = true -> r.1 = (None, true)) /\
  (forall d, r.1.1 = Some d ->
   r.1.2 = false /\
   isSubsriptionPausedForDR (sub_Labels subscription) = false /\
   (exists w1, (selectPlacementDecision env subscription w1).1 =
                 Ok (HomeCluster d, PeerCluster d)) /\
   (exists mwR stored,
      generateVRGRolesManifestWork env (HomeCluster d) = Ok mwR /\
      manifestWorks r.2 !! (HomeCluster d, "ramendr-vrg-roles") = Some stored /\
      mw_Spec stored = mw_Spec mwR) /\
   (exists mwV stored,
      generateVRGManifestWork env (sub_Name subscription) (sub_Namespace subscription)
        (HomeCluster d) (avr_S3Endpoint avr) (avr_S3SecretName avr) = Ok mwV /\
      manifestWorks r.2 !! (HomeCluster d,
        ManifestWorkName (sub_Name subscription) (sub_Namespace subscription) MWTypeVRG)
        = Some stored /\
      mw_Spec stored = mw_Spec mwV)).
Proof.
  cbn zeta.
  destruct (isSubsriptionPausedForDR (sub_Labels subscription)) eqn:Hp.
  - pose proof (processSubscription_paused avr subscription w Hp) as Hpaused.
    split; [done|]. intros d Hd. rewrite Hpaused in Hd. done.
  - unfold processSubscription. rewrite Hp.
    split; [done|]. intros d. rewrite bind_run.
    destruct (vrgManifestWorkAlreadyExists env avr subscription w) as [[exists_ [e|]] w1];
      cbn [fst snd]; [done|].
    destruct exists_; [done|]. rewrite bind_run.
    destruct (processUnpausedSubscription env avr subscription w1) as [[d'|e] w2] eqn:Hun;
      cbn [ret fst snd]; [|done].
    intros [= <-]. destruct (processUnpausedSubscription_Ok _ _ _ _ _ Hun) as (Hs & HR & HV).
    split_and!; try done. by exists w1.
Qed.

(** X20: for an unpaused subscription with a decision recorded, a pass
    that finds the vrg bundle of the subscription on the recorded home
    cluster does nothing more than that read: no decision, no requeue, no
    write. *)
Theorem processSubscription_converged
    (avr : ApplicationVolumeReplication) (subscription : Subscription) (w : World)
    (d : SubscriptionPlacementDecision) (stored : ManifestWork) :
  isSubsriptionPausedForDR (sub_Labels subscription) = false ->
  lookupDecision avr (sub_Name subscription) = Some d ->
  HomeCluster d <> "" ->
  manifestWorks w !! (HomeCluster d,
    ManifestWorkName (sub_Name subscription) (sub_Namespace subscription) MWTypeVRG)
    = Some stored ->
  fault env (length (trace w)) = false ->
  processSubscription env avr subscription w =
  ((None, false),
   called w (GetManifestWork (HomeCluster d)
               (ManifestWorkName (sub_Name subscription) (sub_Namespace subscription)
                  MWTypeVRG))).
Proof.
  intros Hpaused Hd Hne Hstored Hfault. unfold processSubscription. rewrite Hpaused.
  rewrite bind_run. unfold vrgManifestWorkAlreadyExists. unfold lookupDecision in Hd.
  destruct (avr_Decisions avr) as [decisions|]; [|done]. rewrite Hd.
  rewrite bind_run, findManifestWork_run by done. cbn [fst snd].
  by rewrite Hfault, Hstored.
Qed.

End Outcome.

(** ** The pass and the stored decisions *)

Section PassMore.
Context (env : Env).

Lemma passOutcomes_decided avr items w n d :
  (n, Decided d) ∈ (passOutcomes env avr items w).1 ->
  exists s, s ∈ items /\ sub_Name s = n /\ isLocalSubscription s = false /\
            isSubsriptionPausedForDR (sub_Labels s) = false.
Proof.
  revert w. induction items as [|s rest IH]; intros w; cbn [passOutcomes].
  - cbn. intros H. by apply elem_of_nil in H.
  - rewrite !bind_run. cbn [ret fst snd]. intros Hin.
    apply elem_of_cons in Hin as [Heq|Hin].
    + exists s. split; [left|]. injection Heq as <- Ho.
      destruct (isLocalSubscription s); [done|]. rewrite bind_run in Ho. cbn [ret fst] in Ho.
      split_and!; [done|done|].
      destruct (isSubsriptionPausedForDR (sub_Labels s)) eqn:Hp; [|done].
      rewrite (processSubscription_paused env avr s w Hp) in Ho. done.
    + destruct (IH _ Hin) as (s' & Hs' & H). exists s'. split; [by right|done].
Qed.

Lemma passOutcomes_local avr items w :
  Forall (fun s => isLocalSubscription s = true) items ->
  passOutcomes env avr items w = (map (fun s => (sub_Name s, Skip)) items, w).
Proof.
  induction 1 as [|s rest Hs _ IH]; [done|].
  cbn [passOutcomes]. rewrite Hs. repeat (rewrite bind_run; cbn [ret fst snd]).
  by rewrite IH.
Qed.

Lemma foldDecisions_skips (items : list Subscription) acc :
  foldDecisions (map (fun s => (sub_Name s, Skip)) items) acc = acc.
Proof. induction items as [|s rest IH]; [done|]. by rewrite map_cons, foldDecisions_cons. Qed.

Lemma processSubscriptions_keys avr items w :
  (Forall (fun s => isLocalSubscription s = true) items ->
   processSubscriptions env avr items w = ((∅, false), w)) /\
  (forall n d, (processSubscriptions env avr items w).1.1 !! n = Some d ->
   exists s, s ∈ items /\ sub_Name s = n /\ isLocalSubscription s = false /\
             isSubsriptionPausedForDR (sub_Labels s) = false).
Proof.
  unfold processSubscriptions. rewrite processSubscriptionsFrom_outcomes. cbn [fst snd orb].
  split.
  - intros Hlocal. rewrite (passOutcomes_local avr items w Hlocal). cbn [fst snd].
    rewrite foldDecisions_skips. f_equal. f_equal.
    clear Hlocal. induction items as [|s rest IH]; [done|]. by cbn.
  - intros n d Hl. apply foldDecisions_lookup in Hl as [Hl|Hl]; [done|].
    by apply passOutcomes_decided in Hl.
Qed.

(** X21: child subscriptions and local ones cost a pass nothing: over
    a list of such subscriptions only, the pass makes no call, changes
    nothing and returns no decision and no requeue.  In any pass, every
    entry of the decision map returned is named after a subscription of
    the list that is neither child nor local nor paused for DR. *)
Theorem processSubscriptions_local
    (avr : ApplicationVolumeReplication) (items : list Subscription) (w : World) :
  (Forall (fun s => isLocalSubscription s = true) items ->
   processSubscriptions env avr items w = ((∅, false), w)) /\
  (forall n d, (processSubscriptions env avr items w).1.1 !! n = Some d ->
   exists s, s ∈ items /\ sub_Name s = n /\ isLocalSubscription s = false /\
             isSubsriptionPausedForDR (sub_Labels s) = false).
Proof. apply processSubscriptions_keys. Qed.

(** X22: the early exits of Reconcile.  When the intent is gone, the
    pass ends after its one read with no error and no requeue; when the
    read of the intent fails, it ends there with an error; when the list
    of the subscriptions fails, it ends after that second call with a
    requeue and no error.  In each case nothing is changed. *)
Theorem Reconcile_early_exit (req : string * string) (w : World) :
  let get := GetAVR req.1 req.2 in
  (fault env (length (trace w)) = false -> avrs w !! req = None ->
   Reconcile env req w = ((mkResult false, None), called w get)) /\
  (fault env (length (trace w)) = true ->
   (Reconcile env req w).1.1 = mkResult false /\
   (Reconcile env req w).1.2 <> None /\
   (Reconcile env req w).2 = called w get) /\
  (forall stored, fault env (length (trace w)) = false -> avrs w !! req = Some stored ->
   fault env (S (length (trace w))) = true ->
   Reconcile env req w =
   ((mkResult true, None), called (called w get) (ListSubscriptions req.1))).
Proof.
  cbn zeta. unfold Reconcile. rewrite bind_run, Client_Get_AVR_run. cbn [fst snd].
  split_and!.
  - by intros -> ->.
  - by intros ->.
  - intros stored -> -> Hfault. cbn [fst snd avrAt avr_Namespace].
    rewrite bind_run, Client_List_Subscriptions_run. cbn [fst snd trace called setTrace].
    rewrite length_app. cbn [length]. rewrite Nat.add_1_r, Hfault. done.
Qed.

(** X23: after a pass whose status update succeeds, the decisions
    stored for the intent are those of this pass and no other: every
    stored entry is named after a subscription of the list that was
    neither child, local nor paused, so that an entry stored before for a
    subscription that got no decision in this pass is gone. *)
Theorem Reconcile_decisions_replaced
    (req : string * string) (w : World) (avr : ApplicationVolumeReplication)
    (items : list Subscription) :
  let w2 := called (called w (GetAVR req.1 req.2)) (ListSubscriptions (avr_Namespace avr)) in
  let p := processSubscriptions env avr items w2 in
  let r := Reconcile env req w in
  (Client_Get_AVR env req w).1 = Ok avr ->
  (Client_List_Subscriptions env (avr_Namespace avr) (called w (GetAVR req.1 req.2))).1
    = Ok items ->
  size p.1.1 <> 0%nat ->
  fault env (length (trace p.2)) = false ->
  exists stored, avrs r.2 !! req = Some stored /\
    avr_Decisions stored = Some p.1.1 /\
    forall n d, lookupDecision stored n = Some d ->
      exists s, s ∈ items /\ sub_Name s = n /\ isLocalSubscription s = false /\
                isSubsriptionPausedForDR (sub_Labels s) = false.
Proof.
  cbn zeta. intros Hget Hlist Hsize Hfault.
  rewrite (Reconcile_run env _ _ _ _ Hget Hlist). cbn zeta.
  rewrite decide_False by done. cbn [fst snd].
  pose proof (Frame_processSubscriptions env avr items
    (called (called w (GetAVR req.1 req.2)) (ListSubscriptions (avr_Namespace avr))))
    as [Havrs _].
  destruct (Client_Get_AVR_Ok env _ _ _ Hget) as (stored & Hstored & Havr & Hkey).
  pose proof (proj2 (processSubscriptions_keys avr items
    (called (called w (GetAVR req.1 req.2)) (ListSubscriptions (avr_Namespace avr)))))
    as Hkeys.
  set (p := processSubscriptions env avr items _) in *. clearbody p.
  cbn [avrs called setTrace] in Havrs.
  rewrite Client_Status_Update_run, Hfault. unfold avrKey in *.
  cbn [setDecisions avr_Namespace avr_Name avr_Decisions].
  rewrite Hkey, Havrs, Hstored. cbn [snd avrs setAvrs].
  rewrite lookup_insert_eq. eexists. split_and!; [done|done|].
  intros n d Hl. unfold lookupDecision in Hl. cbn [avr_Decisions setDecisions] in Hl.
  exact (Hkeys n d Hl).
Qed.

End PassMore.

(** * The further properties on the scenarios *)

Lemma createOrUpdateManifestWork_converges_witness :
  let r := createOrUpdateManifestWork (envOf noFault []) workEast "east"
             (worldOf [] [workEastStale]) in
  r.1 = None /\
  exists stored, manifestWorks r.2 !! ("east", "app1-ns-vrg-mw") = Some stored /\
    mw_Spec stored = mkManifestWorkSpec ["{}"] /\
    mw_Labels stored = {["app" := "old"]} /\
    mw_Conditions stored = [mkCondition "Applied" "True" (atServer 7)].
Proof.
  cbn zeta.
  assert ((createOrUpdateManifestWork (envOf noFault []) workEast "east"
             (worldOf [] [workEastStale])).1 = None) as Hok by (vm_compute; reflexivity).
  split; [exact Hok|].
  destruct (proj1 (createOrUpdateManifestWork_converges (envOf noFault []) workEast "east"
                     (worldOf [] [workEastStale])) Hok eq_refl)
    as (stored & Hstored & Hspec & Hold).
  exists stored. destruct (Hold workEastStale) as [Hlabels Hconds];
    [vm_compute; reflexivity|].
  split_and!; [exact Hstored|exact Hspec|exact Hlabels|exact Hconds].
Defined.

Lemma createOrUpdateManifestWork_idempotent_witness :
  let r := createOrUpdateManifestWork (envOf noFault []) workEast "east" (worldOf [] []) in
  let r' := createOrUpdateManifestWork (envOf noFault []) workEast "east" r.2 in
  r.1 = None /\ mw_Namespace workEast = "east" /\
  r'.2 = called r.2 (GetManifestWork "east" "app1-ns-vrg-mw") /\ r'.1 = None.
Proof.
  cbn zeta.
  assert ((createOrUpdateManifestWork (envOf noFault []) workEast "east"
             (worldOf [] [])).1 = None) as Hok by (vm_compute; reflexivity).
  destruct (createOrUpdateManifestWork_idempotent (envOf noFault []) workEast "east"
              (worldOf [] []) Hok eq_refl) as [Hworld Hnil].
  split_and!; [exact Hok|reflexivity|exact Hworld|exact (Hnil eq_refl)].
Defined.

Lemma restorePVFromBackup_spec_witness :
  let w := worldOf [subPaused] [] in
  let bad := restorePVFromBackup (envRejecting noFault ["pv1"; "bad"]) avrWest subPaused
               "west" w in
  let good := restorePVFromBackup (envRejecting noFault ["pv1"; "pv2"]) avrWest subPaused
                "west" w in
  bad.1 <> None /\
  bad.2 = called w (DownloadPVs "s3.example" ("ns", "secret") "avr" "ns-app1") /\
  good.1 = None /\
  exists stored, manifestWorks good.2 !! ("west", "app1-ns-pv-mw") = Some stored /\
    Manifests (mw_Spec stored) = ["{pv1}"; "{pv2}"].
Proof.
  cbn zeta.
  assert ((restorePVFromBackup (envRejecting noFault ["pv1"; "pv2"]) avrWest subPaused
             "west" (worldOf [subPaused] [])).1 = None) as Hok by (vm_compute; reflexivity).
  destruct (restorePVFromBackup_spec (envRejecting noFault ["pv1"; "bad"]) avrWest subPaused
              "west" (worldOf [subPaused] [])) as (_ & _ & Hbad & _).
  destruct (Hbad ["pv1"; "bad"] eq_refl eq_refl) as [Herr Hworld];
    [discriminate|vm_compute; reflexivity|].
  destruct (restorePVFromBackup_spec (envRejecting noFault ["pv1"; "pv2"]) avrWest subPaused
              "west" (worldOf [subPaused] [])) as (_ & _ & _ & Hgood).
  destruct (Hgood ["pv1"; "pv2"] eq_refl eq_refl) as (stored & Hstored & Hms);
    [discriminate|exact Hok|].
  split_and!; [exact Herr|exact Hworld|exact Hok|].
  exists stored. split; [exact Hstored|].
  assert (generatePVManifest (envRejecting noFault ["pv1"; "pv2"]) ["pv1"; "pv2"]
          = Ok ["{pv1}"; "{pv2}"]) as Hgen by (vm_compute; reflexivity).
  rewrite Hgen in Hms. by injection Hms as <-.
Defined.

Lemma processPausedSubscription_no_target_witness :
  avr_FailoverClusters avrNoTarget !! sub_Name subPaused = None /\
  isSubsriptionPausedForDR (sub_Labels subPaused) = true /\
  processSubscription (envOf noFault ["pv1"]) avrNoTarget subPaused
    (worldOf [subPaused] []) = ((None, true), worldOf [subPaused] []).
Proof.
  assert (isSubsriptionPausedForDR (sub_Labels subPaused) = true) as Hpaused
    by (vm_compute; reflexivity).
  split_and!; [reflexivity|exact Hpaused|].
  exact (proj2 (proj2 (processPausedSubscription_no_target (envOf noFault ["pv1"])
                         avrNoTarget subPaused (worldOf [subPaused] [])
                         (or_introl eq_refl))) Hpaused).
Defined.

Lemma processSubscription_converged_witness :
  let w := worldWith avrDecided [subEast] [workEast] in
  lookupDecision avrDecided (sub_Name subEast) = Some (mkDecision "east" "west") /\
  manifestWorks w !! ("east", "app1-ns-vrg-mw") = Some workEast /\
  processSubscription (envOf noFault []) avrDecided subEast w =
    ((None, false), called w (GetManifestWork "east" "app1-ns-vrg-mw")).
Proof.
  cbn zeta.
  assert (manifestWorks (worldWith avrDecided [subEast] [workEast])
            !! ("east", "app1-ns-vrg-mw") = Some workEast) as Hstored
    by (vm_compute; reflexivity).
  split_and!; [reflexivity|exact Hstored|].
  apply (processSubscription_converged (envOf noFault []) avrDecided subEast _
           (mkDecision "east" "west") workEast);
    [reflexivity|reflexivity|discriminate|exact Hstored|reflexivity].
Defined.

Lemma Reconcile_decisions_replaced_witness :
  let env := envOf noFault [] in
  let w := worldWith avrDecided subsOneNew [workEast] in
  let r := Reconcile env ("ns", "avr") w in
  lookupDecision avrDecided "app1" = Some (mkDecision "east" "west") /\
  exists stored, avrs r.2 !! ("ns", "avr") = Some stored /\
    lookupDecision stored "app3" = Some (mkDecision "west" "east") /\
    lookupDecision stored "app1" = None.
Proof.
  cbn zeta. split; [reflexivity|].
  assert ((Client_Get_AVR (envOf noFault []) ("ns", "avr")
             (worldWith avrDecided subsOneNew [workEast])).1 = Ok avrDecided) as Hget
    by (vm_compute; reflexivity).
  assert ((Client_List_Subscriptions (envOf noFault []) (avr_Namespace avrDecided)
             (called (worldWith avrDecided subsOneNew [workEast])
                (GetAVR ("ns", "avr").1 ("ns", "avr").2))).1
          = Ok [subOn "app3" {["west" := Some "ok"]}; subOn "app1" {["east" := Some "ok"]}])
    as Hlist by (vm_compute; reflexivity).
  destruct (Reconcile_decisions_replaced (envOf noFault []) ("ns", "avr")
              (worldWith avrDecided subsOneNew [workEast]) avrDecided _ Hget Hlist)
    as (stored & Hstored & Hdec & _); [vm_compute; discriminate|reflexivity|].
  exists stored. split; [exact Hstored|].
  unfold lookupDecision. rewrite Hdec. split; vm_compute; reflexivity.
Defined.

(** A failover pass from a recorded decision on east to west: the
    restore bundle is looked up, the stale vrg bundle on east is read and
    deleted, the volumes are downloaded, the restore bundle is created on
    west, and the wait step finds it not applied yet. *)
Example processSubscription_failover_calls :
  let r := processSubscription (envOf noFault ["pv1"]) avrDecided subPaused
             (worldWith avrDecided [subPaused] [workEast]) in
  r.1 = (None, true) /\
  map (fun c => (isGet c, isDelete c, isDownload c, isCreate c)) (trace r.2) =
    [(true, false, false, false); (true, false, false, false);
     (false, true, false, false); (false, false, true, false);
     (true, false, false, false); (false, false, false, true);
     (true, false, false, false)] /\
  manifestWorks r.2 !! ("east", "app1-ns-vrg-mw") = None.
Proof. cbn zeta. split_and!; vm_compute; reflexivity. Qed.

Lemma processSubscriptions_local_witness :
  Forall (fun s => isLocalSubscription s = true) [subChild; subLocal] /\
  processSubscriptions (envOf noFault []) avrWest [subChild; subLocal]
    (worldOf [subChild; subLocal] []) = ((∅, false), worldOf [subChild; subLocal] []).
Proof.
  assert (Forall (fun s => isLocalSubscription s = true) [subChild; subLocal]) as Hlocal
    by (repeat constructor).
  split; [exact Hlocal|].
  exact (proj1 (processSubscriptions_local (envOf noFault []) avrWest [subChild; subLocal]
                  (worldOf [subChild; subLocal] [])) Hlocal).
Defined.

(** A pass over an unpaused subscription with no decision recorded: the
    placement rule is read, the placement library resolves its clusters
    through the client, and the roles bundle and the vrg bundle are each
    read and created on the home cluster. *)
Example processSubscription_decision_calls :
  let r := processSubscription (envOf noFault []) avrWest subEast (worldOf [subEast] []) in
  r.1 = (Some (mkDecision "east" "west"), false) /\
  trace r.2 =
    [GetPlacementRule "ns" "rule"; PlaceClusters ruleOnePerPair;
     GetManifestWork "east" "ramendr-vrg-roles";
     CreateManifestWork (mkManifestWork "ramendr-vrg-roles" "east" ∅
                           (mkManifestWorkSpec ["{}"; "{}"]) []);
     GetManifestWork "east" "app1-ns-vrg-mw";
     CreateManifestWork workEast] /\
  filter isPlace (trace r.2) = [PlaceClusters ruleOnePerPair].
Proof. cbn zeta. split_and!; vm_compute; reflexivity. Qed.
